(** * Order processing core: a shallow embedding and its verified properties

    The development follows the Python sources:

    - [app/schemas/product.py], [app/schemas/order.py], [app/schemas/user.py]:
      the pydantic schemas and their field validators;
    - [app/repositories/product_repository.py], [order_repository.py],
      [address_repository.py], [user_repository.py]: the SQLAlchemy
      repositories;
    - [app/services/user_service.py]: the business rules over users;
    - [app/main.py]: [provide_db_session], the request-scoped unit of work;
    - [app/schemas/address.py]: the schemas of the addresses;
    - [app/services/product_service.py], [app/redis.py]: the product service,
      without and with its cache;
    - [app/controllers/user_controller.py]: the listing of users.

    Modelling conventions.

    - The datastore is a record of tables.  Tables keyed by a single UUID are
      finite maps; [order_items], whose rows are summed over, is a list of rows
      with its composite primary key checked on insertion.
    - A UUID is a natural number; an identifier produced by [uuid4] is an
      explicit argument of the function that needs one.
    - Python [int] is [Z]; [Decimal] is a pair of a signed coefficient and an
      exponent, so that the representation (not only the value) is tracked.
    - An exception is the [Err] case of [result]; a function that may raise
      after it has changed the session returns the session next to the result.
    - The wall-clock columns [created_at] and [updated_at] are not represented.
    - Strings are sequences of 8-bit characters; [len] is [String.length].
    - A query without ORDER BY returns the rows in the scan order of the table;
      ORDER BY is a sort of the scanned rows.  The statements about queries use
      only which rows are returned and that they are sorted.
    - The cache is a finite map from product identifiers to entries; the
      expiry of an entry is an event of its own. *)

From Stdlib Require Import ZArith QArith Qabs Lia List String Ascii Bool.
From stdpp Require Import gmap strings list fin_maps sorting.

Local Open Scope Z_scope.

Abbreviation UUID := N.

(** ** Exceptions *)

(** The messages of the [ValueError]s raised by the sources; the arguments are
    the values interpolated by the f-strings. *)
Inductive Message : Type :=
  | OrderProductNotFound (product_id : UUID)
      (* "Product {item.product_id} not found" *)
  | NotEnoughStock (product_label : string) (available requested : Z)
      (* "Not enough stock for {label}. Available: {a}, Requested: {r}" *)
  | ProductPriceMustBePositive
      (* "Product price must be greater than zero" *)
  | ProductWithIdNotFound (product_id : UUID)
      (* "Product with id {product_id} not found" *)
  | ProductReferencedInOrders
      (* "Cannot delete product that is referenced in existing orders. ..." *)
  | InsufficientStock (current_stock requested_change : Z)
      (* "Insufficient stock. Current stock: {c}, Requested change: {q}" *)
  | LabelTooShort              (* 'Label must be at least 3 characters' *)
  | LabelTooLong               (* 'Label cannot exceed 100 characters' *)
  | PackageCountTooSmall       (* 'Count in package must be at least 1' *)
  | PackageCountTooLarge       (* 'Count in package cannot exceed 10,000' *)
  | WarehouseCountNegative     (* 'Warehouse count cannot be negative' *)
  | PriceNotPositive           (* 'Price must be greater than zero' *)
  | PriceTooLarge              (* 'Price cannot exceed 1,000,000' *)
  | QuantityTooSmall           (* "Quantity must be at least 1" *)
  | OrderWithoutItems          (* "Order must contain at least one item" *)
  | AddressWithIdNotFound (address_id : UUID)
      (* "Address with id {address_id} not found" *)
  | AddressUsedInOrders
      (* "Cannot delete address that is used in existing orders" *)
  | UsernameTooShortService
      (* "Username must be at least 3 characters long" *)
  | UsernameTooShortSchema
      (* "Username must be at least 3 characters" *)
  | EmailCannotBeChanged
      (* "Email cannot be changed after registration" *)
  | UserWithIdNotFound (user_id : UUID)
      (* "User with id {user_id} not found" *)
  | UserHasOrders
      (* "Cannot delete user with existing orders" *).

Inductive Error : Type :=
  | ValueError (m : Message)        (* raised by repositories and services *)
  | ValidationError (m : Message)   (* pydantic: a field validator raised *)
  | InvalidOperation                (* decimal: quantize result too long *)
  | IntegrityError                  (* the database refused a constraint *)
  | StaleDataError                  (* an UPDATE matched no row *)
  | HTTPException (status : Z) (cause : Error).  (* provide_db_session *)

Inductive result (A : Type) : Type :=
  | Ok (a : A)
  | Err (e : Error).
Arguments Ok {A} a.
Arguments Err {A} e.

Definition bind {A B} (r : result A) (k : A -> result B) : result B :=
  match r with
  | Ok a => k a
  | Err e => Err e
  end.

Notation "'let*' x ':=' r 'in' k" := (bind r (fun x => k))
  (at level 10, x pattern, r at level 100, k at level 200).

Definition is_ok {A} (r : result A) : bool :=
  match r with Ok _ => true | Err _ => false end.

(** ** Decimal *)

(** A finite [decimal.Decimal]: the number [coefficient * 10 ^ exponent].
    [Decimal('10.0')] is [(100, -1)] and [Decimal('10.00')] is [(1000, -2)]:
    equal numbers, different representations. *)
Record Decimal : Type := mkDecimal { coefficient : Z; exponent : Z }.

#[global] Instance Decimal_eq_dec : EqDecision Decimal.
Proof. solve_decision. Defined.

(** [d <= 0] and [d > n] for an integer [n]. *)
Definition dec_le_zero (d : Decimal) : bool := coefficient d <=? 0.

Definition dec_gt_int (d : Decimal) (n : Z) : bool :=
  if 0 <=? exponent d
  then n <? coefficient d * 10 ^ exponent d
  else n * 10 ^ (- exponent d) <? coefficient d.

(** Division of a non-negative [a] by [D > 0], rounded to the nearest integer
    and on a tie to the even one (ROUND_HALF_EVEN, the rounding of the default
    decimal context). *)
Definition round_half_even_div (a D : Z) : Z :=
  let q := a / D in
  let r := a mod D in
  if (D <? 2 * r) || ((2 * r =? D) && Z.odd q) then q + 1 else q.

(** [d.quantize(Decimal('0.01'))] in the default context (28 digits of
    precision, ROUND_HALF_EVEN): the exponent becomes [-2]; a shorter fraction
    is padded with zeros, a longer one is rounded on the magnitude.  A result
    of more than 28 digits raises [InvalidOperation]. *)
Definition quantize_coefficient (d : Decimal) : Z :=
  if -2 <=? exponent d
  then coefficient d * 10 ^ (exponent d + 2)
  else Z.sgn (coefficient d)
       * round_half_even_div (Z.abs (coefficient d)) (10 ^ (-2 - exponent d)).

Definition quantize (d : Decimal) : result Decimal :=
  let c := quantize_coefficient d in
  if 10 ^ 28 <=? Z.abs c then Err InvalidOperation
  else Ok (mkDecimal c (-2)).

(** [Decimal * int] and [Decimal + Decimal].  The results are exact: the
    rounding to 28 significant digits of the decimal context is not
    represented (a [Numeric(10, 2)] price times an INTEGER quantity has at most
    20 digits). *)
Definition dec_mul_int (d : Decimal) (n : Z) : Decimal :=
  mkDecimal (coefficient d * n) (exponent d).

Definition dec_add (a b : Decimal) : Decimal :=
  let e := Z.min (exponent a) (exponent b) in
  mkDecimal (coefficient a * 10 ^ (exponent a - e)
             + coefficient b * 10 ^ (exponent b - e)) e.

(** The rational number a [Decimal] denotes. *)
Definition dec_value (d : Decimal) : Q :=
  if 0 <=? exponent d
  then inject_Z (coefficient d * 10 ^ exponent d)
  else Qmake (coefficient d) (Z.to_pos (10 ^ (- exponent d))).

(** ** Strings *)

(** [str.isspace] on one character and [str.strip()]. *)
Definition is_space (c : ascii) : bool :=
  let n := Z.of_nat (nat_of_ascii c) in
  ((9 <=? n) && (n <=? 13)) || ((28 <=? n) && (n <=? 32))
  || (n =? 133) || (n =? 160).

Fixpoint lstrip (s : string) : string :=
  match s with
  | EmptyString => EmptyString
  | String c s' => if is_space c then lstrip s' else s
  end.

Fixpoint rstrip (s : string) : string :=
  match s with
  | EmptyString => EmptyString
  | String c s' =>
      match rstrip s' with
      | EmptyString => if is_space c then EmptyString else String c EmptyString
      | t => String c t
      end
  end.

Definition strip (s : string) : string := rstrip (lstrip s).

Definition len (s : string) : Z := Z.of_nat (String.length s).

(** ** The tables ([app/models/database_models.py]) *)

Record User : Type := mkUser {
  username : string;              (* unique *)
  email : string;                 (* unique *)
  description : option string
}.

Record Address : Type := mkAddress {
  address_user_id : UUID;         (* ForeignKey("users.id"), NOT NULL *)
  street : string;
  city : string;
  state : option string;          (* [Mapped[str]]: NOT NULL, see [create] *)
  zip_code : string;
  country : string;
  is_primary : bool
}.

Record Product : Type := mkProduct {
  label : string;
  count_in_package : Z;
  count_in_warehouse : Z;
  price : Decimal                 (* Numeric(10, 2) *)
}.

Record Order : Type := mkOrder {
  order_user_id : UUID;           (* ForeignKey("users.id"), NOT NULL *)
  order_address_id : UUID         (* ForeignKey("addresses.id"), NOT NULL *)
}.

(** The primary key of an [OrderItem] is the pair [(order_id, product_id)]. *)
Record OrderItem : Type := mkOrderItem {
  item_order_id : UUID;
  item_product_id : UUID;
  quantity : Z;
  unit_price : Decimal            (* the price at the time of the order *)
}.

(** [foreign_keys] tells whether the datastore checks the declared foreign
    keys on insertion (PostgreSQL does, SQLite by default does not); primary
    keys, uniqueness and NOT NULL are always checked. *)
Record DB : Type := mkDB {
  foreign_keys : bool;
  users : gmap UUID User;
  addresses : gmap UUID Address;
  products : gmap UUID Product;
  orders : gmap UUID Order;
  order_items : list OrderItem
}.


Definition set_products (db : DB) (ps : gmap UUID Product) : DB :=
  mkDB (foreign_keys db) (users db) (addresses db) ps (orders db)
       (order_items db).

Definition set_addresses (db : DB) (m : gmap UUID Address) : DB :=
  mkDB (foreign_keys db) (users db) m (products db) (orders db)
       (order_items db).

Definition set_users (db : DB) (m : gmap UUID User) : DB :=
  mkDB (foreign_keys db) m (addresses db) (products db) (orders db)
       (order_items db).

Definition set_count_in_warehouse (p : Product) (n : Z) : Product :=
  mkProduct (label p) (count_in_package p) n (price p).

(** ** Product schemas ([app/schemas/product.py]) *)

(** The fields of [ProductCreate] (inherited from [ProductBase]); the same
    record holds the values before and after validation. *)
Record ProductCreate : Type := mkProductCreate {
  pc_label : string;
  pc_count_in_package : Z;
  pc_count_in_warehouse : Z;
  pc_price : Decimal
}.

(** [ProductUpdate]: every field is [Optional] and defaults to [None]. *)
Record ProductUpdate : Type := mkProductUpdate {
  pu_label : option string;
  pu_count_in_package : option Z;
  pu_count_in_warehouse : option Z;
  pu_price : option Decimal
}.

Definition validate_label (v : string) : result string :=
  let stripped := strip v in
  if len stripped <? 3 then Err (ValidationError LabelTooShort)
  else if 100 <? len stripped then Err (ValidationError LabelTooLong)
  else Ok stripped.

Definition validate_package_count (v : Z) : result Z :=
  if v <? 1 then Err (ValidationError PackageCountTooSmall)
  else if 10000 <? v then Err (ValidationError PackageCountTooLarge)
  else Ok v.

Definition validate_warehouse_count (v : Z) : result Z :=
  if v <? 0 then Err (ValidationError WarehouseCountNegative)
  else Ok v.

Definition validate_price (v : Decimal) : result Decimal :=
  if dec_le_zero v then Err (ValidationError PriceNotPositive)
  else if dec_gt_int v 1000000 then Err (ValidationError PriceTooLarge)
  else quantize v.

(** A validator of [ProductUpdate] returns [None] on [None] and otherwise does
    what the validator of [ProductBase] does. *)
Definition validate_optional {A} (f : A -> result A) (v : option A)
  : result (option A) :=
  match v with
  | None => Ok None
  | Some x => let* y := f x in Ok (Some y)
  end.

(** Building a [ProductCreate] runs the field validators in the order of the
    fields; the first failure is the one reported here. *)
Definition ProductCreate_validate (raw : ProductCreate) : result ProductCreate :=
  let* l := validate_label (pc_label raw) in
  let* cp := validate_package_count (pc_count_in_package raw) in
  let* cw := validate_warehouse_count (pc_count_in_warehouse raw) in
  let* p := validate_price (pc_price raw) in
  Ok (mkProductCreate l cp cw p).

Definition ProductUpdate_validate (raw : ProductUpdate) : result ProductUpdate :=
  let* l := validate_optional validate_label (pu_label raw) in
  let* cp := validate_optional validate_package_count (pu_count_in_package raw) in
  let* cw := validate_optional validate_warehouse_count (pu_count_in_warehouse raw) in
  let* p := validate_optional validate_price (pu_price raw) in
  Ok (mkProductUpdate l cp cw p).

(** ** ProductRepository ([app/repositories/product_repository.py]) *)

(** [OrderItem] rows of a product whose order exists:
    [select(OrderItem).join(OrderItem.order).where(OrderItem.product_id == id)]. *)
Definition active_orders (db : DB) (product_id : UUID) : list OrderItem :=
  List.filter
    (fun it => bool_decide (item_product_id it = product_id)
               && bool_decide (is_Some (orders db !! item_order_id it)))
    (order_items db).

(** [create]: the price is checked, then [Decimal(str(price))] (the same
    decimal) is quantized; [new_id] is the [uuid4] default of the new row. *)
Definition ProductRepository_create (db : DB) (new_id : UUID)
    (product_data : ProductCreate) : DB * result (UUID * Product) :=
  if dec_le_zero (pc_price product_data)
  then (db, Err (ValueError ProductPriceMustBePositive))
  else
    match quantize (pc_price product_data) with
    | Err e => (db, Err e)
    | Ok p =>
        let new_product :=
          mkProduct (pc_label product_data) (pc_count_in_package product_data)
                    (pc_count_in_warehouse product_data) p in
        match products db !! new_id with
        | Some _ => (db, Err IntegrityError)
        | None =>
            (set_products db (<[new_id := new_product]> (products db)),
             Ok (new_id, new_product))
        end
    end.

(** [setattr(product, field, value)] for every field of the update whose value
    is not [None]. *)
Definition apply_product_update (product : Product) (l : option string)
    (cp cw : option Z) (p : option Decimal) : Product :=
  mkProduct (default (label product) l)
            (default (count_in_package product) cp)
            (default (count_in_warehouse product) cw)
            (default (price product) p).

Definition ProductRepository_update (db : DB) (product_id : UUID)
    (product_data : ProductUpdate) : DB * result Product :=
  match products db !! product_id with
  | None => (db, Err (ValueError (ProductWithIdNotFound product_id)))
  | Some product =>
      let checked :=
        match pu_price product_data with
        | None => Ok None
        | Some new_price =>
            if dec_le_zero new_price
            then Err (ValueError ProductPriceMustBePositive)
            else let* q := quantize new_price in Ok (Some q)
        end in
      match checked with
      | Err e => (db, Err e)
      | Ok new_price =>
          let updated :=
            apply_product_update product (pu_label product_data)
              (pu_count_in_package product_data)
              (pu_count_in_warehouse product_data) new_price in
          (set_products db (<[product_id := updated]> (products db)), Ok updated)
      end
  end.

(** [delete]: refused while an item of an existing order references the
    product; otherwise the product goes, and with it (cascade
    ["all, delete-orphan"]) the items that reference it. *)
Definition ProductRepository_delete (db : DB) (product_id : UUID)
  : DB * result unit :=
  match products db !! product_id with
  | None => (db, Err (ValueError (ProductWithIdNotFound product_id)))
  | Some product =>
      match active_orders db product_id with
      | _ :: _ => (db, Err (ValueError ProductReferencedInOrders))
      | [] =>
          (mkDB (foreign_keys db) (users db) (addresses db)
                (delete product_id (products db))
                (orders db)
                (List.filter
                   (fun it => negb (bool_decide (item_product_id it = product_id)))
                   (order_items db)),
           Ok tt)
      end
  end.

Definition ProductRepository_update_stock (db : DB) (product_id : UUID)
    (quantity_change : Z) : DB * result Product :=
  match products db !! product_id with
  | None => (db, Err (ValueError (ProductWithIdNotFound product_id)))
  | Some product =>
      let new_stock := count_in_warehouse product + quantity_change in
      if new_stock <? 0
      then (db, Err (ValueError
                       (InsufficientStock (count_in_warehouse product)
                                          quantity_change)))
      else
        let updated := set_count_in_warehouse product new_stock in
        (set_products db (<[product_id := updated]> (products db)), Ok updated)
  end.

(** ** Order schemas ([app/schemas/order.py]) *)

Record OrderItemCreate : Type := mkOrderItemCreate {
  oi_product_id : UUID;
  oi_quantity : Z
}.

Record OrderCreate : Type := mkOrderCreate {
  oc_user_id : UUID;
  oc_address_id : UUID;
  oc_items : list OrderItemCreate
}.

Definition validate_quantity (v : Z) : result Z :=
  if v <? 1 then Err (ValidationError QuantityTooSmall) else Ok v.

Fixpoint validate_order_items (l : list OrderItemCreate)
  : result (list OrderItemCreate) :=
  match l with
  | [] => Ok []
  | it :: rest =>
      let* q := validate_quantity (oi_quantity it) in
      let* rest' := validate_order_items rest in
      Ok (mkOrderItemCreate (oi_product_id it) q :: rest')
  end.

(** [validate_items]: [if not v] rejects the empty list. *)
Definition validate_items (v : list OrderItemCreate)
  : result (list OrderItemCreate) :=
  match v with
  | [] => Err (ValidationError OrderWithoutItems)
  | _ => Ok v
  end.

Definition OrderCreate_validate (raw : OrderCreate) : result OrderCreate :=
  let* items := validate_order_items (oc_items raw) in
  let* items' := validate_items items in
  Ok (mkOrderCreate (oc_user_id raw) (oc_address_id raw) items').

(** ** The session (SQLAlchemy [AsyncSession], [autoflush=False]) *)

(** What a session holds between two commits: the [Product] objects it has
    loaded, with their in-memory attribute changes ([identity_map]); the
    identifiers of the loaded products that were modified ([dirty]); the
    [Order] rows already flushed, that is inserted inside the open
    transaction ([new_orders]); the [OrderItem] objects added and not yet
    flushed ([new_items]).  The [DB] is the committed state, the only state
    other sessions see. *)
Record Session : Type := mkSession {
  identity_map : gmap UUID Product;
  dirty : gset UUID;
  new_orders : list (UUID * Order);
  new_items : list OrderItem
}.

Definition new_session : Session := mkSession ∅ ∅ [] [].

(** [session.get(Product, id)]: the object of the identity map when the
    product is loaded already, else the row of the datastore, which is then
    loaded. *)
Definition session_get (db : DB) (ses : Session) (product_id : UUID)
  : Session * option Product :=
  match identity_map ses !! product_id with
  | Some p => (ses, Some p)
  | None =>
      match products db !! product_id with
      | Some p =>
          (mkSession (<[product_id := p]> (identity_map ses)) (dirty ses)
                     (new_orders ses) (new_items ses),
           Some p)
      | None => (ses, None)
      end
  end.

(** [session.add(new_order); await session.flush()]: the INSERT is sent inside
    the transaction; the datastore checks the primary key and, when it checks
    foreign keys, the user and the address. *)
Definition order_constraints (db : DB) (oid : UUID) (o : Order) : bool :=
  bool_decide (orders db !! oid = None)
  && (negb (foreign_keys db)
      || (bool_decide (is_Some (users db !! order_user_id o))
          && bool_decide (is_Some (addresses db !! order_address_id o)))).

Definition session_add_order_flush (db : DB) (ses : Session) (oid : UUID)
    (o : Order) : Session * result unit :=
  if order_constraints db oid o
     && bool_decide (oid ∉ (new_orders ses).*1)
  then (mkSession (identity_map ses) (dirty ses)
                  (new_orders ses ++ [(oid, o)]) (new_items ses),
        Ok tt)
  else (ses, Err IntegrityError).

(** [session.rollback()]: the pending rows are dropped and the loaded objects
    are expired. *)
Definition session_rollback (ses : Session) : Session := new_session.

Definition item_key (it : OrderItem) : UUID * UUID :=
  (item_order_id it, item_product_id it).

(** The constraints the datastore checks when the pending rows are written. *)
Definition items_constraints (db : DB) (ses : Session) : bool :=
  bool_decide (NoDup (item_key <$> (order_items db ++ new_items ses)))
  && (negb (foreign_keys db)
      || forallb
           (fun it =>
              bool_decide (is_Some (products db !! item_product_id it))
              && (bool_decide (is_Some (orders db !! item_order_id it))
                  || bool_decide (item_order_id it ∈ (new_orders ses).*1)))
           (new_items ses)).

Definition orders_constraints (db : DB) (ses : Session) : bool :=
  bool_decide (NoDup (new_orders ses).*1)
  && forallb (fun io => order_constraints db io.1 io.2) (new_orders ses).

Definition dirty_rows_exist (db : DB) (ses : Session) : bool :=
  bool_decide (set_Forall (fun id => is_Some (products db !! id)) (dirty ses)).

(** The UPDATE of a modified product. [OrderRepository.create] modifies
    [count_in_warehouse] only, and only that column is written. *)
Definition flush_products (ses : Session) (rows : gmap UUID Product)
  : gmap UUID Product :=
  map_imap
    (fun id row =>
       Some (match identity_map ses !! id with
             | Some p =>
                 if bool_decide (id ∈ dirty ses)
                 then set_count_in_warehouse row (count_in_warehouse p)
                 else row
             | None => row
             end))
    rows.

(** [session.commit()]: flush, then commit.  A refused constraint raises and
    rolls the transaction back; nothing of it is written. With
    [expire_on_commit=False] the loaded objects stay as they are. *)
Definition session_commit (db : DB) (ses : Session)
  : DB * Session * result unit :=
  if negb (orders_constraints db ses && items_constraints db ses)
  then (db, session_rollback ses, Err IntegrityError)
  else if negb (dirty_rows_exist db ses)
  then (db, session_rollback ses, Err StaleDataError)
  else
    (mkDB (foreign_keys db) (users db) (addresses db)
          (flush_products ses (products db))
          (list_to_map (new_orders ses) ∪ orders db)
          (order_items db ++ new_items ses),
     mkSession (identity_map ses) ∅ [] [],
     Ok tt).

(** ** OrderRepository ([app/repositories/order_repository.py]) *)

(** One iteration of [for item in order_data.items].  [total_amount] is the
    local accumulator of the loop. *)
Definition process_item (db : DB) (order_id : UUID) (ses : Session)
    (total_amount : Decimal) (item : OrderItemCreate)
  : Session * result Decimal :=
  match session_get db ses (oi_product_id item) with
  | (ses1, None) =>
      (ses1, Err (ValueError (OrderProductNotFound (oi_product_id item))))
  | (ses1, Some product) =>
      if count_in_warehouse product <? oi_quantity item
      then (ses1, Err (ValueError
                         (NotEnoughStock (label product)
                            (count_in_warehouse product) (oi_quantity item))))
      else
        let order_item :=
          mkOrderItem order_id (oi_product_id item) (oi_quantity item)
                      (price product) in
        let total_amount' :=
          dec_add total_amount (dec_mul_int (price product) (oi_quantity item)) in
        let product' :=
          set_count_in_warehouse product
            (count_in_warehouse product - oi_quantity item) in
        (mkSession (<[oi_product_id item := product']> (identity_map ses1))
                   ({[oi_product_id item]} ∪ dirty ses1)
                   (new_orders ses1)
                   (new_items ses1 ++ [order_item]),
         Ok total_amount')
  end.

Fixpoint process_items (db : DB) (order_id : UUID) (ses : Session)
    (total_amount : Decimal) (items : list OrderItemCreate)
  : Session * result Decimal :=
  match items with
  | [] => (ses, Ok total_amount)
  | item :: rest =>
      match process_item db order_id ses total_amount item with
      | (ses', Ok total_amount') =>
          process_items db order_id ses' total_amount' rest
      | (ses', Err e) => (ses', Err e)
      end
  end.

(** The items of an order, as [session.refresh(new_order, ['items', ...])]
    loads them. *)
Definition items_of (db : DB) (order_id : UUID) : list OrderItem :=
  List.filter (fun it => bool_decide (item_order_id it = order_id))
              (order_items db).

(** What [create] returns: the order with its hydrated items. *)
Record OrderResult : Type := mkOrderResult {
  res_id : UUID;
  res_order : Order;
  res_items : list OrderItem
}.

(** [OrderRepository.create].  [new_id] is the [uuid4] default of the header.
    An exception leaves the function with the session as it is at that point:
    the function itself neither commits nor rolls back then. *)
Definition OrderRepository_create (new_id : UUID) (order_data : OrderCreate)
    (db : DB) (ses : Session) : DB * Session * result OrderResult :=
  let new_order :=
    mkOrder (oc_user_id order_data) (oc_address_id order_data) in
  match session_add_order_flush db ses new_id new_order with
  | (ses1, Err e) => (db, ses1, Err e)
  | (ses1, Ok _) =>
      match process_items db new_id ses1 (mkDecimal 0 (-2))
                          (oc_items order_data) with
      | (ses2, Err e) => (db, ses2, Err e)
      | (ses2, Ok total_amount) =>
          match session_commit db ses2 with
          | (db', ses3, Err e) => (db', ses3, Err e)
          | (db', ses3, Ok _) =>
              (db', ses3,
               Ok (mkOrderResult new_id new_order (items_of db' new_id)))
          end
      end
  end.

(** ** The unit of work of a request ([provide_db_session], [app/main.py]) *)

(** A fresh session is handed to the handler; when the handler returns, the
    session is committed; when it raises, the session is rolled back and the
    exception is replaced by an HTTP 500. *)
Definition provide_db_session {A}
    (handler : DB -> Session -> DB * Session * result A) (db : DB)
  : DB * result A :=
  match handler db new_session with
  | (db1, ses, Ok a) =>
      match session_commit db1 ses with
      | (db2, _, Ok _) => (db2, Ok a)
      | (db2, ses', Err e) =>
          let _ := session_rollback ses' in
          (db2, Err (HTTPException 500 e))
      end
  | (db1, ses, Err e) =>
      let _ := session_rollback ses in
      (db1, Err (HTTPException 500 e))
  end.

(** [createOrder]: the schema validation of the payload, then
    [OrderRepository.create] inside the unit of work of the request. *)
Definition createOrder (new_id : UUID) (raw : OrderCreate) (db : DB)
  : DB * result OrderResult :=
  match OrderCreate_validate raw with
  | Err e => (db, Err e)
  | Ok order_data =>
      provide_db_session (OrderRepository_create new_id order_data) db
  end.

(** ** Concurrent callers *)

(** [OrderRepository.create] is a coroutine: it may be suspended at each
    [await] (the flush of the header, each [session.get], the commit) and
    another caller, with a session of its own, may run in between.  A [Call]
    is one invocation; [call_step] runs it up to its next [await].  Each
    caller sees the committed rows only (no lock is taken anywhere: the
    source has no [with_for_update] and no conditional UPDATE). *)
Inductive Phase : Type :=
  | Started
  | InLoop (total_amount : Decimal) (todo : list OrderItemCreate)
  | Finished (r : result OrderResult).

Record Call : Type := mkCall {
  call_id : UUID;
  call_data : OrderCreate;
  call_session : Session;
  call_phase : Phase
}.

Definition start_call (new_id : UUID) (order_data : OrderCreate) : Call :=
  mkCall new_id order_data new_session Started.

Definition call_step (db : DB) (c : Call) : DB * Call :=
  let new_order :=
    mkOrder (oc_user_id (call_data c)) (oc_address_id (call_data c)) in
  let continue ses ph := mkCall (call_id c) (call_data c) ses ph in
  match call_phase c with
  | Started =>
      match session_add_order_flush db (call_session c) (call_id c) new_order with
      | (ses1, Err e) => (db, continue ses1 (Finished (Err e)))
      | (ses1, Ok _) =>
          (db, continue ses1 (InLoop (mkDecimal 0 (-2)) (oc_items (call_data c))))
      end
  | InLoop total_amount (item :: rest) =>
      match process_item db (call_id c) (call_session c) total_amount item with
      | (ses', Ok total_amount') => (db, continue ses' (InLoop total_amount' rest))
      | (ses', Err e) => (db, continue ses' (Finished (Err e)))
      end
  | InLoop total_amount [] =>
      match session_commit db (call_session c) with
      | (db', ses3, Err e) => (db', continue ses3 (Finished (Err e)))
      | (db', ses3, Ok _) =>
          (db', continue ses3
                  (Finished (Ok (mkOrderResult (call_id c) new_order
                                   (items_of db' (call_id c))))))
      end
  | Finished _ => (db, c)
  end.

Fixpoint run_call (fuel : nat) (db : DB) (c : Call) : DB * Call :=
  match fuel with
  | O => (db, c)
  | S n => let '(db', c') := call_step db c in run_call n db' c'
  end.

(** A schedule says which of two callers runs next ([true]: the first). *)
Fixpoint run_schedule (schedule : list bool) (db : DB) (a b : Call)
  : DB * Call * Call :=
  match schedule with
  | [] => (db, a, b)
  | true :: s => let '(db', a') := call_step db a in run_schedule s db' a' b
  | false :: s => let '(db', b') := call_step db b in run_schedule s db' a b'
  end.

Definition call_succeeded (c : Call) : bool :=
  match call_phase c with Finished (Ok _) => true | _ => false end.

Definition call_finished (c : Call) : bool :=
  match call_phase c with Finished _ => true | _ => false end.

(** ** Address schemas and AddressRepository
    ([app/schemas/address.py], [app/repositories/address_repository.py]) *)

Record AddressCreate : Type := mkAddressCreate {
  ac_user_id : UUID;
  ac_street : string;
  ac_city : string;
  ac_state : option string;
  ac_zip_code : string;
  ac_country : string;
  ac_is_primary : bool            (* defaults to [False] *)
}.

Record AddressUpdate : Type := mkAddressUpdate {
  au_street : option string;
  au_city : option string;
  au_state : option string;
  au_zip_code : option string;
  au_country : option string;
  au_is_primary : option bool
}.

Definition set_is_primary (a : Address) (b : bool) : Address :=
  mkAddress (address_user_id a) (street a) (city a) (state a) (zip_code a)
            (country a) b.

(** [Address.__table__.update().where(user_id == u).where(is_primary == True)
    .values(is_primary=False)], with [.where(id != except)] when [except] is
    given. *)
Definition clear_primary (user_id : UUID) (except : option UUID)
    (rows : gmap UUID Address) : gmap UUID Address :=
  map_imap
    (fun id a =>
       Some (if bool_decide (address_user_id a = user_id)
                && is_primary a
                && negb (bool_decide (except = Some id))
             then set_is_primary a false
             else a))
    rows.

(** [create]: the other primary addresses of the user are cleared, the row is
    added and the transaction is committed.  The datastore checks the primary
    key, the NOT NULL column [state] (the model declares
    [state: Mapped[str]], while the schema lets [None] through) and, when it
    checks foreign keys, the user; a refusal raises and nothing is written. *)
Definition AddressRepository_create (db : DB) (new_id : UUID)
    (address_data : AddressCreate) : DB * result (UUID * Address) :=
  let rows :=
    if ac_is_primary address_data
    then clear_primary (ac_user_id address_data) None (addresses db)
    else addresses db in
  let new_address :=
    mkAddress (ac_user_id address_data) (ac_street address_data)
              (ac_city address_data) (ac_state address_data)
              (ac_zip_code address_data) (ac_country address_data)
              (ac_is_primary address_data) in
  if bool_decide (addresses db !! new_id = None)
     && bool_decide (is_Some (ac_state address_data))
     && (negb (foreign_keys db)
         || bool_decide (is_Some (users db !! ac_user_id address_data)))
  then (set_addresses db (<[new_id := new_address]> rows),
        Ok (new_id, new_address))
  else (db, Err IntegrityError).

Definition apply_address_update (a : Address) (d : AddressUpdate) : Address :=
  mkAddress (address_user_id a)
            (default (street a) (au_street d))
            (default (city a) (au_city d))
            (match au_state d with Some v => Some v | None => state a end)
            (default (zip_code a) (au_zip_code d))
            (default (country a) (au_country d))
            (default (is_primary a) (au_is_primary d)).

Definition AddressRepository_update (db : DB) (address_id : UUID)
    (address_data : AddressUpdate) : DB * result Address :=
  match addresses db !! address_id with
  | None => (db, Err (ValueError (AddressWithIdNotFound address_id)))
  | Some address =>
      let rows :=
        match au_is_primary address_data with
        | Some true =>
            clear_primary (address_user_id address) (Some address_id)
                          (addresses db)
        | _ => addresses db
        end in
      let updated := apply_address_update address address_data in
      (set_addresses db (<[address_id := updated]> rows), Ok updated)
  end.

(** [select(func.count()).where(Order.address_id == address_id)] *)
Definition order_count (db : DB) (address_id : UUID) : Z :=
  Z.of_nat
    (size (filter (fun io => order_address_id io.2 = address_id) (orders db))).

Definition AddressRepository_delete (db : DB) (address_id : UUID)
  : DB * result unit :=
  match addresses db !! address_id with
  | None => (db, Err (ValueError (AddressWithIdNotFound address_id)))
  | Some address =>
      if 0 <? order_count db address_id
      then (db, Err (ValueError AddressUsedInOrders))
      else (set_addresses db (delete address_id (addresses db)), Ok tt)
  end.

(** ** User schemas, UserRepository and UserService
    ([app/schemas/user.py], [app/repositories/user_repository.py],
    [app/services/user_service.py]) *)

(** The body of an update request: the keys it may carry.  [email] is not a
    field of [UserUpdate]. *)
Record UserUpdatePayload : Type := mkUserUpdatePayload {
  payload_username : option string;
  payload_description : option string;
  payload_email : option string
}.

(** A [UserUpdate] object.  Its fields are [username] and [description];
    [uu_email] is the attribute [email] that an object built with
    [model_construct(email=...)] carries (as the service test builds one);
    it is [None] on every object that the schema validated. *)
Record UserUpdate : Type := mkUserUpdate {
  uu_username : option string;
  uu_description : option string;
  uu_email : option string
}.

Definition validate_username (v : option string) : result (option string) :=
  match v with
  | Some s =>
      if len s <? 3 then Err (ValidationError UsernameTooShortSchema)
      else Ok (Some s)
  | None => Ok None
  end.

(** Building a [UserUpdate] from the payload: keys that are not fields are
    ignored (the default of pydantic, extra = ignore). *)
Definition UserUpdate_validate (payload : UserUpdatePayload) : result UserUpdate :=
  let* u := validate_username (payload_username payload) in
  Ok (mkUserUpdate u (payload_description payload) None).

(** [model_dump(exclude_unset=True)] lists the fields of the schema, so only
    [username] and [description] are applied.  The commit checks the
    uniqueness of [username]. *)
Definition UserRepository_update (db : DB) (user_id : UUID)
    (user_data : UserUpdate) : DB * result User :=
  match users db !! user_id with
  | None => (db, Err (ValueError (UserWithIdNotFound user_id)))
  | Some user =>
      let updated :=
        mkUser (default (username user) (uu_username user_data))
               (email user)
               (match uu_description user_data with
                | Some d => Some d
                | None => description user
                end) in
      if bool_decide
           (map_Forall
              (fun id u => id = user_id \/ username u <> username updated)
              (users db))
      then (set_users db (<[user_id := updated]> (users db)), Ok updated)
      else (db, Err IntegrityError)
  end.

(** [session.delete(user)]: the relationships [addresses] and [orders] have no
    delete cascade, so the unit of work sets the foreign key of every child
    row to NULL, which the NOT NULL columns refuse. *)
Definition UserRepository_delete (db : DB) (user_id : UUID)
  : DB * result unit :=
  match users db !! user_id with
  | None => (db, Err (ValueError (UserWithIdNotFound user_id)))
  | Some user =>
      if bool_decide
           (map_Forall (fun _ a => address_user_id a <> user_id) (addresses db)
            /\ map_Forall (fun _ o => order_user_id o <> user_id) (orders db))
      then (set_users db (delete user_id (users db)), Ok tt)
      else (db, Err IntegrityError)
  end.

(** [user.orders]: the orders of the user. *)
Definition user_orders (db : DB) (user_id : UUID) : list (UUID * Order) :=
  map_to_list (filter (fun io => order_user_id io.2 = user_id) (orders db)).

Definition nonempty_string (s : string) : bool :=
  match s with EmptyString => false | _ => true end.

(** [UserService.update]: [if user_data.username and len(...) < 3] (an empty
    string is falsy), then
    [if hasattr(user_data, 'email') and user_data.email is not None]. *)
Definition UserService_update (db : DB) (user_id : UUID)
    (user_data : UserUpdate) : DB * result User :=
  if match uu_username user_data with
     | Some s => nonempty_string s && (len s <? 3)
     | None => false
     end
  then (db, Err (ValueError UsernameTooShortService))
  else
    match uu_email user_data with
    | Some _ => (db, Err (ValueError EmailCannotBeChanged))
    | None => UserRepository_update db user_id user_data
    end.

(** [UserService.delete]: [any(order for order in user.orders)]. *)
Definition UserService_delete (db : DB) (user_id : UUID) : DB * result unit :=
  match users db !! user_id with
  | None => (db, Err (ValueError (UserWithIdNotFound user_id)))
  | Some user =>
      match user_orders db user_id with
      | _ :: _ => (db, Err (ValueError UserHasOrders))
      | [] => UserRepository_delete db user_id
      end
  end.

(** An update request, as [UserController.update_user] receives it: the body
    is validated into a [UserUpdate], which is handed to the service.  The
    result is the one of the service; the translation of its [ValueError]
    into an HTTP error is not represented. *)
Definition update_user (db : DB) (user_id : UUID) (payload : UserUpdatePayload)
  : DB * result User :=
  match UserUpdate_validate payload with
  | Err e => (db, Err e)
  | Ok user_data => UserService_update db user_id user_data
  end.

(** ** ProductService ([app/services/product_service.py]), without a cache *)

Definition ProductService_create (db : DB) (new_id : UUID)
    (product_data : ProductCreate) : DB * result (UUID * Product) :=
  if len (pc_label product_data) <? 3
  then (db, Err (ValueError LabelTooShort))
  else if pc_count_in_package product_data <? 1
  then (db, Err (ValueError PackageCountTooSmall))
  else if pc_count_in_warehouse product_data <? 0
  then (db, Err (ValueError WarehouseCountNegative))
  else if dec_le_zero (pc_price product_data)
  then (db, Err (ValueError PriceNotPositive))
  else ProductRepository_create db new_id product_data.

Definition ProductService_update (db : DB) (product_id : UUID)
    (product_data : ProductUpdate) : DB * result Product :=
  match products db !! product_id with
  | None => (db, Err (ValueError (ProductWithIdNotFound product_id)))
  | Some _ =>
      if match pu_label product_data with
         | Some l => nonempty_string l && (len l <? 3)
         | None => false
         end
      then (db, Err (ValueError LabelTooShort))
      else if match pu_count_in_package product_data with
              | Some n => n <? 1
              | None => false
              end
      then (db, Err (ValueError PackageCountTooSmall))
      else if match pu_count_in_warehouse product_data with
              | Some n => n <? 0
              | None => false
              end
      then (db, Err (ValueError WarehouseCountNegative))
      else if match pu_price product_data with
              | Some p => dec_le_zero p
              | None => false
              end
      then (db, Err (ValueError PriceNotPositive))
      else ProductRepository_update db product_id product_data
  end.

Definition ProductService_update_stock (db : DB) (product_id : UUID)
    (quantity_change : Z) : DB * result Product :=
  ProductRepository_update_stock db product_id quantity_change.

(** ** The operations as a caller reaches them *)

(** A payload is validated by its schema and handed to the service. *)
Definition create_product (db : DB) (new_id : UUID) (raw : ProductCreate)
  : DB * result (UUID * Product) :=
  match ProductCreate_validate raw with
  | Err e => (db, Err e)
  | Ok product_data => ProductService_create db new_id product_data
  end.

Definition update_product (db : DB) (product_id : UUID) (raw : ProductUpdate)
  : DB * result Product :=
  match ProductUpdate_validate raw with
  | Err e => (db, Err e)
  | Ok product_data => ProductService_update db product_id product_data
  end.

Definition update_stock (db : DB) (product_id : UUID) (quantity_change : Z)
  : DB * result Product :=
  ProductService_update_stock db product_id quantity_change.

(** ** Notions used by the statements *)

(** [r] is [v] rounded to two fractional digits, a tie going to the even
    neighbour: [r] has exponent [-2] and its coefficient [n] is an integer
    nearest to [100 * v], the even one when two are as near. *)
Definition rounds_half_even_2dp (v r : Decimal) : Prop :=
  exponent r = -2 /\
  (Qabs (dec_value v * 100 - inject_Z (coefficient r)) <= 1 # 2)%Q /\
  ((Qabs (dec_value v * 100 - inject_Z (coefficient r)) == 1 # 2)%Q ->
   Z.even (coefficient r) = true).

(** A decimal that [quantize] leaves as it is. *)
Definition quantized (d : Decimal) : Prop :=
  exponent d = -2 /\ Z.abs (coefficient d) < 10 ^ 28.

(** The product as the session sees it: what [session.get] returns. *)
Definition current_product (db : DB) (ses : Session) (product_id : UUID)
  : option Product :=
  (session_get db ses product_id).2.

(** The quantity that the lines of [items] ask of a product, all lines that
    mention it taken together. *)
Fixpoint requested (product_id : UUID) (items : list OrderItemCreate) : Z :=
  match items with
  | [] => 0
  | it :: rest =>
      (if bool_decide (oi_product_id it = product_id) then oi_quantity it else 0)
      + requested product_id rest
  end.

(** The line [item], coming after the lines [pre] of the same call, fails:
    its product is not in the datastore, or it asks for more than what the
    lines before it have left. *)
Definition line_fails (db : DB) (pre : list OrderItemCreate)
    (item : OrderItemCreate) : Prop :=
  match products db !! oi_product_id item with
  | None => True
  | Some p =>
      count_in_warehouse p - requested (oi_product_id item) pre
      < oi_quantity item
  end.

(** The row that a line becomes, priced at [p]. *)
Definition order_item_of (order_id : UUID) (p : Decimal)
    (line : OrderItemCreate) : OrderItem :=
  mkOrderItem order_id (oi_product_id line) (oi_quantity line) p.

(** Modelled from the spec: the total of an order computed at read time.  The
    source declares [OrderResponse.total_amount] but has no function that
    computes it; the specification defines it as the sum over the items of
    the order of [quantity * unit_price], recomputed from the item rows.  The
    sum is taken as the loop of [OrderRepository.create] takes it: from
    [Decimal('0.00')], adding [unit_price * quantity] row after row. *)
Definition order_total (db : DB) (order_id : UUID) : Decimal :=
  foldl (fun acc it => dec_add acc (dec_mul_int (unit_price it) (quantity it)))
        (mkDecimal 0 (-2)) (items_of db order_id).

(** Every [OrderItem] row belongs to an [Order] row (the foreign key
    [order_items.order_id]). *)
Definition items_have_orders (db : DB) : Prop :=
  Forall (fun it => is_Some (orders db !! item_order_id it)) (order_items db).

(** ** A small datastore for the examples *)

(** The scenario of the specification: the user alice with one address, the
    product Widget (price 10.00, stock 100) and a second product Gadget
    (price 15.50, stock 5). *)
Definition example_db : DB :=
  mkDB true
       {[ 1%N := mkUser "alice" "alice@example.com" None ]}
       {[ 1%N := mkAddress 1%N "123 Test St" "Test City" (Some "CA") "12345"
                           "USA" true ]}
       {[ 1%N := mkProduct "Widget" 1 100 (mkDecimal 1000 (-2));
          2%N := mkProduct "Gadget" 1 5 (mkDecimal 1550 (-2)) ]}
       ∅ [].


(** The operations that write [count_in_warehouse], as a caller sends them. *)
Inductive Operation : Type :=
  | CreateProduct (new_id : UUID) (raw : ProductCreate)
  | UpdateProduct (product_id : UUID) (raw : ProductUpdate)
  | UpdateStock (product_id : UUID) (quantity_change : Z)
  | CreateOrder (new_id : UUID) (raw : OrderCreate).

Definition outcome {A} (r : DB * result A) : DB * option Error :=
  (r.1, match r.2 with Ok _ => None | Err e => Some e end).

Definition run_operation (db : DB) (op : Operation) : DB * option Error :=
  match op with
  | CreateProduct new_id raw => outcome (create_product db new_id raw)
  | UpdateProduct product_id raw => outcome (update_product db product_id raw)
  | UpdateStock product_id change => outcome (update_stock db product_id change)
  | CreateOrder new_id raw => outcome (createOrder new_id raw db)
  end.

Fixpoint run_operations (db : DB) (ops : list Operation) : DB :=
  match ops with
  | [] => db
  | op :: rest => run_operations (run_operation db op).1 rest
  end.

(** No product has a negative stock. *)
Definition stock_nonneg (db : DB) : Prop :=
  map_Forall (fun _ p => 0 <= count_in_warehouse p) (products db).

(** Among the addresses of [user_id], at most one is primary. *)
Definition at_most_one_primary (rows : gmap UUID Address) (user_id : UUID)
  : Prop :=
  forall id1 a1 id2 a2,
    rows !! id1 = Some a1 -> rows !! id2 = Some a2 ->
    address_user_id a1 = user_id -> address_user_id a2 = user_id ->
    is_primary a1 = true -> is_primary a2 = true ->
    id1 = id2.

(** The address [written] of [user_id] has been written as primary: it is
    primary, no other address of the user is, and apart from the flag cleared
    on the other addresses of the user every other row is as before. *)
Definition written_as_sole_primary (before after : gmap UUID Address)
    (user_id written : UUID) : Prop :=
  (exists a, after !! written = Some a /\ address_user_id a = user_id /\
             is_primary a = true) /\
  (forall id a, after !! id = Some a -> address_user_id a = user_id ->
                is_primary a = true -> id = written) /\
  (forall id, id <> written ->
     after !! id
     = (fun a => if bool_decide (address_user_id a = user_id)
                 then set_is_primary a false else a) <$> before !! id).

(** [example_db] after the order of the scenario: three Widgets for alice. *)
Definition example_db_with_order : DB :=
  mkDB true
       {[ 1%N := mkUser "alice" "alice@example.com" None ]}
       {[ 1%N := mkAddress 1%N "123 Test St" "Test City" (Some "CA") "12345"
                           "USA" true ]}
       {[ 1%N := mkProduct "Widget" 1 97 (mkDecimal 1000 (-2));
          2%N := mkProduct "Gadget" 1 5 (mkDecimal 1550 (-2)) ]}
       {[ 7%N := mkOrder 1%N 1%N ]}
       [mkOrderItem 7%N 1%N 3 (mkDecimal 1000 (-2))].

(** ** Two callers and one product *)

(** The scenario of the specification: a product with a stock of 10 and two
    calls that each ask for 6 of it. *)
Definition contended_db : DB :=
  mkDB true
       {[ 1%N := mkUser "alice" "alice@example.com" None ]}
       {[ 1%N := mkAddress 1%N "123 Test St" "Test City" (Some "CA") "12345"
                           "USA" true ]}
       {[ 1%N := mkProduct "Widget" 1 10 (mkDecimal 1000 (-2)) ]}
       ∅ [].

Definition first_call : Call :=
  start_call 7%N (mkOrderCreate 1%N 1%N [mkOrderItemCreate 1%N 6]).

Definition second_call : Call :=
  start_call 8%N (mkOrderCreate 1%N 1%N [mkOrderItemCreate 1%N 6]).

Definition stock_of (db : DB) (product_id : UUID) : option Z :=
  count_in_warehouse <$> products db !! product_id.

(** The quantity of a product that the persisted order items hand out. *)
Definition granted (db : DB) (product_id : UUID) : Z :=
  foldr (fun it acc =>
           if bool_decide (item_product_id it = product_id)
           then quantity it + acc else acc)
        0 (order_items db).

(** The datastore and the two calls, and one step of one of them. *)
Definition Config : Type := DB * Call * Call.

Definition step (who : bool) (c : Config) : Config :=
  let '(db, a, b) := c in
  if who
  then let '(db', a') := call_step db a in (db', a', b)
  else let '(db', b') := call_step db b in (db', a, b').

#[global] Instance Product_eq_dec : EqDecision Product.
Proof. solve_decision. Defined.
#[global] Instance User_eq_dec : EqDecision User.
Proof. solve_decision. Defined.
#[global] Instance Address_eq_dec : EqDecision Address.
Proof. solve_decision. Defined.
#[global] Instance Order_eq_dec : EqDecision Order.
Proof. solve_decision. Defined.
#[global] Instance OrderItem_eq_dec : EqDecision OrderItem.
Proof. solve_decision. Defined.
#[global] Instance DB_eq_dec : EqDecision DB.
Proof. solve_decision. Defined.
#[global] Instance Session_eq_dec : EqDecision Session.
Proof. solve_decision. Defined.
#[global] Instance OrderItemCreate_eq_dec : EqDecision OrderItemCreate.
Proof. solve_decision. Defined.
#[global] Instance OrderCreate_eq_dec : EqDecision OrderCreate.
Proof. solve_decision. Defined.
#[global] Instance OrderResult_eq_dec : EqDecision OrderResult.
Proof. solve_decision. Defined.
#[global] Instance Message_eq_dec : EqDecision Message.
Proof. solve_decision. Defined.
#[global] Instance Error_eq_dec : EqDecision Error.
Proof. solve_decision. Defined.
#[global] Instance result_eq_dec {A} `{EqDecision A} : EqDecision (result A).
Proof. solve_decision. Defined.
#[global] Instance Phase_eq_dec : EqDecision Phase.
Proof. solve_decision. Defined.
#[global] Instance Call_eq_dec : EqDecision Call.
Proof. solve_decision. Defined.

(** The configurations that the steps of the two calls can reach, found by
    exploring both steps from every configuration found so far. *)
Fixpoint explore (fuel : nat) (seen frontier : list Config) : list Config :=
  match fuel with
  | O => seen
  | S n =>
      let next := flat_map (fun c => [step true c; step false c]) frontier in
      let fresh := remove_dups (list_difference next seen) in
      match fresh with
      | [] => seen
      | _ => explore n (seen ++ fresh) fresh
      end
  end.

Definition reachable : list Config :=
  Eval vm_compute in
    explore 16 [(contended_db, first_call, second_call)]
               [(contended_db, first_call, second_call)].

(** What is observed of a configuration in the scenario: the stock is 10 or
    4, never negative, and it is 4 once both calls have finished, at least
    one of them with an order. *)
Definition observed (c : Config) : bool :=
  let '(db, a, b) := c in
  (bool_decide (stock_of db 1%N = Some 10)
   || bool_decide (stock_of db 1%N = Some 4))
  && (negb (call_finished a && call_finished b)
      || (bool_decide (stock_of db 1%N = Some 4)
          && (call_succeeded a || call_succeeded b))).

(** * The rest of the repositories, services and schemas *)

(** ** Exceptions of these functions *)

(** The messages that the functions below raise and that the functions above
    do not. *)
Inductive Detail : Type :=
  | InvalidEmailFormat      (* "Invalid email format" *)
  | CountOutOfRange         (* "Count must be between 1 and 100" *)
  | PageTooSmall            (* "Page must be greater than 0" *)
  | StreetEmpty             (* "Street cannot be empty" *)
  | StreetTooLong           (* "Street name is too long" *)
  | CityEmpty               (* "City cannot be empty" *)
  | CityTooLong             (* "City name is too long" *)
  | StateTooLong            (* "State name is too long" *)
  | ZipEmpty                (* "ZIP code cannot be empty" *)
  | ZipInvalid              (* "Invalid ZIP code format" *)
  | CountryEmpty            (* "Country cannot be empty" *)
  | CountryTooLong          (* "Country name is too long" *).

Inductive Exception : Type :=
  | Raised (e : Error)             (* an exception of the first part *)
  | ValueErrorOf (d : Detail)      (* raised by a service *)
  | ValidationErrorOf (d : Detail) (* pydantic: a field validator raised *).

Inductive answer (A : Type) : Type :=
  | Done (a : A)
  | Raise (x : Exception).
Arguments Done {A} a.
Arguments Raise {A} x.

Definition answer_of {A} (r : result A) : answer A :=
  match r with
  | Ok a => Done a
  | Err e => Raise (Raised e)
  end.

Definition and_then {A B} (r : answer A) (k : A -> answer B) : answer B :=
  match r with
  | Done a => k a
  | Raise x => Raise x
  end.

Notation "'let+' x ':=' r 'in' k" := (and_then r (fun x => k))
  (at level 10, x pattern, r at level 100, k at level 200).

(** ** Reads *)

(** A SELECT without ORDER BY returns the rows in the order in which the
    datastore scans the table; the scan order of a table is the order of
    [map_to_list]. *)
Definition scan {A} (table : gmap UUID A) : list (UUID * A) :=
  map_to_list table.

(** [OFFSET offset LIMIT count] on the rows of a query. *)
Definition offset_limit {A} (offset count : Z) (l : list A) : list A :=
  take (Z.to_nat count) (drop (Z.to_nat offset) l).

(** [offset = (page - 1) * count if page > 0 else 0] *)
Definition page_offset (count page : Z) : Z :=
  if 0 <? page then (page - 1) * count else 0.

(** [ProductRepository.get_by_id]: the product with its order items
    preloaded. *)
Definition ProductRepository_get_by_id (db : DB) (product_id : UUID)
  : option (Product * list OrderItem) :=
  match products db !! product_id with
  | Some p =>
      Some (p, List.filter
                 (fun it => bool_decide (item_product_id it = product_id))
                 (order_items db))
  | None => None
  end.

(** [ProductRepository.get_low_stock_products]: the products whose stock is
    at most [threshold], by increasing stock, [limit] of them at most
    ([limit] is a number of rows, a natural number).  The sort is a merge sort
    of the scanned rows; the datastore is free to order products of equal
    stock as it likes, and the statements below use only that the rows are
    sorted and are the selected ones. *)
Definition by_stock (a b : UUID * Product) : Prop :=
  count_in_warehouse a.2 <= count_in_warehouse b.2.

#[global] Instance by_stock_dec a b : Decision (by_stock a b).
Proof. unfold by_stock. apply _. Defined.

#[global] Instance by_stock_transitive : Transitive by_stock.
Proof. unfold by_stock. intros a b c. lia. Qed.

#[global] Instance by_stock_total : Total by_stock.
Proof. unfold by_stock. intros a b. lia. Qed.

Definition get_low_stock_products (db : DB) (threshold : Z) (limit : nat)
  : list (UUID * Product) :=
  take limit
    (merge_sort by_stock
       (filter (fun ip : UUID * Product => count_in_warehouse ip.2 <= threshold)
               (scan (products db)))).

(** [OrderRepository.get_by_id]: the order with its items, the product of
    each item, its address and its user, as the [selectinload] options
    load them. *)
Record LoadedOrder : Type := mkLoadedOrder {
  lo_id : UUID;
  lo_order : Order;
  lo_items : list (OrderItem * option Product);
  lo_address : option Address;
  lo_user : option User
}.

Definition OrderRepository_get_by_id (db : DB) (order_id : UUID)
  : option LoadedOrder :=
  match orders db !! order_id with
  | Some o =>
      Some (mkLoadedOrder order_id o
              (List.map (fun it => (it, products db !! item_product_id it))
                        (items_of db order_id))
              (addresses db !! order_address_id o)
              (users db !! order_user_id o))
  | None => None
  end.

(** [ProductService.delete] without a cache: the product is looked up, then
    the repository deletes it. *)
Definition ProductService_delete (db : DB) (product_id : UUID)
  : DB * result unit :=
  match products db !! product_id with
  | None => (db, Err (ValueError (ProductWithIdNotFound product_id)))
  | Some _ => ProductRepository_delete db product_id
  end.

(** ** Users *)

Record UserCreate : Type := mkUserCreate {
  uc_username : string;
  uc_email : string;
  uc_description : option string
}.

(** ["@" in s] *)
Fixpoint contains_at (s : string) : bool :=
  match s with
  | EmptyString => false
  | String c s' => (Ascii.eqb c "@"%char) || contains_at s'
  end.

(** [UserRepository.create]: the row is inserted and committed; the datastore
    checks the primary key and the uniqueness of [username] and [email]. *)
Definition UserRepository_create (db : DB) (new_id : UUID)
    (user_data : UserCreate) : DB * result (UUID * User) :=
  let new_user :=
    mkUser (uc_username user_data) (uc_email user_data)
           (uc_description user_data) in
  if bool_decide (users db !! new_id = None)
     && bool_decide
          (map_Forall
             (fun _ u => username u <> username new_user
                         /\ email u <> email new_user)
             (users db))
  then (set_users db (<[new_id := new_user]> (users db)), Ok (new_id, new_user))
  else (db, Err IntegrityError).

(** [UserService.create] *)
Definition UserService_create (db : DB) (new_id : UUID)
    (user_data : UserCreate) : DB * answer (UUID * User) :=
  if len (uc_username user_data) <? 3
  then (db, Raise (Raised (ValueError UsernameTooShortService)))
  else if negb (contains_at (uc_email user_data))
  then (db, Raise (ValueErrorOf InvalidEmailFormat))
  else
    let '(db', r) := UserRepository_create db new_id user_data in
    (db', answer_of r).

(** [UserRepository.get_by_id]: the user with the addresses and the orders
    that the [selectinload] options load. *)
Record LoadedUser : Type := mkLoadedUser {
  lu_id : UUID;
  lu_user : User;
  lu_addresses : list (UUID * Address);
  lu_orders : list (UUID * Order)
}.

Definition UserRepository_get_by_id (db : DB) (user_id : UUID)
  : option LoadedUser :=
  match users db !! user_id with
  | Some u =>
      Some (mkLoadedUser user_id u
              (scan (filter (fun ia : UUID * Address =>
                               address_user_id ia.2 = user_id) (addresses db)))
              (user_orders db user_id))
  | None => None
  end.

(** The keyword filters that [UserController.get_all_users] passes on:
    [username] and [email], each present only when the query gave a
    non-empty value ([if username:]). *)
Record UserFilters : Type := mkUserFilters {
  by_username : option string;
  by_email : option string
}.

Definition given (v : option string) : option string :=
  match v with
  | Some s => if nonempty_string s then Some s else None
  | None => None
  end.

Definition user_matches (f : UserFilters) (iu : UUID * User) : bool :=
  match by_username f with
  | Some s => bool_decide (username iu.2 = s)
  | None => true
  end
  && match by_email f with
     | Some s => bool_decide (email iu.2 = s)
     | None => true
     end.

(** [UserRepository.get_by_filter]: a [where] per filter whose value is not
    [None], then OFFSET and LIMIT.  The callers pass a [count] of 1 at least;
    for a negative one the conversion to a number of rows gives 0. *)
Definition UserRepository_get_by_filter (db : DB) (count page : Z)
    (f : UserFilters) : list (UUID * User) :=
  offset_limit (page_offset count page) count
    (List.filter (user_matches f) (scan (users db))).

(** [UserService.get_by_filter] *)
Definition UserService_get_by_filter (db : DB) (count page : Z)
    (f : UserFilters) : answer (list (UUID * User)) :=
  if (count <? 1) || (100 <? count)
  then Raise (ValueErrorOf CountOutOfRange)
  else if page <? 1
  then Raise (ValueErrorOf PageTooSmall)
  else Done (UserRepository_get_by_filter db count page f).

(** [UserController.get_all_users] *)
Definition get_all_users (db : DB) (count page : Z)
    (username email : option string) : answer (list (UUID * User)) :=
  UserService_get_by_filter db count page
    (mkUserFilters (given username) (given email)).

(** ** Addresses *)

(** [str.isalnum] on one character. *)
Definition is_alnum (c : ascii) : bool :=
  let n := Z.of_nat (nat_of_ascii c) in
  ((48 <=? n) && (n <=? 57)) || ((65 <=? n) && (n <=? 90))
  || ((97 <=? n) && (n <=? 122)) || (n =? 170)
  || ((178 <=? n) && (n <=? 179)) || (n =? 181)
  || ((185 <=? n) && (n <=? 186)) || ((188 <=? n) && (n <=? 190))
  || ((192 <=? n) && (n <=? 214)) || ((216 <=? n) && (n <=? 246))
  || ((248 <=? n) && (n <=? 255)).

(** The characters [c] of [s] with [c.isalnum()], joined by the empty
    string. *)
Fixpoint keep_alnum (s : string) : string :=
  match s with
  | EmptyString => EmptyString
  | String c s' => if is_alnum c then String c (keep_alnum s') else keep_alnum s'
  end.

(** The validators of [AddressBase] ([app/schemas/address.py]).  The length
    is checked on the value as given, the result is the stripped value. *)
Definition validate_text (empty too_long : Detail) (limit : Z) (v : string)
  : answer string :=
  if negb (nonempty_string (strip v)) then Raise (ValidationErrorOf empty)
  else if limit <? len v then Raise (ValidationErrorOf too_long)
  else Done (strip v).

Definition validate_street : string -> answer string :=
  validate_text StreetEmpty StreetTooLong 100.

Definition validate_city : string -> answer string :=
  validate_text CityEmpty CityTooLong 50.

Definition validate_country : string -> answer string :=
  validate_text CountryEmpty CountryTooLong 50.

Definition validate_state (v : option string) : answer (option string) :=
  match v with
  | None => Done None
  | Some s =>
      if negb (nonempty_string (strip s)) then Done None
      else if 50 <? len s then Raise (ValidationErrorOf StateTooLong)
      else Done (Some (strip s))
  end.

Definition validate_zip_code (v : string) : answer string :=
  if negb (nonempty_string (strip v)) then Raise (ValidationErrorOf ZipEmpty)
  else
    let cleaned := keep_alnum (strip v) in
    if (len cleaned <? 3) || (10 <? len cleaned)
    then Raise (ValidationErrorOf ZipInvalid)
    else Done cleaned.

(** Building an [AddressCreate]: the validators in the order of the fields.
    [validate_user_id] raises on a falsy value only, which a UUID never
    is. *)
Definition AddressCreate_validate (raw : AddressCreate) : answer AddressCreate :=
  let+ s := validate_street (ac_street raw) in
  let+ c := validate_city (ac_city raw) in
  let+ st := validate_state (ac_state raw) in
  let+ z := validate_zip_code (ac_zip_code raw) in
  let+ co := validate_country (ac_country raw) in
  Done (mkAddressCreate (ac_user_id raw) s c st z co (ac_is_primary raw)).

Definition validate_given {A} (f : A -> answer A) (v : option A)
  : answer (option A) :=
  match v with
  | None => Done None
  | Some x => let+ y := f x in Done (Some y)
  end.

(** Building an [AddressUpdate]: [state] and [is_primary] have no
    validator. *)
Definition AddressUpdate_validate (raw : AddressUpdate) : answer AddressUpdate :=
  let+ s := validate_given validate_street (au_street raw) in
  let+ c := validate_given validate_city (au_city raw) in
  let+ z := validate_given validate_zip_code (au_zip_code raw) in
  let+ co := validate_given validate_country (au_country raw) in
  Done (mkAddressUpdate s c (au_state raw) z co (au_is_primary raw)).

(** [AddressRepository.get_user_addresses]: the addresses of the user, only
    the primary ones unless [include_inactive], primary ones first
    ([order_by(Address.is_primary.desc())]). *)
Definition primary_first (a b : UUID * Address) : Prop :=
  is_primary b.2 = true -> is_primary a.2 = true.

#[global] Instance primary_first_dec a b : Decision (primary_first a b).
Proof. unfold primary_first. apply _. Defined.

#[global] Instance primary_first_transitive : Transitive primary_first.
Proof. unfold primary_first. intros a b c Hab Hbc Hc. auto. Qed.

#[global] Instance primary_first_total : Total primary_first.
Proof.
  unfold primary_first. intros a b.
  destruct (is_primary a.2); [left; auto | right; intros; discriminate].
Qed.

Definition AddressRepository_get_user_addresses (db : DB) (user_id : UUID)
    (include_inactive : bool) : list (UUID * Address) :=
  merge_sort primary_first
    (List.filter
       (fun ia : UUID * Address =>
          bool_decide (address_user_id ia.2 = user_id)
          && (include_inactive || is_primary ia.2))
       (scan (addresses db))).

(** ** ProductService with a cache
    ([app/services/product_service.py], [RedisCache] of [app/redis.py]) *)

(** The entries [product:<id>] of the cache.  An entry holds what
    [_serialize_product] keeps of a product and what [Product( **cached_data)]
    is built from: the columns of the row; the text [str(price)] and the
    decimal that it denotes are not told apart. *)
Abbreviation Cache := (gmap UUID Product).

Definition get_product (cache : Cache) (product_id : UUID) : option Product :=
  cache !! product_id.

(** [setex]: the entry is written, for ten minutes. *)
Definition set_product (cache : Cache) (product_id : UUID) (p : Product)
  : Cache :=
  <[product_id := p]> cache.

Definition delete_product (cache : Cache) (product_id : UUID) : Cache :=
  delete product_id cache.

(** What the passing of the ten minutes does to an entry. *)
Definition expire (cache : Cache) (product_id : UUID) : Cache :=
  delete product_id cache.

(** [ProductService.get_by_id] *)
Definition ProductService_get_by_id (db : DB) (cache : Cache)
    (product_id : UUID) : Cache * option Product :=
  match get_product cache product_id with
  | Some cached_data => (cache, Some cached_data)
  | None =>
      match ProductRepository_get_by_id db product_id with
      | Some (product, _) => (set_product cache product_id product, Some product)
      | None => (cache, None)
      end
  end.

(** [ProductService.create] with a cache: the checks and the repository as
    without one, then the new product is cached. *)
Definition ProductService_create_cached (db : DB) (cache : Cache)
    (new_id : UUID) (product_data : ProductCreate)
  : DB * Cache * result (UUID * Product) :=
  match ProductService_create db new_id product_data with
  | (db', Ok (id, product)) => (db', set_product cache id product, Ok (id, product))
  | (db', Err e) => (db', cache, Err e)
  end.

(** [ProductService.update] with a cache: the product is looked up through
    [get_by_id], the fields are checked, the repository updates the row and
    the cache entry is replaced. *)
Definition ProductService_update_cached (db : DB) (cache : Cache)
    (product_id : UUID) (product_data : ProductUpdate)
  : DB * Cache * result Product :=
  match ProductService_get_by_id db cache product_id with
  | (cache1, None) =>
      (db, cache1, Err (ValueError (ProductWithIdNotFound product_id)))
  | (cache1, Some _) =>
      if match pu_label product_data with
         | Some l => nonempty_string l && (len l <? 3)
         | None => false
         end
      then (db, cache1, Err (ValueError LabelTooShort))
      else if match pu_count_in_package product_data with
              | Some n => n <? 1
              | None => false
              end
      then (db, cache1, Err (ValueError PackageCountTooSmall))
      else if match pu_count_in_warehouse product_data with
              | Some n => n <? 0
              | None => false
              end
      then (db, cache1, Err (ValueError WarehouseCountNegative))
      else if match pu_price product_data with
              | Some p => dec_le_zero p
              | None => false
              end
      then (db, cache1, Err (ValueError PriceNotPositive))
      else
        match ProductRepository_update db product_id product_data with
        | (db', Ok updated) =>
            (db', set_product cache1 product_id updated, Ok updated)
        | (db', Err e) => (db', cache1, Err e)
        end
  end.

(** [ProductService.delete] with a cache *)
Definition ProductService_delete_cached (db : DB) (cache : Cache)
    (product_id : UUID) : DB * Cache * result unit :=
  match ProductService_get_by_id db cache product_id with
  | (cache1, None) =>
      (db, cache1, Err (ValueError (ProductWithIdNotFound product_id)))
  | (cache1, Some _) =>
      match ProductRepository_delete db product_id with
      | (db', Ok _) => (db', delete_product cache1 product_id, Ok tt)
      | (db', Err e) => (db', cache1, Err e)
      end
  end.

(** [ProductService.update_stock] with a cache *)
Definition ProductService_update_stock_cached (db : DB) (cache : Cache)
    (product_id : UUID) (quantity_change : Z) : DB * Cache * result Product :=
  match ProductRepository_update_stock db product_id quantity_change with
  | (db', Ok updated) => (db', set_product cache product_id updated, Ok updated)
  | (db', Err e) => (db', cache, Err e)
  end.

(** The calls on a service that has a cache, and the expiry of an entry. *)
Inductive CachedCall : Type :=
  | GetProduct (product_id : UUID)
  | CreateProductCached (new_id : UUID) (product_data : ProductCreate)
  | UpdateProductCached (product_id : UUID) (product_data : ProductUpdate)
  | UpdateStockCached (product_id : UUID) (quantity_change : Z)
  | DeleteProductCached (product_id : UUID)
  | EntryExpires (product_id : UUID).

Definition serve (db : DB) (cache : Cache) (call : CachedCall) : DB * Cache :=
  match call with
  | GetProduct product_id =>
      (db, (ProductService_get_by_id db cache product_id).1)
  | CreateProductCached new_id product_data =>
      (ProductService_create_cached db cache new_id product_data).1
  | UpdateProductCached product_id product_data =>
      (ProductService_update_cached db cache product_id product_data).1
  | UpdateStockCached product_id change =>
      (ProductService_update_stock_cached db cache product_id change).1
  | DeleteProductCached product_id =>
      (ProductService_delete_cached db cache product_id).1
  | EntryExpires product_id => (db, expire cache product_id)
  end.

Fixpoint serve_all (db : DB) (cache : Cache) (calls : list CachedCall)
  : DB * Cache :=
  match calls with
  | [] => (db, cache)
  | call :: rest =>
      let '(db', cache') := serve db cache call in serve_all db' cache' rest
  end.

(** ** Requests of every kind *)

(** The writes that a caller can ask for, each through the layers that the
    sources put in front of the repository.  A [CreateUserRequest] carries the
    [UserCreate] object that the service receives. *)
Inductive Request : Type :=
  | CreateProductRequest (new_id : UUID) (raw : ProductCreate)
  | UpdateProductRequest (product_id : UUID) (raw : ProductUpdate)
  | UpdateStockRequest (product_id : UUID) (quantity_change : Z)
  | DeleteProductRequest (product_id : UUID)
  | CreateOrderRequest (new_id : UUID) (raw : OrderCreate)
  | CreateAddressRequest (new_id : UUID) (raw : AddressCreate)
  | UpdateAddressRequest (address_id : UUID) (raw : AddressUpdate)
  | DeleteAddressRequest (address_id : UUID)
  | CreateUserRequest (new_id : UUID) (user_data : UserCreate)
  | UpdateUserRequest (user_id : UUID) (payload : UserUpdatePayload)
  | DeleteUserRequest (user_id : UUID).

Definition create_address (db : DB) (new_id : UUID) (raw : AddressCreate)
  : DB * answer (UUID * Address) :=
  match AddressCreate_validate raw with
  | Raise x => (db, Raise x)
  | Done address_data =>
      let '(db', r) := AddressRepository_create db new_id address_data in
      (db', answer_of r)
  end.

Definition update_address (db : DB) (address_id : UUID) (raw : AddressUpdate)
  : DB * answer Address :=
  match AddressUpdate_validate raw with
  | Raise x => (db, Raise x)
  | Done address_data =>
      let '(db', r) := AddressRepository_update db address_id address_data in
      (db', answer_of r)
  end.

Definition raised {A} (r : answer A) : option Exception :=
  match r with Done _ => None | Raise x => Some x end.

Definition raised_of {A} (r : result A) : option Exception :=
  raised (answer_of r).

Definition handle (db : DB) (req : Request) : DB * option Exception :=
  match req with
  | CreateProductRequest new_id raw =>
      let '(db', r) := create_product db new_id raw in (db', raised_of r)
  | UpdateProductRequest product_id raw =>
      let '(db', r) := update_product db product_id raw in (db', raised_of r)
  | UpdateStockRequest product_id change =>
      let '(db', r) := update_stock db product_id change in (db', raised_of r)
  | DeleteProductRequest product_id =>
      let '(db', r) := ProductService_delete db product_id in (db', raised_of r)
  | CreateOrderRequest new_id raw =>
      let '(db', r) := createOrder new_id raw db in (db', raised_of r)
  | CreateAddressRequest new_id raw =>
      let '(db', r) := create_address db new_id raw in (db', raised r)
  | UpdateAddressRequest address_id raw =>
      let '(db', r) := update_address db address_id raw in (db', raised r)
  | DeleteAddressRequest address_id =>
      let '(db', r) := AddressRepository_delete db address_id in
      (db', raised_of r)
  | CreateUserRequest new_id user_data =>
      let '(db', r) := UserService_create db new_id user_data in (db', raised r)
  | UpdateUserRequest user_id payload =>
      let '(db', r) := update_user db user_id payload in (db', raised_of r)
  | DeleteUserRequest user_id =>
      let '(db', r) := UserService_delete db user_id in (db', raised_of r)
  end.

Fixpoint handle_all (db : DB) (reqs : list Request) : DB :=
  match reqs with
  | [] => db
  | req :: rest => handle_all (handle db req).1 rest
  end.

(** ** Notions used by the statements of this part *)

(** A string without a space at its start, and without one at its end. *)
Definition starts_clean (s : string) : Prop :=
  match s with
  | EmptyString => True
  | String c _ => is_space c = false
  end.

Fixpoint ends_clean (s : string) : Prop :=
  match s with
  | EmptyString => True
  | String c EmptyString => is_space c = false
  | String _ s' => ends_clean s'
  end.

Fixpoint all_alnum (s : string) : Prop :=
  match s with
  | EmptyString => True
  | String c s' => is_alnum c = true /\ all_alnum s'
  end.

(** A product row as the schemas let one in: a stripped label of 3 to 100
    characters, 1 to 10000 units per package, and a price of two fractional
    digits above 0 and at most 1,000,000. *)
Definition valid_product (p : Product) : Prop :=
  strip (label p) = label p /\ 3 <= len (label p) <= 100 /\
  1 <= count_in_package p <= 10000 /\
  exponent (price p) = -2 /\ 0 < coefficient (price p) <= 100000000.

Definition valid_products (db : DB) : Prop :=
  map_Forall (fun _ p => valid_product p) (products db).

(** No two users share a username or an email (the two UNIQUE columns). *)
Definition users_unique (db : DB) : Prop :=
  forall id1 u1 id2 u2,
    users db !! id1 = Some u1 -> users db !! id2 = Some u2 ->
    username u1 = username u2 \/ email u1 = email u2 -> id1 = id2.

(** The order items have distinct keys, and each of them belongs to an order
    and names a product of the datastore. *)
Definition items_intact (db : DB) : Prop :=
  NoDup (item_key <$> order_items db) /\
  Forall (fun it => is_Some (orders db !! item_order_id it)
                    /\ is_Some (products db !! item_product_id it))
         (order_items db).

(** Every address has its user, every order its user and its address. *)
Definition references_intact (db : DB) : Prop :=
  map_Forall (fun _ a => is_Some (users db !! address_user_id a))
             (addresses db) /\
  map_Forall (fun _ o => is_Some (users db !! order_user_id o)
                         /\ is_Some (addresses db !! order_address_id o))
             (orders db).

(** Every entry of the cache is the row of its product. *)
Definition coherent (db : DB) (cache : Cache) : Prop :=
  forall product_id cached_data,
    cache !! product_id = Some cached_data ->
    products db !! product_id = Some cached_data.

(** An address row as the schemas let one in, [state] apart (an update
    writes the state that it is given): stripped street, city and country
    within their lengths, a ZIP code of 3 to 10 letters and digits. *)
Definition valid_address (a : Address) : Prop :=
  (strip (street a) = street a /\ 1 <= len (street a) <= 100) /\
  (strip (city a) = city a /\ 1 <= len (city a) <= 50) /\
  (all_alnum (zip_code a) /\ 3 <= len (zip_code a) <= 10) /\
  (strip (country a) = country a /\ 1 <= len (country a) <= 50).

Definition valid_addresses (db : DB) : Prop :=
  map_Forall (fun _ a => valid_address a) (addresses db).

(** * Properties *)

(** ** Decimal rounding *)

Lemma pow10_pos k : 0 <= k -> 0 < 10 ^ k.
Proof. intros. apply Z.pow_pos_nonneg; lia. Qed.

Lemma round_half_even_div_spec a D :
  0 <= a -> 0 < D ->
  let n := round_half_even_div a D in
  0 <= n /\ Z.abs (2 * a - 2 * n * D) <= D /\
  (Z.abs (2 * a - 2 * n * D) = D -> Z.even n = true).
Proof.
  intros Ha HD. unfold round_half_even_div. cbv zeta.
  pose proof (Z.div_mod a D ltac:(lia)) as Hdm.
  pose proof (Z.mod_pos_bound a D HD) as Hr.
  assert (0 <= a / D) as Hq by (apply Z.div_pos; lia).
  set (q := a / D) in *. set (r := a mod D) in *.
  destruct (D <? 2 * r) eqn:E1; simpl.
  - apply Z.ltb_lt in E1. split; [lia|]. split; [nia|]. intros H. exfalso. nia.
  - apply Z.ltb_ge in E1. destruct (2 * r =? D) eqn:E2; simpl.
    + apply Z.eqb_eq in E2. destruct (Z.odd q) eqn:E3.
      * split; [lia|]. split; [nia|]. intros _.
        rewrite Z.even_add. rewrite <- Z.negb_odd. rewrite E3. reflexivity.
      * split; [lia|]. split; [nia|]. intros _.
        rewrite <- Z.negb_odd. rewrite E3. reflexivity.
    + apply Z.eqb_neq in E2. split; [lia|]. split; [nia|]. intros H. exfalso. nia.
Qed.

Lemma quantize_coefficient_int d :
  let n := quantize_coefficient d in
  if -2 <=? exponent d
  then n = coefficient d * 10 ^ (exponent d + 2)
  else Z.abs (2 * coefficient d - 2 * n * 10 ^ (-2 - exponent d))
         <= 10 ^ (-2 - exponent d)
       /\ (Z.abs (2 * coefficient d - 2 * n * 10 ^ (-2 - exponent d))
           = 10 ^ (-2 - exponent d) -> Z.even n = true).
Proof.
  cbv zeta. unfold quantize_coefficient.
  destruct (-2 <=? exponent d) eqn:E; [reflexivity|].
  apply Z.leb_gt in E.
  assert (0 < 10 ^ (-2 - exponent d)) as HD by (apply pow10_pos; lia).
  destruct (round_half_even_div_spec (Z.abs (coefficient d)) _ (Z.abs_nonneg _) HD)
    as (Hn & Hle & Heven).
  set (n := round_half_even_div _ _) in *. set (D := 10 ^ _) in *.
  destruct (Z.sgn_spec (coefficient d)) as [[Hc Hs]|[[Hc Hs]|[Hc Hs]]]; rewrite Hs.
  - rewrite Z.mul_1_l. split; [lia|]. intros; apply Heven; lia.
  - rewrite Z.mul_0_l. split; [lia|]. intros; reflexivity.
  - replace (-1 * n) with (- n) by lia. rewrite Z.even_opp.
    split; [lia|]. intros; apply Heven; lia.
Qed.

Lemma quantize_rounds v r : quantize v = Ok r -> rounds_half_even_2dp v r.
Proof.
  unfold quantize. destruct (10 ^ 28 <=? _); [discriminate|].
  intros [= <-]. unfold rounds_half_even_2dp. simpl.
  split; [reflexivity|].
  pose proof (quantize_coefficient_int v) as H. cbv zeta in H.
  set (n := quantize_coefficient v) in *.
  unfold dec_value.
  destruct (0 <=? exponent v) eqn:E0.
  - apply Z.leb_le in E0.
    destruct (-2 <=? exponent v) eqn:E2; [|apply Z.leb_gt in E2; lia].
    rewrite Z.pow_add_r in H by lia. change (10 ^ 2) with 100 in H.
    set (c := coefficient v * 10 ^ exponent v) in *.
    assert (n = c * 100) as -> by (subst c; lia).
    unfold Qle, Qeq, Qabs, Qminus, Qplus, Qmult, Qopp, inject_Z.
    cbn [Qnum Qden]. split; [lia|]. intros Hq; exfalso; lia.
  - apply Z.leb_gt in E0.
    assert (0 < 10 ^ (- exponent v)) as HP by (apply pow10_pos; lia).
    unfold Qle, Qeq, Qabs, Qminus, Qplus, Qmult, Qopp, inject_Z.
    cbn [Qnum Qden]. rewrite !Pos.mul_1_r. rewrite Z2Pos.id by lia.
    destruct (-2 <=? exponent v) eqn:E2.
    + apply Z.leb_le in E2.
      assert (10 ^ (exponent v + 2) * 10 ^ (- exponent v) = 100) as Hm.
      { rewrite <- Z.pow_add_r by lia.
        replace (exponent v + 2 + - exponent v) with 2 by lia. reflexivity. }
      rewrite H.
      assert (coefficient v * 10 ^ (exponent v + 2) * 10 ^ (- exponent v)
              = coefficient v * 100) as Hc
        by (rewrite <- Z.mul_assoc, Hm; reflexivity).
      rewrite Z.mul_opp_l, Hc. split; [lia|]. intros Hq; exfalso; lia.
    + apply Z.leb_gt in E2. destruct H as [Hle Heven].
      assert (10 ^ (- exponent v) = 100 * 10 ^ (-2 - exponent v)) as HD.
      { replace (- exponent v) with (2 + (-2 - exponent v)) by lia.
        rewrite Z.pow_add_r by lia. reflexivity. }
      assert (0 < 10 ^ (-2 - exponent v)) as HD0 by (apply pow10_pos; lia).
      set (D := 10 ^ (-2 - exponent v)) in *. rewrite HD.
      split; [lia|]. intros Hq. apply Heven. lia.
Qed.


Lemma quantize_fixpoint r : quantized r -> quantize r = Ok r.
Proof.
  destruct r as [c e]. intros [He Hc]. simpl in *. subst e.
  unfold quantize, quantize_coefficient. simpl exponent. simpl coefficient.
  change (-2 <=? -2) with true. cbv iota. change (-2 + 2) with 0.
  rewrite Z.pow_0_r, Z.mul_1_r.
  destruct (10 ^ 28 <=? Z.abs c) eqn:E; [apply Z.leb_le in E; lia | reflexivity].
Qed.


(** ** Prices are stored rounded half to even *)

Lemma bind_ok {A B} (r : result A) (k : A -> result B) b :
  bind r k = Ok b -> exists a, r = Ok a /\ k a = Ok b.
Proof. destruct r; simpl; [eauto | discriminate]. Qed.

(** Peels the successful steps off a chain of binds in [H]. *)
Ltac unbind H :=
  repeat match type of H with
         | bind _ _ = Ok _ =>
             let x := fresh "x" in
             let Hx := fresh "Hx" in
             apply bind_ok in H as (x & Hx & H)
         end.

(** A payload that passes a schema passed each of its field validators. *)
Lemma ProductCreate_validate_ok raw d :
  ProductCreate_validate raw = Ok d ->
  validate_label (pc_label raw) = Ok (pc_label d) /\
  validate_package_count (pc_count_in_package raw) = Ok (pc_count_in_package d) /\
  validate_warehouse_count (pc_count_in_warehouse raw)
  = Ok (pc_count_in_warehouse d) /\
  validate_price (pc_price raw) = Ok (pc_price d).
Proof.
  unfold ProductCreate_validate. intros H. unbind H.
  injection H as <-. simpl. auto.
Qed.

Lemma ProductUpdate_validate_ok raw d :
  ProductUpdate_validate raw = Ok d ->
  validate_optional validate_label (pu_label raw) = Ok (pu_label d) /\
  validate_optional validate_package_count (pu_count_in_package raw)
  = Ok (pu_count_in_package d) /\
  validate_optional validate_warehouse_count (pu_count_in_warehouse raw)
  = Ok (pu_count_in_warehouse d) /\
  validate_optional validate_price (pu_price raw) = Ok (pu_price d).
Proof.
  unfold ProductUpdate_validate. intros H. unbind H.
  injection H as <-. simpl. auto.
Qed.

Lemma validate_optional_some {A} (f : A -> result A) x o :
  validate_optional f (Some x) = Ok o -> exists y, f x = Ok y /\ o = Some y.
Proof.
  unfold validate_optional. intros H. unbind H. injection H as <-. eauto.
Qed.

Lemma validate_price_quantize v q :
  validate_price v = Ok q -> quantize v = Ok q /\ dec_le_zero v = false.
Proof.
  unfold validate_price. destruct (dec_le_zero v); [discriminate|].
  destruct (dec_gt_int v 1000000); [discriminate|]. auto.
Qed.



Lemma ProductRepository_create_ok db new_id d db' id p :
  ProductRepository_create db new_id d = (db', Ok (id, p)) ->
  id = new_id /\ products db !! new_id = None /\
  quantize (pc_price d) = Ok (price p) /\
  p = mkProduct (pc_label d) (pc_count_in_package d) (pc_count_in_warehouse d) (price p) /\
  db' = set_products db (<[new_id := p]> (products db)).
Proof.
  unfold ProductRepository_create. intros H.
  repeat case_match; simplify_eq. simpl. auto.
Qed.

Lemma ProductService_create_ok db new_id d db' r :
  ProductService_create db new_id d = (db', Ok r) ->
  ProductRepository_create db new_id d = (db', Ok r).
Proof. unfold ProductService_create. intros H. repeat case_match; simplify_eq; auto. Qed.

Lemma ProductRepository_update_ok db pid d db' p :
  ProductRepository_update db pid d = (db', Ok p) ->
  exists old q,
    products db !! pid = Some old /\
    match pu_price d with
    | Some v => quantize v = Ok (price p) /\ q = Some (price p)
    | None => q = None
    end /\
    p = apply_product_update old (pu_label d) (pu_count_in_package d)
          (pu_count_in_warehouse d) q /\
    db' = set_products db (<[pid := p]> (products db)).
Proof.
  unfold ProductRepository_update. intros H.
  destruct (products db !! pid) as [old|] eqn:Hold; [|simplify_eq].
  destruct (pu_price d) as [v|] eqn:Hv.
  - destruct (dec_le_zero v); [simplify_eq|].
    destruct (quantize v) as [q|] eqn:Hq; simpl in H; [|simplify_eq].
    injection H as <- <-. exists old, (Some q). simpl. auto.
  - injection H as <- <-. exists old, None. auto.
Qed.

Lemma ProductService_update_ok db pid d db' p :
  ProductService_update db pid d = (db', Ok p) ->
  ProductRepository_update db pid d = (db', Ok p).
Proof. unfold ProductService_update. intros H. repeat case_match; simplify_eq; auto. Qed.


Lemma set_products_twice db m1 m2 :
  set_products (set_products db m1) m2 = set_products db m2.
Proof. reflexivity. Qed.



(** Rounding a decimal of at most 1,000,000 gives at most 1,000,000.00. *)
Lemma quantize_coefficient_bound v :
  0 < coefficient v -> dec_gt_int v 1000000 = false ->
  0 <= quantize_coefficient v <= 100000000.
Proof.
  intros Hpos Hle. unfold dec_gt_int in Hle. unfold quantize_coefficient.
  destruct (0 <=? exponent v) eqn:E0.
  - apply Z.leb_le in E0. apply Z.ltb_ge in Hle.
    destruct (-2 <=? exponent v) eqn:E2; [|apply Z.leb_gt in E2; lia].
    rewrite Z.pow_add_r by lia. change (10 ^ 2) with 100.
    assert (0 < 10 ^ exponent v) by (apply pow10_pos; lia). nia.
  - apply Z.leb_gt in E0. apply Z.ltb_ge in Hle.
    destruct (-2 <=? exponent v) eqn:E2.
    + apply Z.leb_le in E2.
      assert (10 ^ (exponent v + 2) * 10 ^ (- exponent v) = 100) as Hm.
      { rewrite <- Z.pow_add_r by lia.
        replace (exponent v + 2 + - exponent v) with 2 by lia. reflexivity. }
      assert (0 < 10 ^ (exponent v + 2)) by (apply pow10_pos; lia).
      assert (0 < 10 ^ (- exponent v)) by (apply pow10_pos; lia).
      nia.
    + apply Z.leb_gt in E2.
      assert (10 ^ (- exponent v) = 100 * 10 ^ (-2 - exponent v)) as HD.
      { replace (- exponent v) with (2 + (-2 - exponent v)) by lia.
        rewrite Z.pow_add_r by lia. reflexivity. }
      assert (0 < 10 ^ (-2 - exponent v)) as HD0 by (apply pow10_pos; lia).
      rewrite HD in Hle. set (D := 10 ^ (-2 - exponent v)) in *.
      rewrite Z.sgn_pos by lia. rewrite Z.abs_eq by lia. rewrite Z.mul_1_l.
      unfold round_half_even_div.
      pose proof (Z.div_mod (coefficient v) D ltac:(lia)) as Hdm.
      pose proof (Z.mod_pos_bound (coefficient v) D HD0) as Hr.
      assert (0 <= coefficient v / D) by (apply Z.div_pos; lia).
      set (q := coefficient v / D) in *. set (r := coefficient v mod D) in *.
      assert (q <= 100000000) by nia.
      destruct ((D <? 2 * r) || ((2 * r =? D) && Z.odd q)) eqn:Eup; [|lia].
      assert (0 < r).
      { apply orb_true_iff in Eup as [Eup|Eup].
        - apply Z.ltb_lt in Eup. lia.
        - apply andb_true_iff in Eup as [Eup _]. apply Z.eqb_eq in Eup. lia. }
      nia.
Qed.





(** ** Lines and the quantities they ask for *)

Lemma set_count_same p : set_count_in_warehouse p (count_in_warehouse p) = p.
Proof. destruct p; reflexivity. Qed.

Lemma requested_app pid l1 l2 :
  requested pid (l1 ++ l2) = requested pid l1 + requested pid l2.
Proof. induction l1 as [|x l1 IH]; simpl; [reflexivity | rewrite IH; lia]. Qed.

Lemma requested_not_mentioned pid items :
  ~ In pid (map oi_product_id items) -> requested pid items = 0.
Proof.
  induction items as [|x l IH]; simpl; [reflexivity|]. intros Hn.
  rewrite bool_decide_eq_false_2 by tauto. rewrite IH by tauto. reflexivity.
Qed.

Lemma last_mention pid items :
  In pid (map oi_product_id items) ->
  exists pre item post,
    items = pre ++ item :: post /\ oi_product_id item = pid /\
    ~ In pid (map oi_product_id post).
Proof.
  induction items as [|x l IH]; simpl; [tauto|]. intros Hin.
  destruct (in_dec N.eq_dec pid (map oi_product_id l)) as [Hl|Hl].
  - destruct (IH Hl) as (pre & it & post & -> & ? & ?).
    exists (x :: pre), it, post. auto.
  - exists [], x, l. simpl. destruct Hin as [Hx|Hin]; [auto | tauto].
Qed.

(** ** The loop of [OrderRepository.create] *)

Section OrderLoop.

(** The committed datastore that the call reads and the identifier of the
    order it is building. *)
Variable db : DB.
Variable order_id : UUID.

Lemma current_product_lookup ses pid :
  current_product db ses pid =
  match identity_map ses !! pid with
  | Some p => Some p
  | None => products db !! pid
  end.
Proof.
  unfold current_product, session_get.
  destruct (identity_map ses !! pid); [reflexivity|].
  destruct (products db !! pid); reflexivity.
Qed.

Lemma current_product_new_session pid :
  current_product db new_session pid = products db !! pid.
Proof. rewrite current_product_lookup. reflexivity. Qed.

(** Loading a product does not change what the session sees. *)
Lemma session_get_view ses pid pid' :
  current_product db (session_get db ses pid).1 pid' = current_product db ses pid'.
Proof.
  rewrite !current_product_lookup. unfold session_get.
  destruct (identity_map ses !! pid) eqn:E; [reflexivity|].
  destruct (products db !! pid) eqn:E'; [|reflexivity]. simpl.
  destruct (decide (pid = pid')) as [->|Hne].
  - rewrite lookup_insert_eq, E. symmetry. exact E'.
  - rewrite lookup_insert_ne by done. reflexivity.
Qed.

Lemma session_get_pending ses pid :
  new_items (session_get db ses pid).1 = new_items ses /\
  new_orders (session_get db ses pid).1 = new_orders ses /\
  dirty (session_get db ses pid).1 = dirty ses.
Proof. unfold session_get. repeat case_match; simpl; auto. Qed.

(** The three outcomes of one iteration. *)
Lemma process_item_cases ses total item :
  let pid := oi_product_id item in
  let q := oi_quantity item in
  let ses1 := (session_get db ses pid).1 in
  process_item db order_id ses total item =
  match current_product db ses pid with
  | None => (ses1, Err (ValueError (OrderProductNotFound pid)))
  | Some product =>
      if count_in_warehouse product <? q
      then (ses1, Err (ValueError (NotEnoughStock (label product)
                                     (count_in_warehouse product) q)))
      else (mkSession
              (<[pid := set_count_in_warehouse product
                          (count_in_warehouse product - q)]> (identity_map ses1))
              ({[pid]} ∪ dirty ses1) (new_orders ses1)
              (new_items ses1 ++ [order_item_of order_id (price product) item]),
            Ok (dec_add total (dec_mul_int (price product) q)))
  end.
Proof.
  cbv zeta. unfold process_item, current_product.
  destruct (session_get db ses (oi_product_id item)) as [ses1 [p|]]; reflexivity.
Qed.

Lemma process_item_ok ses total item ses' total' :
  process_item db order_id ses total item = (ses', Ok total') ->
  exists product,
    current_product db ses (oi_product_id item) = Some product /\
    oi_quantity item <= count_in_warehouse product /\
    total' = dec_add total (dec_mul_int (price product) (oi_quantity item)) /\
    new_items ses' = new_items ses ++ [order_item_of order_id (price product) item] /\
    new_orders ses' = new_orders ses /\
    (forall pid',
        current_product db ses' pid' =
        if decide (pid' = oi_product_id item)
        then Some (set_count_in_warehouse product
                     (count_in_warehouse product - oi_quantity item))
        else current_product db ses pid').
Proof.
  rewrite process_item_cases. cbv zeta.
  destruct (current_product db ses (oi_product_id item)) as [p|] eqn:Hp; [|discriminate].
  destruct (count_in_warehouse p <? oi_quantity item) eqn:Hq; [discriminate|].
  apply Z.ltb_ge in Hq. intros [= <- <-]. exists p.
  destruct (session_get_pending ses (oi_product_id item)) as (Hi & Ho & _).
  simpl. rewrite Hi, Ho. repeat split; auto.
  intros pid'. rewrite current_product_lookup. simpl.
  destruct (decide (pid' = oi_product_id item)) as [->|Hne].
  - rewrite lookup_insert_eq. reflexivity.
  - rewrite lookup_insert_ne by done.
    rewrite <- (session_get_view ses (oi_product_id item) pid').
    rewrite current_product_lookup. reflexivity.
Qed.

Lemma process_item_err ses total item ses' e :
  process_item db order_id ses total item = (ses', Err e) ->
  ses' = (session_get db ses (oi_product_id item)).1 /\
  match current_product db ses (oi_product_id item) with
  | None => e = ValueError (OrderProductNotFound (oi_product_id item))
  | Some product =>
      count_in_warehouse product < oi_quantity item /\
      e = ValueError (NotEnoughStock (label product)
                        (count_in_warehouse product) (oi_quantity item))
  end.
Proof.
  rewrite process_item_cases. cbv zeta.
  destruct (current_product db ses (oi_product_id item)) as [p|] eqn:Hp.
  - destruct (count_in_warehouse p <? oi_quantity item) eqn:Hq; [|discriminate].
    apply Z.ltb_lt in Hq. intros [= <- <-]. auto.
  - intros [= <- <-]. auto.
Qed.

(** C4.  One line of an order: the reservation reads the product as the
    session has it (its current stock and price); when the product exists it
    succeeds exactly when the stock covers the quantity; on success the stock
    goes down by exactly the quantity, an [OrderItem] priced at the current
    price is added and the other products are left alone; on failure the error
    names the product (by its label) with the available and the requested
    quantities, and nothing is reserved. *)
Theorem reservation_of_a_line ses total_amount item :
  let pid := oi_product_id item in
  let q := oi_quantity item in
  let r := process_item db order_id ses total_amount item in
  match current_product db ses pid with
  | None => r.2 = Err (ValueError (OrderProductNotFound pid))
  | Some product =>
      (is_ok r.2 = true <-> q <= count_in_warehouse product) /\
      (q <= count_in_warehouse product ->
         r.2 = Ok (dec_add total_amount (dec_mul_int (price product) q)) /\
         current_product db r.1 pid
           = Some (set_count_in_warehouse product (count_in_warehouse product - q)) /\
         new_items r.1
           = new_items ses ++ [mkOrderItem order_id pid q (price product)] /\
         (forall pid', pid' <> pid ->
            current_product db r.1 pid' = current_product db ses pid')) /\
      (count_in_warehouse product < q ->
         r.2 = Err (ValueError (NotEnoughStock (label product)
                                  (count_in_warehouse product) q)) /\
         new_items r.1 = new_items ses /\
         (forall pid', current_product db r.1 pid' = current_product db ses pid'))
  end.
Proof.
  cbv zeta.
  destruct (process_item db order_id ses total_amount item) as [ses' [t'|e]] eqn:H.
  - apply process_item_ok in H as (p & Hp & Hq & -> & Hi & _ & Hview).
    rewrite Hp. simpl. split; [split; auto|]. split.
    + intros _. split; [reflexivity|]. split.
      * rewrite Hview. rewrite decide_True by done. reflexivity.
      * split; [exact Hi|]. intros pid' Hne. rewrite Hview.
        rewrite decide_False by done. reflexivity.
    + intros Hlt. lia.
  - apply process_item_err in H as [-> Hc].
    destruct (current_product db ses (oi_product_id item)) as [p|] eqn:Hp.
    + destruct Hc as [Hlt ->]. simpl. split; [split; [discriminate|lia]|].
      split; [lia|]. intros _. split; [reflexivity|].
      split; [apply session_get_pending|]. intros pid'. apply session_get_view.
    + simpl. subst e. reflexivity.
Qed.

(** What a successful run of the loop has done. *)
Lemma process_items_ok items : forall ses total ses' total',
  process_items db order_id ses total items = (ses', Ok total') ->
  (forall pid,
      current_product db ses' pid =
      (fun p => set_count_in_warehouse p
                  (count_in_warehouse p - requested pid items))
        <$> current_product db ses pid) /\
  (forall pre item post, items = pre ++ item :: post ->
      exists p, current_product db ses (oi_product_id item) = Some p /\
                oi_quantity item
                <= count_in_warehouse p - requested (oi_product_id item) pre) /\
  new_orders ses' = new_orders ses /\
  exists rows,
    new_items ses' = new_items ses ++ rows /\
    Forall2 (fun line it =>
               exists p, current_product db ses (oi_product_id line) = Some p /\
                         it = order_item_of order_id (price p) line)
            items rows /\
    total' = foldl (fun acc it =>
                      dec_add acc (dec_mul_int (unit_price it) (quantity it)))
                   total rows.
Proof.
  induction items as [|item rest IH]; intros ses total ses' total' H; simpl in H.
  - injection H as <- <-. split.
    + intros pid. destruct (current_product db ses pid) as [p|]; simpl; [|reflexivity].
      rewrite Z.sub_0_r, set_count_same. reflexivity.
    + split; [intros [|? ?] ? ? ?; discriminate|]. split; [reflexivity|].
      exists []. rewrite app_nil_r. repeat split; constructor.
  - destruct (process_item db order_id ses total item) as [ses1 [t1|e]] eqn:H1;
      [|discriminate].
    apply process_item_ok in H1 as (p & Hp & Hq & -> & Hi & Ho & Hview).
    apply IH in H as (Hfinal & Hpre & Hords & rows & Hrows & Hall & Htot).
    split; [|split; [|split]].
    + intros pid. rewrite Hfinal, Hview. simpl.
      destruct (decide (pid = oi_product_id item)) as [->|Hne].
      * rewrite Hp. simpl. rewrite bool_decide_eq_true_2 by done.
        f_equal. unfold set_count_in_warehouse. simpl. f_equal. lia.
      * rewrite bool_decide_eq_false_2 by done.
        destruct (current_product db ses pid); simpl; [|reflexivity].
        do 2 f_equal.
    + intros pre it post Heq. destruct pre as [|x pre]; simpl in Heq.
      * injection Heq as <- <-. exists p. simpl. split; [exact Hp | lia].
      * injection Heq as <- ->. destruct (Hpre _ _ _ eq_refl) as (p' & Hp' & Hq').
        rewrite Hview in Hp'. simpl.
        destruct (decide (oi_product_id it = oi_product_id item)) as [Heqp|Hne].
        -- injection Hp' as <-. rewrite Heqp. exists p.
           rewrite bool_decide_eq_true_2 by done. split; [exact Hp|].
           rewrite Heqp in Hq'. simpl in Hq'. lia.
        -- exists p'. rewrite bool_decide_eq_false_2 by done.
           split; [exact Hp' | lia].
    + congruence.
    + exists (order_item_of order_id (price p) item :: rows).
      split; [rewrite Hrows, Hi, <- app_assoc; reflexivity|].
      split.
      * constructor; [exists p; auto|].
        eapply Forall2_impl; [exact Hall|]. simpl.
        intros line it (p' & Hp' & ->). rewrite Hview in Hp'.
        destruct (decide (oi_product_id line = oi_product_id item)) as [Heqp|Hne].
        -- injection Hp' as <-. exists p. rewrite Heqp. auto.
        -- exists p'. auto.
      * simpl. exact Htot.
Qed.

(** C10.  Inside one call, a line that mentions a product again is checked
    against the stock left by the earlier lines of the call, so the lines that
    the loop accepts for a product never ask, together, for more than its
    stock at the start. *)
Theorem duplicate_lines_draw_on_the_running_count
    ses total_amount items ses' total_amount' product_id product :
  process_items db order_id ses total_amount items = (ses', Ok total_amount') ->
  current_product db ses product_id = Some product ->
  (forall pre item post,
      items = pre ++ item :: post -> oi_product_id item = product_id ->
      oi_quantity item
      <= count_in_warehouse product - requested product_id pre) /\
  current_product db ses' product_id
  = Some (set_count_in_warehouse product
            (count_in_warehouse product - requested product_id items)) /\
  (In product_id (map oi_product_id items) ->
   requested product_id items <= count_in_warehouse product).
Proof.
  intros H Hp. apply process_items_ok in H as (Hfinal & Hpre & _).
  split; [|split].
  - intros pre item post Heq Hpid. destruct (Hpre _ _ _ Heq) as (p & Hp' & Hq).
    rewrite Hpid, Hp in Hp'. injection Hp' as <-. rewrite Hpid in Hq. exact Hq.
  - rewrite Hfinal, Hp. reflexivity.
  - intros Hin. apply last_mention in Hin as (pre & it & post & Heq & Hit & Hlast).
    destruct (Hpre _ _ _ Heq) as (p & Hp' & Hq).
    rewrite Hit, Hp in Hp'. injection Hp' as <-. rewrite Hit in Hq.
    rewrite Heq, requested_app. simpl.
    rewrite bool_decide_eq_true_2 by done.
    rewrite (requested_not_mentioned _ _ Hlast). lia.
Qed.

End OrderLoop.

(** ** Flush and commit *)

Lemma session_add_order_flush_ok db ses oid o ses1 :
  session_add_order_flush db ses oid o = (ses1, Ok tt) ->
  orders db !! oid = None /\
  ses1 = mkSession (identity_map ses) (dirty ses) (new_orders ses ++ [(oid, o)])
                   (new_items ses).
Proof.
  unfold session_add_order_flush, order_constraints.
  destruct (bool_decide (orders db !! oid = None)) eqn:E; simpl; [|discriminate].
  apply bool_decide_eq_true_1 in E.
  destruct (_ && _); [|discriminate]. intros [= <-]. auto.
Qed.

Lemma session_commit_err db ses db' ses' e :
  session_commit db ses = (db', ses', Err e) -> db' = db.
Proof.
  unfold session_commit. repeat case_match; intros [= <- <- <-]; reflexivity.
Qed.

Lemma session_commit_ok db ses db' ses' u :
  session_commit db ses = (db', ses', Ok u) ->
  orders_constraints db ses = true /\ items_constraints db ses = true /\
  dirty_rows_exist db ses = true /\
  db' = mkDB (foreign_keys db) (users db) (addresses db)
             (flush_products ses (products db))
             (list_to_map (new_orders ses) ∪ orders db)
             (order_items db ++ new_items ses) /\
  ses' = mkSession (identity_map ses) ∅ [] [].
Proof.
  unfold session_commit.
  destruct (orders_constraints db ses); [|discriminate].
  destruct (items_constraints db ses); [|discriminate].
  destruct (dirty_rows_exist db ses); [|discriminate].
  simpl. intros [= <- <-]. auto.
Qed.

Lemma flush_products_lookup ses rows id :
  flush_products ses rows !! id =
  (fun row => match identity_map ses !! id with
              | Some p => if bool_decide (id ∈ dirty ses)
                          then set_count_in_warehouse row (count_in_warehouse p)
                          else row
              | None => row
              end) <$> rows !! id.
Proof.
  unfold flush_products. rewrite map_lookup_imap.
  destruct (rows !! id); reflexivity.
Qed.

Lemma flush_products_clean ses rows :
  dirty ses = ∅ -> flush_products ses rows = rows.
Proof.
  intros Hd. apply map_eq. intros id. rewrite flush_products_lookup, Hd.
  destruct (rows !! id) as [row|]; simpl; [|reflexivity].
  destruct (identity_map ses !! id); [|reflexivity].
  rewrite bool_decide_eq_false_2 by set_solver. reflexivity.
Qed.

(** Committing a session that has just been committed changes nothing. *)
Lemma session_commit_twice db ses db' ses' u :
  session_commit db ses = (db', ses', Ok u) ->
  session_commit db' ses' = (db', ses', Ok tt).
Proof.
  intros H. apply session_commit_ok in H as (_ & Hitems & _ & -> & ->).
  unfold session_commit, orders_constraints, items_constraints, dirty_rows_exist.
  simpl. rewrite app_nil_r.
  unfold items_constraints in Hitems. apply andb_true_iff in Hitems as [Hnd _].
  rewrite Hnd. rewrite orb_true_r.
  rewrite bool_decide_eq_true_2 by (intros x Hx; set_solver).
  simpl. rewrite flush_products_clean by reflexivity.
  rewrite (left_id_L ∅ (∪)). reflexivity.
Qed.

(** ** [OrderRepository.create] and [createOrder] *)

Lemma validate_order_items_ok l l' : validate_order_items l = Ok l' -> l' = l.
Proof.
  revert l'. induction l as [|[pid q] l IH]; simpl; intros l' H.
  - congruence.
  - unfold validate_quantity in H. destruct (q <? 1); [discriminate|]. simpl in H.
    destruct (validate_order_items l) as [r|]; [|discriminate]. simpl in H.
    injection H as <-. f_equal. apply IH. reflexivity.
Qed.

Lemma OrderCreate_validate_ok raw order_data :
  OrderCreate_validate raw = Ok order_data -> order_data = raw.
Proof.
  unfold OrderCreate_validate. intros H. unbind H. injection H as <-.
  apply validate_order_items_ok in Hx as ->.
  unfold validate_items in Hx0. destruct raw as [u a [|i l]]; simpl in *; congruence.
Qed.

(** The steps of a call that returned an order. *)
Lemma OrderRepository_create_ok new_id order_data db ses db' ses' res :
  OrderRepository_create new_id order_data db ses = (db', ses', Ok res) ->
  exists ses1 ses2 total,
    session_add_order_flush db ses new_id
      (mkOrder (oc_user_id order_data) (oc_address_id order_data)) = (ses1, Ok tt) /\
    process_items db new_id ses1 (mkDecimal 0 (-2)) (oc_items order_data)
      = (ses2, Ok total) /\
    session_commit db ses2 = (db', ses', Ok tt) /\
    res = mkOrderResult new_id
            (mkOrder (oc_user_id order_data) (oc_address_id order_data))
            (items_of db' new_id).
Proof.
  unfold OrderRepository_create.
  destruct (session_add_order_flush _ _ _ _) as [ses1 [[]|e]] eqn:H1; [|discriminate].
  destruct (process_items _ _ _ _ _) as [ses2 [total|e]] eqn:H2; [|discriminate].
  destruct (session_commit db ses2) as [[db1 ses3] [[]|e]] eqn:H3; [|discriminate].
  intros [= <- <- <-]. exists ses1, ses2, total. auto.
Qed.

(** A call that raised has written nothing. *)
Lemma OrderRepository_create_err new_id order_data db ses db' ses' e :
  OrderRepository_create new_id order_data db ses = (db', ses', Err e) -> db' = db.
Proof.
  unfold OrderRepository_create.
  destruct (session_add_order_flush _ _ _ _) as [ses1 [[]|e1]];
    [|intros [= <- <- <-]; reflexivity].
  destruct (process_items _ _ _ _ _) as [ses2 [total|e2]];
    [|intros [= <- <- <-]; reflexivity].
  destruct (session_commit db ses2) as [[db1 ses3] [[]|e3]] eqn:Hc; [discriminate|].
  intros [= <- <- <-]. eapply session_commit_err, Hc.
Qed.

Lemma provide_db_session_err {A}
    (handler : DB -> Session -> DB * Session * result A) db db' e :
  (forall d s d' s' e', handler d s = (d', s', Err e') -> d' = d) ->
  (forall d s d' s' a, handler d s = (d', s', Ok a) ->
                       session_commit d' s' = (d', s', Ok tt)) ->
  provide_db_session handler db = (db', Err e) -> db' = db.
Proof.
  intros Herr Hok. unfold provide_db_session.
  destruct (handler db new_session) as [[db1 ses] [a|e1]] eqn:H.
  - rewrite (Hok _ _ _ _ _ H). discriminate.
  - intros [= <- <-]. eapply Herr, H.
Qed.

Lemma OrderRepository_create_committed new_id order_data db ses db' ses' res :
  OrderRepository_create new_id order_data db ses = (db', ses', Ok res) ->
  session_commit db' ses' = (db', ses', Ok tt).
Proof.
  intros H. apply OrderRepository_create_ok in H as (? & ? & ? & _ & _ & Hc & _).
  eapply session_commit_twice, Hc.
Qed.

Lemma createOrder_ok new_id raw db db' res :
  createOrder new_id raw db = (db', Ok res) ->
  exists ses',
    OrderCreate_validate raw = Ok raw /\
    OrderRepository_create new_id raw db new_session = (db', ses', Ok res).
Proof.
  unfold createOrder.
  destruct (OrderCreate_validate raw) as [d|] eqn:Hv; [|discriminate].
  pose proof (OrderCreate_validate_ok _ _ Hv) as ->.
  unfold provide_db_session.
  destruct (OrderRepository_create _ _ _ _) as [[db1 ses] [a|e1]] eqn:H;
    [|discriminate].
  rewrite (OrderRepository_create_committed _ _ _ _ _ _ _ H).
  intros [= <- <-]. eauto.
Qed.

(** Whatever the reason of the failure, a failed [createOrder] leaves the
    datastore as it was. *)
Lemma createOrder_err new_id raw db db' e :
  createOrder new_id raw db = (db', Err e) -> db' = db.
Proof.
  unfold createOrder.
  destruct (OrderCreate_validate raw) as [d|]; [|intros [= <- <-]; reflexivity].
  apply provide_db_session_err.
  - intros. eapply OrderRepository_create_err; eauto.
  - intros. eapply OrderRepository_create_committed; eauto.
Qed.

(** A call with a failing line ends with an error and has written nothing. *)
Lemma createOrder_fails_on_failing_line new_id raw db pre item post :
  oc_items raw = pre ++ item :: post ->
  line_fails db pre item ->
  exists e, createOrder new_id raw db = (db, Err e).
Proof.
  intros Hitems Hfail.
  destruct (createOrder new_id raw db) as [db' [res|e]] eqn:H.
  - exfalso. apply createOrder_ok in H as (ses' & _ & H).
    apply OrderRepository_create_ok in H as (ses1 & ses2 & total & Hf & Hloop & _).
    apply session_add_order_flush_ok in Hf as [_ ->].
    apply process_items_ok in Hloop as (_ & Hpre & _).
    destruct (Hpre _ _ _ Hitems) as (p & Hp & Hq).
    rewrite current_product_lookup in Hp. simpl in Hp.
    rewrite lookup_empty in Hp.
    unfold line_fails in Hfail. rewrite Hp in Hfail. lia.
  - exists e. apply createOrder_err in H as ->. reflexivity.
Qed.

(** C1.  When a line of a [createOrder] call fails (its product is missing,
    or it asks for more than the earlier lines have left), the call ends with
    an error and the datastore is the one before the call: no order header,
    no order item, no stock taken, also for the lines that had succeeded. *)
Theorem failed_line_rolls_the_order_back new_id raw db pre item post :
  oc_items raw = pre ++ item :: post ->
  line_fails db pre item ->
  exists e, createOrder new_id raw db = (db, Err e).
Proof. apply createOrder_fails_on_failing_line. Qed.

(** Three Widgets out of 100 are reserved at 10.00 each; 999999 Gadgets out
    of 5 are refused. *)
Lemma reservation_of_a_line_example :
  let r := process_item example_db 7%N new_session (mkDecimal 0 (-2))
             (mkOrderItemCreate 1%N 3) in
  r.2 = Ok (mkDecimal 3000 (-2)) /\
  current_product example_db r.1 1%N
  = Some (mkProduct "Widget" 1 97 (mkDecimal 1000 (-2))) /\
  new_items r.1 = [mkOrderItem 7%N 1%N 3 (mkDecimal 1000 (-2))] /\
  (process_item example_db 7%N new_session (mkDecimal 0 (-2))
     (mkOrderItemCreate 2%N 999999)).2
  = Err (ValueError (NotEnoughStock "Gadget" 5 999999)).
Proof.
  pose proof (reservation_of_a_line example_db 7%N new_session
                (mkDecimal 0 (-2)) (mkOrderItemCreate 1%N 3)) as H1.
  pose proof (reservation_of_a_line example_db 7%N new_session
                (mkDecimal 0 (-2)) (mkOrderItemCreate 2%N 999999)) as H2.
  cbv zeta in H1, H2.
  change (current_product example_db new_session
            (oi_product_id (mkOrderItemCreate 1%N 3)))
    with (Some (mkProduct "Widget" 1 100 (mkDecimal 1000 (-2)))) in H1.
  change (current_product example_db new_session
            (oi_product_id (mkOrderItemCreate 2%N 999999)))
    with (Some (mkProduct "Gadget" 1 5 (mkDecimal 1550 (-2)))) in H2.
  destruct H1 as (_ & H1 & _). destruct H2 as (_ & _ & H2).
  destruct (H1 ltac:(simpl; lia)) as (Ha & Hb & Hc & _).
  destruct (H2 ltac:(simpl; lia)) as (Hd & _).
  cbv zeta. repeat split; assumption.
Defined.

(** Two lines for the Widget, 60 and then 40, use up its stock of 100; with
    41 in the second line the check sees the 40 that are left. *)
Lemma duplicate_lines_draw_on_the_running_count_witness :
  (forall pre item post,
      [mkOrderItemCreate 1%N 60; mkOrderItemCreate 2%N 1;
       mkOrderItemCreate 1%N 40] = pre ++ item :: post ->
      oi_product_id item = 1%N ->
      oi_quantity item <= 100 - requested 1%N pre) /\
  current_product example_db
    (process_items example_db 7%N new_session (mkDecimal 0 (-2))
       [mkOrderItemCreate 1%N 60; mkOrderItemCreate 2%N 1;
        mkOrderItemCreate 1%N 40]).1 1%N
  = Some (mkProduct "Widget" 1 0 (mkDecimal 1000 (-2))) /\
  (process_items example_db 7%N new_session (mkDecimal 0 (-2))
     [mkOrderItemCreate 1%N 60; mkOrderItemCreate 2%N 1;
      mkOrderItemCreate 1%N 41]).2
  = Err (ValueError (NotEnoughStock "Widget" 40 41)).
Proof.
  destruct (process_items example_db 7%N new_session (mkDecimal 0 (-2))
              [mkOrderItemCreate 1%N 60; mkOrderItemCreate 2%N 1;
               mkOrderItemCreate 1%N 40]) as [ses' r] eqn:Hrun.
  assert (r = Ok (mkDecimal 101550 (-2))) as ->.
  { apply (f_equal snd) in Hrun. vm_compute in Hrun. symmetry. exact Hrun. }
  destruct (duplicate_lines_draw_on_the_running_count example_db 7%N new_session
              (mkDecimal 0 (-2))
              [mkOrderItemCreate 1%N 60; mkOrderItemCreate 2%N 1;
               mkOrderItemCreate 1%N 40]
              ses' (mkDecimal 101550 (-2)) 1%N
              (mkProduct "Widget" 1 100 (mkDecimal 1000 (-2)))
              Hrun eq_refl) as (Hpre & Hfinal & _).
  split; [exact Hpre|]. split; [exact Hfinal|]. vm_compute. reflexivity.
Defined.

(** The atomicity scenario of the specification: two Widgets, then 999999
    Gadgets of which there are 5. *)
Lemma failed_line_rolls_the_order_back_witness :
  (exists e,
      createOrder 7%N
        (mkOrderCreate 1%N 1%N
           [mkOrderItemCreate 1%N 2; mkOrderItemCreate 2%N 999999]) example_db
      = (example_db, Err e)) /\
  createOrder 7%N
    (mkOrderCreate 1%N 1%N
       [mkOrderItemCreate 1%N 2; mkOrderItemCreate 2%N 999999]) example_db
  = (example_db,
     Err (HTTPException 500 (ValueError (NotEnoughStock "Gadget" 5 999999)))).
Proof.
  split.
  - apply (failed_line_rolls_the_order_back 7%N
             (mkOrderCreate 1%N 1%N
                [mkOrderItemCreate 1%N 2; mkOrderItemCreate 2%N 999999])
             example_db [mkOrderItemCreate 1%N 2]
             (mkOrderItemCreate 2%N 999999) []).
    + reflexivity.
    + vm_compute. reflexivity.
  - vm_compute. reflexivity.
Defined.

(** ** Orders keep their total *)





Lemma filter_all {A} (f : A -> bool) l :
  Forall (fun x => f x = true) l -> List.filter f l = l.
Proof. induction 1 as [|x l Hx _ IH]; simpl; [reflexivity|]. rewrite Hx, IH. reflexivity. Qed.

Lemma filter_none {A} (f : A -> bool) l :
  Forall (fun x => f x = false) l -> List.filter f l = [].
Proof. induction 1 as [|x l Hx _ IH]; simpl; [reflexivity|]. rewrite Hx, IH. reflexivity. Qed.

(** The rows of a new order are the rows that its lines became. *)
Lemma OrderRepository_create_rows new_id order_data db db1 ses1 res :
  items_have_orders db ->
  OrderRepository_create new_id order_data db new_session = (db1, ses1, Ok res) ->
  exists ses0 ses2 rows,
    process_items db new_id ses0 (mkDecimal 0 (-2)) (oc_items order_data)
    = (ses2, Ok (order_total db1 new_id)) /\
    order_items db1 = order_items db ++ rows /\
    items_of db1 new_id = rows /\
    res_items res = rows /\
    Forall2 (fun line it =>
               exists p, products db !! oi_product_id line = Some p /\
                         it = order_item_of new_id (price p) line)
            (oc_items order_data) rows.
Proof.
  intros Hfk H.
  apply OrderRepository_create_ok in H as (ses0 & ses2 & total & Hf & Hloop & Hc & ->).
  apply session_add_order_flush_ok in Hf as [Hfresh ->].
  pose proof Hloop as Hloop'.
  apply process_items_ok in Hloop' as (_ & _ & _ & rows & Hrows & Hall & Htot).
  apply session_commit_ok in Hc as (_ & _ & _ & -> & _).
  simpl in Hrows. rewrite Hrows.
  assert (items_of
            (mkDB (foreign_keys db) (users db) (addresses db)
                  (flush_products ses2 (products db))
                  (list_to_map (new_orders ses2) ∪ orders db)
                  (order_items db ++ rows)) new_id = rows) as Hitems.
  { unfold items_of. simpl. rewrite List.filter_app.
    rewrite filter_none, filter_all; [reflexivity| |].
    - clear -Hall. induction Hall as [|line it ? ? (p & _ & ->) _ IH]; constructor; auto.
      simpl. apply bool_decide_eq_true_2. reflexivity.
    - eapply Forall_impl; [exact Hfk|]. simpl. intros it [o Ho].
      apply bool_decide_eq_false_2. intros Heq. rewrite Heq in Ho. congruence. }
  eexists _, ses2, rows.
  split.
  { rewrite Hloop. do 2 f_equal. unfold order_total. rewrite Hitems. exact Htot. }
  split; [reflexivity|]. split; [exact Hitems|]. split; [exact Hitems|].
  eapply Forall2_impl; [exact Hall|]. simpl.
  intros line it (p & Hp & ->). exists p. split; [|reflexivity].
  rewrite current_product_lookup in Hp. simpl in Hp.
  rewrite lookup_empty in Hp. exact Hp.
Qed.



(** The scenario of the specification: alice orders three Widgets. *)
Lemma scenario_three_widgets :
  createOrder 7%N (mkOrderCreate 1%N 1%N [mkOrderItemCreate 1%N 3]) example_db
  = (example_db_with_order,
     Ok (mkOrderResult 7%N (mkOrder 1%N 1%N)
           [mkOrderItem 7%N 1%N 3 (mkDecimal 1000 (-2))])).
Proof. vm_compute. reflexivity. Qed.

(** The foreign key of the order items is kept by every order creation. *)
Lemma createOrder_items_have_orders new_id raw db :
  items_have_orders db -> items_have_orders (createOrder new_id raw db).1.
Proof.
  intros Hfk. destruct (createOrder new_id raw db) as [db' [res|e]] eqn:H.
  - apply createOrder_ok in H as (ses' & _ & H). simpl.
    pose proof H as Hrows.
    apply (OrderRepository_create_rows _ _ _ _ _ _ Hfk) in Hrows
      as (_ & _ & rows & _ & Hitems & _ & _ & Hall).
    apply OrderRepository_create_ok in H as (ses1 & ses2 & total & Hf & Hloop & Hc & _).
    apply session_add_order_flush_ok in Hf as [_ ->].
    apply process_items_ok in Hloop as (_ & _ & Hords & _).
    apply session_commit_ok in Hc as (_ & _ & _ & Hdb & _).
    unfold items_have_orders. rewrite Hitems. apply Forall_app. split.
    + eapply Forall_impl; [exact Hfk|]. simpl. intros it [o Ho].
      rewrite Hdb. simpl. 
      destruct ((list_to_map (new_orders ses2) : gmap UUID Order) !! item_order_id it) as [o'|] eqn:E.
      * exists o'. apply lookup_union_Some_l. exact E.
      * exists o. rewrite lookup_union_r by exact E. exact Ho.
    + assert (Forall (fun it => item_order_id it = new_id) rows) as Hids.
      { clear -Hall. induction Hall as [|line it ? ? (p & _ & ->) _ IH];
          constructor; auto. }
      eapply Forall_impl; [exact Hids|]. simpl. intros it ->.
      rewrite Hdb. simpl. rewrite Hords. simpl.
      exists (mkOrder (oc_user_id raw) (oc_address_id raw)).
      apply lookup_union_Some_l. rewrite lookup_insert_eq. reflexivity.
  - apply createOrder_err in H as ->. exact Hfk.
Qed.

(** ** The stock is never negative *)

Lemma stock_nonneg_insert db pid p :
  stock_nonneg db -> 0 <= count_in_warehouse p ->
  stock_nonneg (set_products db (<[pid := p]> (products db))).
Proof. intros Hdb Hp. unfold stock_nonneg. simpl. apply map_Forall_insert_2; assumption. Qed.

Lemma validate_warehouse_count_ok v n : validate_warehouse_count v = Ok n -> n = v /\ 0 <= n.
Proof.
  unfold validate_warehouse_count. destruct (v <? 0) eqn:E; [discriminate|].
  apply Z.ltb_ge in E. intros [= <-]. auto.
Qed.

Lemma ProductCreate_validate_count raw d :
  ProductCreate_validate raw = Ok d -> 0 <= pc_count_in_warehouse d.
Proof.
  intros H. apply ProductCreate_validate_ok in H as (_ & _ & Hcw & _).
  apply validate_warehouse_count_ok in Hcw. tauto.
Qed.

Lemma ProductUpdate_validate_count raw d :
  ProductUpdate_validate raw = Ok d ->
  match pu_count_in_warehouse d with Some n => 0 <= n | None => True end.
Proof.
  intros H. apply ProductUpdate_validate_ok in H as (_ & _ & Hcw & _).
  destruct (pu_count_in_warehouse raw) as [v|].
  - apply validate_optional_some in Hcw as (n & Hn & ->).
    apply validate_warehouse_count_ok in Hn. tauto.
  - simpl in Hcw. injection Hcw as <-. exact I.
Qed.

Lemma create_product_stock db new_id raw :
  stock_nonneg db -> stock_nonneg (create_product db new_id raw).1.
Proof.
  intros Hdb. destruct (create_product db new_id raw) as [db' [[id p]|e]] eqn:H.
  - unfold create_product in H.
    destruct (ProductCreate_validate raw) as [d|] eqn:Hd; [|discriminate].
    apply ProductCreate_validate_count in Hd.
    apply ProductService_create_ok, ProductRepository_create_ok in H
      as (-> & _ & _ & Hp & ->).
    apply stock_nonneg_insert; [exact Hdb|]. rewrite Hp. exact Hd.
  - unfold create_product, ProductService_create, ProductRepository_create in H.
    repeat case_match; simplify_eq; exact Hdb.
Qed.

Lemma create_product_err db new_id raw db' e :
  create_product db new_id raw = (db', Err e) -> db' = db.
Proof.
  unfold create_product, ProductService_create, ProductRepository_create.
  intros H. repeat case_match; simplify_eq; reflexivity.
Qed.

Lemma ProductRepository_update_err db pid d db' e :
  ProductRepository_update db pid d = (db', Err e) -> db' = db.
Proof.
  unfold ProductRepository_update. intros H.
  repeat case_match; simplify_eq; reflexivity.
Qed.

Lemma update_product_err db pid raw db' e :
  update_product db pid raw = (db', Err e) -> db' = db.
Proof.
  unfold update_product, ProductService_update. intros H.
  repeat case_match; simplify_eq; try reflexivity;
    eapply ProductRepository_update_err; eauto.
Qed.

Lemma update_product_stock db pid raw :
  stock_nonneg db -> stock_nonneg (update_product db pid raw).1.
Proof.
  intros Hdb. destruct (update_product db pid raw) as [db' [p|e]] eqn:H.
  - unfold update_product in H.
    destruct (ProductUpdate_validate raw) as [d|] eqn:Hd; [|discriminate].
    apply ProductUpdate_validate_count in Hd.
    apply ProductService_update_ok, ProductRepository_update_ok in H
      as (old & q & Hold & _ & -> & ->).
    apply stock_nonneg_insert; [exact Hdb|]. simpl.
    destruct (pu_count_in_warehouse d); simpl; [exact Hd|].
    exact (Hdb _ _ Hold).
  - apply update_product_err in H as ->. exact Hdb.
Qed.

Lemma update_stock_cases db pid change :
  update_stock db pid change =
  match products db !! pid with
  | None => (db, Err (ValueError (ProductWithIdNotFound pid)))
  | Some product =>
      if count_in_warehouse product + change <? 0
      then (db, Err (ValueError (InsufficientStock (count_in_warehouse product) change)))
      else (set_products db
              (<[pid := set_count_in_warehouse product
                          (count_in_warehouse product + change)]> (products db)),
            Ok (set_count_in_warehouse product (count_in_warehouse product + change)))
  end.
Proof. reflexivity. Qed.

Lemma update_stock_err db pid change db' e :
  update_stock db pid change = (db', Err e) -> db' = db.
Proof.
  rewrite update_stock_cases. intros H. repeat case_match; simplify_eq; reflexivity.
Qed.

Lemma update_stock_stock db pid change :
  stock_nonneg db -> stock_nonneg (update_stock db pid change).1.
Proof.
  intros Hdb. rewrite update_stock_cases.
  destruct (products db !! pid) as [p|]; [|exact Hdb].
  destruct (count_in_warehouse p + change <? 0) eqn:E; [exact Hdb|].
  apply Z.ltb_ge in E. simpl. apply stock_nonneg_insert; [exact Hdb | exact E].
Qed.

Lemma createOrder_stock new_id raw db :
  stock_nonneg db -> stock_nonneg (createOrder new_id raw db).1.
Proof.
  intros Hdb. destruct (createOrder new_id raw db) as [db' [res|e]] eqn:H.
  - apply createOrder_ok in H as (ses' & _ & H).
    apply OrderRepository_create_ok in H as (ses1 & ses2 & total & Hf & Hloop & Hc & _).
    apply session_add_order_flush_ok in Hf as [_ ->].
    apply process_items_ok in Hloop as (Hfinal & Hpre & _).
    apply session_commit_ok in Hc as (_ & _ & _ & -> & _).
    unfold stock_nonneg. simpl. intros id row' Hrow'.
    rewrite flush_products_lookup in Hrow'.
    destruct (products db !! id) as [row|] eqn:Hrow; [|discriminate].
    simpl in Hrow'. injection Hrow' as <-.
    pose proof (Hdb _ _ Hrow) as Hnn. simpl in Hnn.
    destruct (identity_map ses2 !! id) as [p|] eqn:Hp; [|exact Hnn].
    destruct (bool_decide (id ∈ dirty ses2)); [|exact Hnn].
    simpl. specialize (Hfinal id).
    rewrite !current_product_lookup in Hfinal. simpl in Hfinal.
    rewrite Hp, lookup_empty, Hrow in Hfinal. simpl in Hfinal.
    injection Hfinal as ->. simpl.
    destruct (in_dec N.eq_dec id (map oi_product_id (oc_items raw))) as [Hin|Hnin].
    + apply last_mention in Hin as (pre & it & post & Heq & Hit & Hlast).
      destruct (Hpre _ _ _ Heq) as (p0 & Hp0 & Hq).
      rewrite current_product_lookup in Hp0. simpl in Hp0.
      rewrite lookup_empty, Hit, Hrow in Hp0. injection Hp0 as <-.
      rewrite Heq, requested_app. simpl.
      rewrite bool_decide_eq_true_2 by done.
      rewrite (requested_not_mentioned _ _ Hlast). rewrite Hit in Hq. lia.
    + rewrite (requested_not_mentioned _ _ Hnin). lia.
  - apply createOrder_err in H as ->. exact Hdb.
Qed.

Lemma run_operation_stock db op :
  stock_nonneg db -> stock_nonneg (run_operation db op).1.
Proof.
  destruct op; simpl.
  - apply create_product_stock.
  - apply update_product_stock.
  - apply update_stock_stock.
  - apply createOrder_stock.
Qed.

Lemma outcome_err {A} (r : DB * result A) db' e :
  outcome r = (db', Some e) -> r = (db', Err e).
Proof. destruct r as [d [a|e']]; unfold outcome; simpl; intros [= <- <-]; reflexivity. Qed.

Lemma run_operation_err db op db' e :
  run_operation db op = (db', Some e) -> db' = db.
Proof.
  destruct op; simpl; intros H; apply outcome_err in H.
  - eapply create_product_err, H.
  - eapply update_product_err, H.
  - eapply update_stock_err, H.
  - eapply createOrder_err, H.
Qed.

(** C3.  Starting from a datastore without a negative stock, no sequence of
    product creations, product updates, stock updates and order creations
    reaches a state with a negative stock (every prefix of the sequence is a
    sequence, so this holds in every state on the way).  A rejected operation
    leaves the datastore as it was, and the operations that would make a stock
    negative are rejected: a stock update below zero, a product created or
    updated with a negative count, an order with a line that asks for more
    than what is left. *)
Theorem stock_never_negative db ops :
  stock_nonneg db ->
  stock_nonneg (run_operations db ops) /\
  (forall op db' e, run_operation db op = (db', Some e) -> db' = db) /\
  (forall product_id product change,
      products db !! product_id = Some product ->
      count_in_warehouse product + change < 0 ->
      update_stock db product_id change
      = (db, Err (ValueError (InsufficientStock (count_in_warehouse product)
                                change)))) /\
  (forall new_id raw,
      pc_count_in_warehouse raw < 0 ->
      exists e, create_product db new_id raw = (db, Err e)) /\
  (forall product_id raw n,
      pu_count_in_warehouse raw = Some n -> n < 0 ->
      exists e, update_product db product_id raw = (db, Err e)) /\
  (forall new_id raw pre item post,
      oc_items raw = pre ++ item :: post -> line_fails db pre item ->
      exists e, createOrder new_id raw db = (db, Err e)).
Proof.
  intros Hdb. split; [|split; [|split; [|split; [|split]]]].
  - revert db Hdb. induction ops as [|op rest IH]; intros db Hdb; simpl.
    + exact Hdb.
    + apply IH, run_operation_stock, Hdb.
  - intros op db' e. apply run_operation_err.
  - intros pid p change Hp Hneg. rewrite update_stock_cases, Hp.
    destruct (count_in_warehouse p + change <? 0) eqn:E; [reflexivity|].
    apply Z.ltb_ge in E. lia.
  - intros new_id raw Hneg.
    destruct (create_product db new_id raw) as [db' [[id p]|e]] eqn:H.
    + exfalso. unfold create_product in H.
      destruct (ProductCreate_validate raw) as [d|] eqn:Hd; [|discriminate].
      apply ProductCreate_validate_ok in Hd as (_ & _ & Hcw & _).
      apply validate_warehouse_count_ok in Hcw. lia.
    + exists e. apply create_product_err in H as ->. reflexivity.
  - intros pid raw n Hn Hneg.
    destruct (update_product db pid raw) as [db' [p|e]] eqn:H.
    + exfalso. unfold update_product in H.
      destruct (ProductUpdate_validate raw) as [d|] eqn:Hd; [|discriminate].
      apply ProductUpdate_validate_ok in Hd as (_ & _ & Hcw & _).
      rewrite Hn in Hcw. apply validate_optional_some in Hcw as (m & Hm & _).
      apply validate_warehouse_count_ok in Hm. lia.
    + exists e. apply update_product_err in H as ->. reflexivity.
  - intros new_id raw pre item post Hitems Hfail.
    eapply createOrder_fails_on_failing_line; eauto.
Qed.

(** A run with two rejected operations in it. *)
Lemma stock_never_negative_witness :
  let ops :=
    [UpdateStock 2%N (-10);
     CreateOrder 7%N (mkOrderCreate 1%N 1%N [mkOrderItemCreate 1%N 3]);
     CreateOrder 8%N (mkOrderCreate 1%N 1%N [mkOrderItemCreate 1%N 98]);
     UpdateProduct 1%N (mkProductUpdate None None (Some (-5)) None);
     UpdateStock 1%N (-97)] in
  stock_nonneg (run_operations example_db ops) /\
  count_in_warehouse <$> products (run_operations example_db ops) !! 1%N
  = Some 0 /\
  count_in_warehouse <$> products (run_operations example_db ops) !! 2%N
  = Some 5.
Proof.
  cbv zeta. split.
  - apply stock_never_negative.
    unfold stock_nonneg. apply (bool_decide_unpack _). vm_compute. exact I.
  - split; vm_compute; reflexivity.
Defined.

(** ** Primary addresses *)

Lemma clear_primary_lookup user_id except rows id :
  clear_primary user_id except rows !! id =
  (fun a => if bool_decide (address_user_id a = user_id) && is_primary a
               && negb (bool_decide (except = Some id))
            then set_is_primary a false else a) <$> rows !! id.
Proof.
  unfold clear_primary. rewrite map_lookup_imap.
  destruct (rows !! id); reflexivity.
Qed.

Lemma set_is_primary_same a : set_is_primary a (is_primary a) = a.
Proof. destruct a; reflexivity. Qed.

(** Outside of [written], the bulk UPDATE leaves no primary address of the
    user and touches nothing else. *)
Lemma clear_primary_others user_id except rows id :
  except <> Some id ->
  clear_primary user_id except rows !! id
  = (fun a => if bool_decide (address_user_id a = user_id)
              then set_is_primary a false else a) <$> rows !! id.
Proof.
  intros Hne. rewrite clear_primary_lookup.
  destruct (rows !! id) as [a|]; simpl; [|reflexivity]. f_equal.
  rewrite (bool_decide_eq_false_2 (except = Some id)) by done. simpl.
  rewrite andb_true_r.
  destruct (bool_decide (address_user_id a = user_id)); simpl; [|reflexivity].
  destruct (is_primary a) eqn:E; [reflexivity|].
  rewrite <- E. symmetry. apply set_is_primary_same.
Qed.

Lemma written_as_sole_primary_exclusive before after user_id written :
  written_as_sole_primary before after user_id written ->
  at_most_one_primary after user_id.
Proof.
  intros (_ & Honly & _) id1 a1 id2 a2 H1 H2 Hu1 Hu2 Hp1 Hp2.
  rewrite (Honly _ _ H1 Hu1 Hp1), (Honly _ _ H2 Hu2 Hp2). reflexivity.
Qed.

Lemma insert_over_cleared rows user_id except written new :
  (except = None \/ except = Some written) ->
  address_user_id new = user_id -> is_primary new = true ->
  written_as_sole_primary rows
    (<[written := new]> (clear_primary user_id except rows)) user_id written.
Proof.
  intros Hex Hu Hp. split; [|split].
  - exists new. rewrite lookup_insert_eq. auto.
  - intros id a Ha Hua Hpa.
    destruct (decide (id = written)) as [->|Hne]; [reflexivity|]. exfalso.
    rewrite lookup_insert_ne in Ha by done.
    rewrite clear_primary_others in Ha by (destruct Hex as [->| ->]; congruence).
    destruct (rows !! id) as [a0|]; simpl in Ha; [|discriminate].
    injection Ha as <-.
    destruct (bool_decide (address_user_id a0 = user_id)) eqn:E.
    + simpl in Hpa. discriminate.
    + apply bool_decide_eq_false_1 in E. contradiction.
  - intros id Hne. rewrite lookup_insert_ne by done.
    apply clear_primary_others. destruct Hex as [->| ->]; congruence.
Qed.

(** What a create that sets the flag leaves. *)
Lemma written_after_create db new_id address_data db' r :
  ac_is_primary address_data = true ->
  AddressRepository_create db new_id address_data = (db', Ok r) ->
  written_as_sole_primary (addresses db) (addresses db')
    (ac_user_id address_data) new_id.
Proof.
  intros Hprim H. unfold AddressRepository_create in H. rewrite Hprim in H.
  destruct (_ && _) in H; [|discriminate]. injection H as <- <-. simpl.
  apply insert_over_cleared; auto.
Qed.

(** What an update that sets the flag leaves. *)
Lemma written_after_update db address_id address address_data db' r :
  addresses db !! address_id = Some address ->
  au_is_primary address_data = Some true ->
  AddressRepository_update db address_id address_data = (db', Ok r) ->
  written_as_sole_primary (addresses db) (addresses db')
    (address_user_id address) address_id.
Proof.
  intros Ha Hprim H. unfold AddressRepository_update in H.
  rewrite Ha, Hprim in H. injection H as <- <-. simpl.
  apply insert_over_cleared; auto. unfold apply_address_update. simpl.
  rewrite Hprim. reflexivity.
Qed.

Lemma primary_address_exclusive_after_create db new_id address_data db' r :
  ac_is_primary address_data = true ->
  AddressRepository_create db new_id address_data = (db', Ok r) ->
  at_most_one_primary (addresses db') (ac_user_id address_data).
Proof.
  intros Hprim H.
  eapply written_as_sole_primary_exclusive, written_after_create; eauto.
Qed.

Lemma primary_address_exclusive_after_update
    db address_id address address_data db' r :
  addresses db !! address_id = Some address ->
  au_is_primary address_data = Some true ->
  AddressRepository_update db address_id address_data = (db', Ok r) ->
  at_most_one_primary (addresses db') (address_user_id address).
Proof.
  intros Ha Hprim H.
  eapply written_as_sole_primary_exclusive, written_after_update; eauto.
Qed.

(** C6.  After an Address create or update that sets [is_primary = true] the
    written address is the only primary address of its user: the same
    function call, before its single commit, clears the flag on every other
    address with that [user_id] and on no address of another user. *)
Theorem primary_address_is_exclusive db :
  (forall new_id address_data db' r,
      ac_is_primary address_data = true ->
      AddressRepository_create db new_id address_data = (db', Ok r) ->
      written_as_sole_primary (addresses db) (addresses db')
        (ac_user_id address_data) new_id /\
      at_most_one_primary (addresses db') (ac_user_id address_data)) /\
  (forall address_id address address_data db' r,
      addresses db !! address_id = Some address ->
      au_is_primary address_data = Some true ->
      AddressRepository_update db address_id address_data = (db', Ok r) ->
      written_as_sole_primary (addresses db) (addresses db')
        (address_user_id address) address_id /\
      at_most_one_primary (addresses db') (address_user_id address)).
Proof.
  split.
  - intros new_id d db' r Hprim H. split.
    + eapply written_after_create; eauto.
    + eapply primary_address_exclusive_after_create; eauto.
  - intros id a d db' r Ha Hprim H. split.
    + eapply written_after_update; eauto.
    + eapply primary_address_exclusive_after_update; eauto.
Qed.

(** A user with a primary and a secondary address, and a primary address of
    another user: a new primary address, or the secondary one made primary,
    takes the flag from the first and leaves the other user alone. *)
Lemma primary_address_is_exclusive_witness :
  let db :=
    set_addresses example_db
      {[ 1%N := mkAddress 1%N "123 Test St" "Test City" (Some "CA") "12345" "USA" true;
         2%N := mkAddress 1%N "5 Side St" "Test City" (Some "CA") "12345" "USA" false;
         3%N := mkAddress 9%N "1 Other St" "Town" (Some "NY") "54321" "USA" true ]} in
  let created :=
    AddressRepository_create db 4%N
      (mkAddressCreate 1%N "9 New St" "Test City" (Some "CA") "12345" "USA"
                       true) in
  let updated :=
    AddressRepository_update db 2%N
      (mkAddressUpdate None None None None None (Some true)) in
  at_most_one_primary (addresses created.1) 1%N /\
  (is_primary <$> addresses created.1 !! 1%N) = Some false /\
  (is_primary <$> addresses created.1 !! 4%N) = Some true /\
  (is_primary <$> addresses created.1 !! 3%N) = Some true /\
  at_most_one_primary (addresses updated.1) 1%N /\
  (is_primary <$> addresses updated.1 !! 1%N) = Some false /\
  (is_primary <$> addresses updated.1 !! 2%N) = Some true.
Proof.
  cbv zeta.
  set (db := set_addresses example_db _).
  destruct (primary_address_is_exclusive db) as [Hcreate Hupdate].
  split.
  { eapply (Hcreate 4%N
              (mkAddressCreate 1%N "9 New St" "Test City" (Some "CA") "12345" "USA"
                       true)
              _ (4%N, mkAddress 1%N "9 New St" "Test City" (Some "CA") "12345" "USA"
                             true)
              eq_refl).
    vm_compute. reflexivity. }
  split; [vm_compute; reflexivity|]. split; [vm_compute; reflexivity|].
  split; [vm_compute; reflexivity|].
  split.
  { eapply (Hupdate 2%N
              (mkAddress 1%N "5 Side St" "Test City" (Some "CA") "12345" "USA"
                         false)
              (mkAddressUpdate None None None None None (Some true))
              _ (mkAddress 1%N "5 Side St" "Test City" (Some "CA") "12345" "USA"
                           true)).
    - vm_compute. reflexivity.
    - reflexivity.
    - vm_compute. reflexivity. }
  split; vm_compute; reflexivity.
Defined.
(** A primary address found after the flag of [user_id] was cleared is a
    primary address of another user that was there before. *)
Lemma primary_after_clear rows user_id except id a :
  except <> Some id ->
  clear_primary user_id except rows !! id = Some a ->
  is_primary a = true ->
  rows !! id = Some a /\ address_user_id a <> user_id.
Proof.
  intros Hex Ha Hp. rewrite clear_primary_others in Ha by exact Hex.
  destruct (rows !! id) as [a0|]; simpl in Ha; [|discriminate].
  injection Ha as <-.
  destruct (bool_decide (address_user_id a0 = user_id)) eqn:E.
  - simpl in Hp. discriminate.
  - apply bool_decide_eq_false_1 in E. auto.
Qed.

(** The invariant of the specification: whatever the flag of the written
    address, a create or an update keeps at most one primary address per
    user. *)
Lemma address_writes_keep_one_primary db :
  (forall user_id, at_most_one_primary (addresses db) user_id) ->
  (forall new_id address_data db' r,
      AddressRepository_create db new_id address_data = (db', Ok r) ->
      forall user_id, at_most_one_primary (addresses db') user_id) /\
  (forall address_id address_data db' r,
      AddressRepository_update db address_id address_data = (db', Ok r) ->
      forall user_id, at_most_one_primary (addresses db') user_id).
Proof.
  intros Hinv. split.
  - intros new_id d db' r H u.
    destruct (ac_is_primary d) eqn:Hprim.
    + destruct (decide (u = ac_user_id d)) as [->|Hu].
      * eapply primary_address_exclusive_after_create; eauto.
      * unfold AddressRepository_create in H. rewrite Hprim in H.
        destruct (_ && _) in H; [|discriminate]. injection H as <- _. simpl.
        intros id1 a1 id2 a2 H1 H2 Hu1 Hu2 Hp1 Hp2.
        assert (forall id a,
                   <[new_id := mkAddress (ac_user_id d) (ac_street d) (ac_city d)
                                 (ac_state d) (ac_zip_code d) (ac_country d) true]>
                     (clear_primary (ac_user_id d) None (addresses db)) !! id = Some a ->
                   address_user_id a = u -> is_primary a = true ->
                   addresses db !! id = Some a) as Hold.
        { intros id a Ha Hua Hpa. destruct (decide (id = new_id)) as [->|Hne].
          - rewrite lookup_insert_eq in Ha. injection Ha as <-. simpl in Hua.
            congruence.
          - rewrite lookup_insert_ne in Ha by done.
            exact (proj1 (primary_after_clear (addresses db) (ac_user_id d) None id a ltac:(congruence) Ha Hpa)). }
        eapply (Hinv u); eauto.
    + unfold AddressRepository_create in H. rewrite Hprim in H.
      destruct (_ && _) in H; [|discriminate]. injection H as <- _. simpl.
      intros id1 a1 id2 a2 H1 H2 Hu1 Hu2 Hp1 Hp2.
      assert (forall id a,
                 <[new_id := mkAddress (ac_user_id d) (ac_street d) (ac_city d)
                               (ac_state d) (ac_zip_code d) (ac_country d) false]>
                   (addresses db) !! id = Some a ->
                 is_primary a = true -> addresses db !! id = Some a) as Hold.
      { intros id a Ha Hpa. destruct (decide (id = new_id)) as [->|Hne].
        - rewrite lookup_insert_eq in Ha. injection Ha as <-. discriminate.
        - rewrite lookup_insert_ne in Ha by done. exact Ha. }
      eapply (Hinv u); eauto.
  - intros id d db' r H u.
    destruct (addresses db !! id) as [address|] eqn:Haddr;
      [|unfold AddressRepository_update in H; rewrite Haddr in H; discriminate].
    destruct (au_is_primary d) as [[|]|] eqn:Hprim.
    + destruct (decide (u = address_user_id address)) as [->|Hu].
      * eapply primary_address_exclusive_after_update; eauto.
      * unfold AddressRepository_update in H. rewrite Haddr, Hprim in H.
        injection H as <- _. simpl.
        intros id1 a1 id2 a2 H1 H2 Hu1 Hu2 Hp1 Hp2.
        assert (forall i a,
                   <[id := apply_address_update address d]>
                     (clear_primary (address_user_id address) (Some id)
                        (addresses db)) !! i = Some a ->
                   address_user_id a = u -> is_primary a = true ->
                   addresses db !! i = Some a) as Hold.
        { intros i a Ha Hua Hpa. destruct (decide (i = id)) as [->|Hne].
          - rewrite lookup_insert_eq in Ha. injection Ha as <-. simpl in Hua.
            congruence.
          - rewrite lookup_insert_ne in Ha by done.
            exact (proj1 (primary_after_clear (addresses db) (address_user_id address) (Some id) i a ltac:(congruence) Ha Hpa)). }
        eapply (Hinv u); eauto.
    + unfold AddressRepository_update in H. rewrite Haddr, Hprim in H.
      injection H as <- _. simpl.
      intros id1 a1 id2 a2 H1 H2 Hu1 Hu2 Hp1 Hp2.
      assert (forall i a,
                 <[id := apply_address_update address d]> (addresses db) !! i = Some a ->
                 is_primary a = true -> addresses db !! i = Some a) as Hold.
      { intros i a Ha Hpa. destruct (decide (i = id)) as [->|Hne].
        - rewrite lookup_insert_eq in Ha. injection Ha as <-.
          unfold apply_address_update in Hpa. rewrite Hprim in Hpa. discriminate.
        - rewrite lookup_insert_ne in Ha by done. exact Ha. }
      eapply (Hinv u); eauto.
    + unfold AddressRepository_update in H. rewrite Haddr, Hprim in H.
      injection H as <- _. simpl.
      intros id1 a1 id2 a2 H1 H2 Hu1 Hu2 Hp1 Hp2.
      (* the written address keeps its user and its flag *)
      assert (forall i a,
                 <[id := apply_address_update address d]> (addresses db) !! i = Some a ->
                 exists a0, addresses db !! i = Some a0 /\
                            address_user_id a0 = address_user_id a /\
                            is_primary a0 = is_primary a) as Hold.
      { intros i a Ha. destruct (decide (i = id)) as [->|Hne].
        - rewrite lookup_insert_eq in Ha. injection Ha as <-.
          exists address. unfold apply_address_update. rewrite Hprim. auto.
        - rewrite lookup_insert_ne in Ha by done. eauto. }
      destruct (Hold _ _ H1) as (b1 & Hb1 & Hbu1 & Hbp1).
      destruct (Hold _ _ H2) as (b2 & Hb2 & Hbu2 & Hbp2).
      eapply (Hinv u); eauto; congruence.
Qed.

(** ** The email of a user *)

Lemma UserRepository_update_email db user_id user_data db' r id u :
  UserRepository_update db user_id user_data = (db', r) ->
  users db !! id = Some u ->
  exists u', users db' !! id = Some u' /\ email u' = email u.
Proof.
  unfold UserRepository_update. intros H Hu.
  destruct (users db !! user_id) as [user|] eqn:Huser;
    [|injection H as <- _; eauto].
  destruct (bool_decide _); [|injection H as <- _; eauto].
  injection H as <- _. simpl.
  destruct (decide (id = user_id)) as [->|Hne].
  - rewrite lookup_insert_eq. rewrite Huser in Hu. injection Hu as <-. eauto.
  - rewrite lookup_insert_ne by done. eauto.
Qed.

Lemma UserService_update_email db user_id user_data db' r id u :
  UserService_update db user_id user_data = (db', r) ->
  users db !! id = Some u ->
  exists u', users db' !! id = Some u' /\ email u' = email u.
Proof.
  unfold UserService_update. intros H Hu.
  destruct (match uu_username user_data with Some s => _ | None => _ end);
    [injection H as <- _; eauto|].
  destruct (uu_email user_data); [injection H as <- _; eauto|].
  eapply UserRepository_update_email; eauto.
Qed.

Lemma len_nonempty s : 3 <= len s -> nonempty_string s = true.
Proof. destruct s; [unfold len; simpl; lia | reflexivity]. Qed.

(** C7, as the code has it.  No user update changes a stored email.  A
    [UserUpdate] object that carries an email is rejected by the service and
    the datastore is unchanged; the error is the one about the email unless
    the object also carries a non-empty username of fewer than 3 characters,
    which is reported first.  An email key in a request body never reaches
    the service: the schema drops it and the request is handled like the same
    request without it.  A username-only update with a username of at least
    3 characters, for an existing user and a username that no other user
    holds, succeeds, sets the username and leaves the email as it is. *)
Theorem email_is_never_changed db user_id :
  (forall user_data db' r id u,
      UserService_update db user_id user_data = (db', r) ->
      users db !! id = Some u ->
      exists u', users db' !! id = Some u' /\ email u' = email u) /\
  (forall user_data new_email,
      uu_email user_data = Some new_email ->
      UserService_update db user_id user_data
      = (db, Err (ValueError
                    (if match uu_username user_data with
                        | Some s => nonempty_string s && (len s <? 3)
                        | None => false
                        end
                     then UsernameTooShortService
                     else EmailCannotBeChanged)))) /\
  (forall payload,
      update_user db user_id payload
      = update_user db user_id
          (mkUserUpdatePayload (payload_username payload)
                               (payload_description payload) None)) /\
  (forall user name,
      users db !! user_id = Some user ->
      3 <= len name ->
      (forall id u, users db !! id = Some u -> id <> user_id ->
                    username u <> name) ->
      let renamed := mkUser name (email user) (description user) in
      update_user db user_id (mkUserUpdatePayload (Some name) None None)
      = (set_users db (<[user_id := renamed]> (users db)), Ok renamed) /\
      UserService_update db user_id (mkUserUpdate (Some name) None None)
      = (set_users db (<[user_id := renamed]> (users db)), Ok renamed)).
Proof.
  split; [|split; [|split]].
  - intros. eapply UserService_update_email; eauto.
  - intros d e He. unfold UserService_update. rewrite He.
    destruct (match uu_username d with Some s => _ | None => _ end); reflexivity.
  - intros payload. reflexivity.
  - intros user name Hu Hlen Hfree. cbv zeta.
    assert (UserService_update db user_id (mkUserUpdate (Some name) None None)
            = (set_users db
                 (<[user_id := mkUser name (email user) (description user)]>
                    (users db)),
               Ok (mkUser name (email user) (description user)))) as Hsvc.
    { unfold UserService_update. simpl.
      assert ((len name <? 3) = false) as -> by (apply Z.ltb_ge; lia).
      rewrite andb_false_r. unfold UserRepository_update. rewrite Hu. simpl.
      rewrite bool_decide_eq_true_2; [reflexivity|].
      intros id u Hid. destruct (decide (id = user_id)) as [->|Hne]; [left; reflexivity|].
      right. eapply Hfree; eauto. }
    split; [|exact Hsvc].
    unfold update_user, UserUpdate_validate. simpl.
    assert ((len name <? 3) = false) as -> by (apply Z.ltb_ge; lia).
    simpl. exact Hsvc.
Qed.


(** C7, as stated, fails on the code.  A request that carries an email is not
    rejected: the schema drops the key and the update goes through, leaving
    the user as it was.  An object that carries an email and a username of
    two characters is rejected for its username, not for its email.  And a
    username-only update with a long enough username fails when another user
    holds that username. *)
Lemma email_change_is_not_always_rejected :
  update_user example_db 1%N
    (mkUserUpdatePayload None None (Some "new@example.com"))
  = (example_db, Ok (mkUser "alice" "alice@example.com" None)) /\
  UserService_update example_db 1%N
    (mkUserUpdate (Some "ab") None (Some "new@example.com"))
  = (example_db, Err (ValueError UsernameTooShortService)) /\
  UserService_update
    (set_users example_db
       {[ 1%N := mkUser "alice" "alice@example.com" None;
          2%N := mkUser "bob" "bob@example.com" None ]})
    1%N (mkUserUpdate (Some "bob") None None)
  = (set_users example_db
       {[ 1%N := mkUser "alice" "alice@example.com" None;
          2%N := mkUser "bob" "bob@example.com" None ]},
     Err IntegrityError).
Proof. repeat split; vm_compute; reflexivity. Qed.

(** An object with an email is refused; alice becomes alicia and keeps her
    email. *)
Lemma email_is_never_changed_witness :
  UserService_update example_db 1%N
    (mkUserUpdate None None (Some "new@example.com"))
  = (example_db, Err (ValueError EmailCannotBeChanged)) /\
  UserService_update example_db 1%N (mkUserUpdate (Some "alicia") None None)
  = (set_users example_db {[ 1%N := mkUser "alicia" "alice@example.com" None ]},
     Ok (mkUser "alicia" "alice@example.com" None)).
Proof.
  destruct (email_is_never_changed example_db 1%N) as (_ & Hreject & _ & Hrename).
  split.
  - apply (Hreject (mkUserUpdate None None (Some "new@example.com"))
             "new@example.com" eq_refl).
  - destruct (Hrename (mkUser "alice" "alice@example.com" None) "alicia")
      as [_ Hsvc].
    + vm_compute. reflexivity.
    + vm_compute. discriminate.
    + intros id u Hu Hne. exfalso. apply Hne.
      destruct (decide (id = 1%N)) as [->|Hid]; [reflexivity|].
      unfold example_db in Hu. simpl in Hu.
      rewrite lookup_singleton_ne in Hu by done. discriminate.
    + rewrite Hsvc. vm_compute. reflexivity.
Defined.

(** ** Deletions *)

Lemma active_orders_nonempty db pid it :
  In it (order_items db) -> item_product_id it = pid ->
  is_Some (orders db !! item_order_id it) ->
  active_orders db pid <> [].
Proof.
  intros Hin Hpid Hord Hnil.
  assert (In it (active_orders db pid)) as Hit.
  { unfold active_orders. apply List.filter_In. split; [exact Hin|].
    rewrite !bool_decide_eq_true_2 by assumption. reflexivity. }
  rewrite Hnil in Hit. destruct Hit.
Qed.

Lemma order_count_pos db aid oid o :
  orders db !! oid = Some o -> order_address_id o = aid ->
  0 < order_count db aid.
Proof.
  intros Ho Ha. unfold order_count.
  assert (filter (fun io : UUID * Order => order_address_id io.2 = aid) (orders db)
            !! oid = Some o) as Hf
    by (apply map_lookup_filter_Some; auto).
  assert (size (filter (fun io : UUID * Order => order_address_id io.2 = aid)
                  (orders db)) <> 0%nat) as Hs.
  { intros Hz. apply map_size_empty_iff in Hz. rewrite Hz in Hf.
    rewrite lookup_empty in Hf. discriminate. }
  lia.
Qed.

Lemma user_orders_nonempty db uid oid o :
  orders db !! oid = Some o -> order_user_id o = uid ->
  user_orders db uid <> [].
Proof.
  intros Ho Hu Hnil. unfold user_orders in Hnil.
  apply map_to_list_empty_iff in Hnil.
  assert (filter (fun io : UUID * Order => order_user_id io.2 = uid) (orders db)
            !! oid = Some o) as Hf
    by (apply map_lookup_filter_Some; auto).
  rewrite Hnil, lookup_empty in Hf. discriminate.
Qed.

(** C8.  In a datastore whose order items belong to orders: deleting a
    Product that an OrderItem references, an Address that an Order
    references, or (through the service) a User that owns an Order fails with
    a [ValueError] and leaves the datastore, the entity included, as it
    was. *)
Theorem referenced_entities_are_not_deleted db :
  items_have_orders db ->
  (forall product_id product it,
      products db !! product_id = Some product ->
      In it (order_items db) -> item_product_id it = product_id ->
      ProductRepository_delete db product_id
      = (db, Err (ValueError ProductReferencedInOrders))) /\
  (forall address_id address order_id order,
      addresses db !! address_id = Some address ->
      orders db !! order_id = Some order ->
      order_address_id order = address_id ->
      AddressRepository_delete db address_id
      = (db, Err (ValueError AddressUsedInOrders))) /\
  (forall user_id user order_id order,
      users db !! user_id = Some user ->
      orders db !! order_id = Some order ->
      order_user_id order = user_id ->
      UserService_delete db user_id
      = (db, Err (ValueError UserHasOrders))).
Proof.
  intros Hfk. split; [|split].
  - intros pid p it Hp Hin Hpid.
    unfold ProductRepository_delete. rewrite Hp.
    assert (is_Some (orders db !! item_order_id it)) as Hord
      by (eapply List.Forall_forall in Hfk; [exact Hfk | exact Hin]).
    pose proof (active_orders_nonempty db pid it Hin Hpid Hord) as Hne.
    destruct (active_orders db pid); [contradiction | reflexivity].
  - intros aid a oid o Ha Ho Hoa.
    unfold AddressRepository_delete. rewrite Ha.
    pose proof (order_count_pos db aid oid o Ho Hoa) as Hpos.
    apply Z.ltb_lt in Hpos. rewrite Hpos. reflexivity.
  - intros uid u oid o Hu Ho Hou.
    unfold UserService_delete. rewrite Hu.
    pose proof (user_orders_nonempty db uid oid o Ho Hou) as Hne.
    destruct (user_orders db uid); [contradiction | reflexivity].
Qed.

(** After the order of three Widgets, neither the Widget, nor the address,
    nor alice can be deleted. *)
Lemma referenced_entities_are_not_deleted_witness :
  ProductRepository_delete example_db_with_order 1%N
  = (example_db_with_order, Err (ValueError ProductReferencedInOrders)) /\
  AddressRepository_delete example_db_with_order 1%N
  = (example_db_with_order, Err (ValueError AddressUsedInOrders)) /\
  UserService_delete example_db_with_order 1%N
  = (example_db_with_order, Err (ValueError UserHasOrders)) /\
  is_Some (products example_db_with_order !! 1%N).
Proof.
  assert (items_have_orders example_db_with_order) as Hfk.
  { repeat constructor. exists (mkOrder 1%N 1%N). vm_compute. reflexivity. }
  destruct (referenced_entities_are_not_deleted example_db_with_order Hfk)
    as (Hproduct & Haddress & Huser).
  split.
  { apply (Hproduct 1%N (mkProduct "Widget" 1 97 (mkDecimal 1000 (-2)))
             (mkOrderItem 7%N 1%N 3 (mkDecimal 1000 (-2)))).
    - vm_compute. reflexivity.
    - left. reflexivity.
    - reflexivity. }
  split.
  { apply (Haddress 1%N
             (mkAddress 1%N "123 Test St" "Test City" (Some "CA") "12345" "USA" true)
             7%N (mkOrder 1%N 1%N)).
    - vm_compute. reflexivity.
    - vm_compute. reflexivity.
    - reflexivity. }
  split.
  { apply (Huser 1%N (mkUser "alice" "alice@example.com" None)
             7%N (mkOrder 1%N 1%N)).
    - vm_compute. reflexivity.
    - vm_compute. reflexivity.
    - reflexivity. }
  exists (mkProduct "Widget" 1 97 (mkDecimal 1000 (-2))). vm_compute. reflexivity.
Defined.

(** ** Two concurrent callers *)

Lemma run_call_finished n db id data ses r :
  run_call n db (mkCall id data ses (Finished r))
  = (db, mkCall id data ses (Finished r)).
Proof. induction n as [|n IH]; [reflexivity | simpl; exact IH]. Qed.

(** Run alone, the steps of a call are [OrderRepository.create]. *)
Lemma run_call_loop db id data : forall items ses total,
  run_call (S (length items)) db (mkCall id data ses (InLoop total items))
  = match process_items db id ses total items with
    | (ses2, Err e) => (db, mkCall id data ses2 (Finished (Err e)))
    | (ses2, Ok _) =>
        match session_commit db ses2 with
        | (db', ses3, Err e) => (db', mkCall id data ses3 (Finished (Err e)))
        | (db', ses3, Ok _) =>
            (db', mkCall id data ses3
                    (Finished (Ok (mkOrderResult id
                                     (mkOrder (oc_user_id data) (oc_address_id data))
                                     (items_of db' id)))))
        end
    end.
Proof.
  induction items as [|item rest IH]; intros ses total.
  - simpl. unfold call_step. simpl.
    destruct (session_commit db ses) as [[db' ses3] [[]|e]]; reflexivity.
  - change (run_call (S (length (item :: rest))) db
              (mkCall id data ses (InLoop total (item :: rest))))
      with (let '(db', c') := call_step db (mkCall id data ses (InLoop total (item :: rest)))
            in run_call (S (length rest)) db' c').
    simpl process_items. unfold call_step.
    cbn [call_phase call_session call_id call_data].
    destruct (process_item db id ses total item) as [ses' [t'|e]].
    + lazy beta zeta iota. apply IH.
    + lazy beta zeta iota. apply run_call_finished.
Qed.

Lemma run_call_alone db new_id order_data :
  run_call (2 + length (oc_items order_data)) db (start_call new_id order_data)
  = let '(db', ses', r) :=
      OrderRepository_create new_id order_data db new_session in
    (db', mkCall new_id order_data ses' (Finished r)).
Proof.
  change (2 + length (oc_items order_data))%nat
    with (S (S (length (oc_items order_data)))).
  unfold OrderRepository_create, start_call.
  change (run_call (S (S (length (oc_items order_data)))) db
            (mkCall new_id order_data new_session Started))
    with (let '(db', c') := call_step db (mkCall new_id order_data new_session Started)
          in run_call (S (length (oc_items order_data))) db' c').
  unfold call_step. cbn [call_phase call_session call_id call_data].
  destruct (session_add_order_flush _ _ _ _) as [ses1 [[]|e]].
  - rewrite run_call_loop.
    destruct (process_items _ _ _ _ _) as [ses2 [t|e]]; [|reflexivity].
    destruct (session_commit db ses2) as [[db' ses3] [[]|e]]; reflexivity.
  - apply run_call_finished.
Qed.

(** A schedule is a sequence of steps of a configuration. *)
Lemma run_schedule_steps schedule : forall db a b,
  run_schedule schedule db a b = foldl (fun c who => step who c) (db, a, b) schedule.
Proof.
  induction schedule as [|[|] s IH]; intros db a b; simpl; [reflexivity| |].
  - destruct (call_step db a) as [db' a']. apply IH.
  - destruct (call_step db b) as [db' b']. apply IH.
Qed.

Lemma reachable_closed c who : c ∈ reachable -> step who c ∈ reachable.
Proof.
  assert (forallb (fun c => bool_decide (step true c ∈ reachable)
                            && bool_decide (step false c ∈ reachable))
                  reachable = true) as H by (vm_compute; reflexivity).
  rewrite forallb_forall in H. intros Hc.
  apply list_elem_of_In in Hc. specialize (H c Hc).
  apply andb_true_iff in H as [H1 H2].
  apply bool_decide_eq_true_1 in H1. apply bool_decide_eq_true_1 in H2.
  destruct who; assumption.
Qed.

Lemma reachable_steps schedule : forall c,
  c ∈ reachable -> foldl (fun c who => step who c) c schedule ∈ reachable.
Proof.
  induction schedule as [|who s IH]; intros c Hc; simpl; [exact Hc|].
  apply IH, reachable_closed, Hc.
Qed.

Lemma reachable_observed c : c ∈ reachable -> observed c = true.
Proof.
  assert (forallb observed reachable = true) as H by (vm_compute; reflexivity).
  rewrite forallb_forall in H. intros Hc. apply H, list_elem_of_In, Hc.
Qed.

Lemma step_finished_first k db a b :
  call_finished a = true ->
  foldl (fun c who => step who c) (db, a, b) (replicate k true) = (db, a, b).
Proof.
  intros Ha. induction k as [|k IH]; [reflexivity|]. simpl.
  unfold call_finished in Ha. unfold call_step.
  destruct (call_phase a); try discriminate. exact IH.
Qed.

Lemma step_finished_second k db a b :
  call_finished b = true ->
  foldl (fun c who => step who c) (db, a, b) (replicate k false) = (db, a, b).
Proof.
  intros Hb. induction k as [|k IH]; [reflexivity|]. simpl.
  unfold call_finished in Hb. unfold call_step.
  destruct (call_phase b); try discriminate. exact IH.
Qed.

Lemma replicate_three {A} (x : A) n :
  (3 <= n)%nat -> replicate n x = [x; x; x] ++ replicate (n - 3) x.
Proof.
  intros H. replace n with (3 + (n - 3))%nat at 1 by lia. reflexivity.
Qed.

(** One call after the other. *)
Lemma serial_run (first : bool) n m :
  (3 <= n)%nat -> (3 <= m)%nat ->
  let '(db, a, b) :=
    run_schedule (replicate n first ++ replicate m (negb first))
                 contended_db first_call second_call in
  let winner := if first then a else b in
  let loser := if first then b else a in
  call_succeeded winner = true /\
  call_phase loser = Finished (Err (ValueError (NotEnoughStock "Widget" 4 6))) /\
  stock_of db 1%N = Some 4 /\ granted db 1%N = 6.
Proof.
  intros Hn Hm. rewrite run_schedule_steps, foldl_app.
  rewrite (replicate_three first n Hn), (replicate_three (negb first) m Hm).
  rewrite !foldl_app.
  destruct first; simpl negb.
  - set (c3 := foldl (fun (c : Config) (who : bool) => step who c) (contended_db, first_call, second_call) [true; true; true]).
    assert (call_finished c3.1.2 = true) as Ha by (vm_compute; reflexivity).
    destruct c3 as [[db3 a3] b3] eqn:E3. simpl in Ha.
    rewrite step_finished_first by exact Ha.
    set (c6 := foldl (fun (c : Config) (who : bool) => step who c) (db3, a3, b3) [false; false; false]).
    assert (call_finished c6.2 = true /\ call_succeeded c6.1.2 = true /\
            call_phase c6.2 = Finished (Err (ValueError (NotEnoughStock "Widget" 4 6))) /\
            stock_of c6.1.1 1%N = Some 4 /\ granted c6.1.1 1%N = 6) as H6.
    { subst c6. rewrite <- E3. vm_compute. repeat split; reflexivity. }
    clearbody c6. destruct c6 as [[db6 a6] b6]. simpl in H6.
    destruct H6 as (Hb & H6). rewrite step_finished_second by exact Hb. exact H6.
  - set (c3 := foldl (fun (c : Config) (who : bool) => step who c) (contended_db, first_call, second_call) [false; false; false]).
    assert (call_finished c3.2 = true) as Hb by (vm_compute; reflexivity).
    destruct c3 as [[db3 a3] b3] eqn:E3. simpl in Hb.
    rewrite step_finished_second by exact Hb.
    set (c6 := foldl (fun (c : Config) (who : bool) => step who c) (db3, a3, b3) [true; true; true]).
    assert (call_finished c6.1.2 = true /\ call_succeeded c6.2 = true /\
            call_phase c6.1.2 = Finished (Err (ValueError (NotEnoughStock "Widget" 4 6))) /\
            stock_of c6.1.1 1%N = Some 4 /\ granted c6.1.1 1%N = 6) as H6.
    { subst c6. rewrite <- E3. vm_compute. repeat split; reflexivity. }
    clearbody c6. destruct c6 as [[db6 a6] b6]. simpl in H6.
    destruct H6 as (Ha & H6). rewrite step_finished_first by exact Ha. exact H6.
Qed.

(** C2, as stated, fails on the code.  When the two calls of the scenario
    take their steps in turn, both read a stock of 10 before either commits:
    both succeed, 12 units of a stock of 10 are handed out, and the stock
    that is left is 4. *)
Lemma both_concurrent_calls_succeed :
  let '(db, a, b) :=
    run_schedule [true; false; true; false; true; false]
                 contended_db first_call second_call in
  call_succeeded a = true /\ call_succeeded b = true /\
  stock_of db 1%N = Some 4 /\ granted db 1%N = 12.
Proof. vm_compute. repeat split; reflexivity. Qed.

(** C2, as the code has it.  The reservation is a read ([session.get]), a
    comparison and a decrement in memory that the commit writes back; nothing
    serializes two callers.  In the scenario of the specification (stock 10,
    two calls asking for 6 each): whatever the schedule, the stock is 10 or 4
    at every moment, never negative, and it is 4 once both calls have
    finished, at least one of them with an order; and when one call runs to
    its end before the other starts, exactly that call gets its order, the
    other fails with the not-enough-stock error (available 4, requested 6),
    and 6 units are handed out. *)
Theorem reservation_is_read_then_write schedule n m :
  let '(db, a, b) :=
    run_schedule schedule contended_db first_call second_call in
  ((stock_of db 1%N = Some 10 \/ stock_of db 1%N = Some 4) /\
   (call_finished a = true -> call_finished b = true ->
    stock_of db 1%N = Some 4 /\
    (call_succeeded a = true \/ call_succeeded b = true))) /\
  ((3 <= n)%nat -> (3 <= m)%nat ->
   (let '(db1, a1, b1) :=
      run_schedule (replicate n true ++ replicate m false)
                   contended_db first_call second_call in
    call_succeeded a1 = true /\
    call_phase b1 = Finished (Err (ValueError (NotEnoughStock "Widget" 4 6))) /\
    stock_of db1 1%N = Some 4 /\ granted db1 1%N = 6) /\
   (let '(db2, a2, b2) :=
      run_schedule (replicate n false ++ replicate m true)
                   contended_db first_call second_call in
    call_succeeded b2 = true /\
    call_phase a2 = Finished (Err (ValueError (NotEnoughStock "Widget" 4 6))) /\
    stock_of db2 1%N = Some 4 /\ granted db2 1%N = 6)).
Proof.
  pose proof (reachable_steps schedule (contended_db, first_call, second_call)) as Hr.
  rewrite <- run_schedule_steps in Hr.
  destruct (run_schedule schedule contended_db first_call second_call)
    as [[db a] b].
  split.
  - assert ((contended_db, first_call, second_call) ∈ reachable) as H0
      by (apply (bool_decide_unpack _); vm_compute; exact I).
    apply Hr, reachable_observed in H0. unfold observed in H0.
    apply andb_true_iff in H0 as [Hstock Hdone]. split.
    + apply orb_true_iff in Hstock as [H|H]; apply bool_decide_eq_true_1 in H; auto.
    + intros Ha Hb. rewrite Ha, Hb in Hdone. simpl in Hdone.
      apply andb_true_iff in Hdone as [H4 Hs].
      apply bool_decide_eq_true_1 in H4. split; [exact H4|].
      apply orb_true_iff in Hs. exact Hs.
  - intros Hn Hm. split.
    + exact (serial_run true n m Hn Hm).
    + exact (serial_run false n m Hn Hm).
Qed.

(** The first call runs to its end, then the second. *)
Lemma reservation_is_read_then_write_witness :
  let '(db, a, b) :=
    run_schedule (replicate 3 true ++ replicate 3 false)
                 contended_db first_call second_call in
  call_succeeded a = true /\
  call_phase b = Finished (Err (ValueError (NotEnoughStock "Widget" 4 6))) /\
  stock_of db 1%N = Some 4 /\ granted db 1%N = 6.
Proof.
  pose proof (reservation_is_read_then_write [] 3 3) as H.
  simpl run_schedule in H. cbv beta iota zeta in H.
  destruct H as [_ H].
  destruct (H (le_n 3) (le_n 3)) as [H1 _]. exact H1.
Defined.

(** * Properties of the rest of the code *)

(** ** Stripped strings *)

Lemma lstrip_starts_clean s : starts_clean (lstrip s).
Proof.
  induction s as [|c s IH]; simpl; [exact I|].
  destruct (is_space c) eqn:E; [exact IH | exact E].
Qed.

Lemma lstrip_clean s : starts_clean s -> lstrip s = s.
Proof. destruct s as [|c s]; simpl; [reflexivity|]. intros ->. reflexivity. Qed.

Lemma rstrip_starts_clean s : starts_clean s -> starts_clean (rstrip s).
Proof.
  destruct s as [|c s]; simpl; [auto|]. intros Hc.
  destruct (rstrip s); simpl; [rewrite Hc; exact Hc | exact Hc].
Qed.

Lemma rstrip_idempotent s : rstrip (rstrip s) = rstrip s.
Proof.
  induction s as [|c s IH]; simpl; [reflexivity|].
  destruct (rstrip s) as [|d t] eqn:E.
  - destruct (is_space c) eqn:Ec; simpl; [reflexivity|]. rewrite Ec. reflexivity.
  - simpl. simpl in IH. destruct (rstrip t) as [|d' t'] eqn:Et.
    + destruct (is_space d) eqn:Ed; [discriminate|]. rewrite <- IH. reflexivity.
    + rewrite <- IH. reflexivity.
Qed.

Lemma strip_idempotent s : strip (strip s) = strip s.
Proof.
  unfold strip. rewrite (lstrip_clean (rstrip (lstrip s))).
  - apply rstrip_idempotent.
  - apply rstrip_starts_clean, lstrip_starts_clean.
Qed.

Lemma length_lstrip s : (String.length (lstrip s) <= String.length s)%nat.
Proof.
  induction s as [|c s IH]; simpl; [lia|]. destruct (is_space c); simpl; lia.
Qed.

Lemma length_rstrip s : (String.length (rstrip s) <= String.length s)%nat.
Proof.
  induction s as [|c s IH]; simpl; [lia|].
  destruct (rstrip s); [destruct (is_space c)|]; simpl in *; lia.
Qed.

Lemma len_strip s : len (strip s) <= len s.
Proof.
  unfold len, strip. pose proof (length_lstrip s).
  pose proof (length_rstrip (lstrip s)). lia.
Qed.

Lemma rstrip_ends_clean s : ends_clean (rstrip s).
Proof.
  induction s as [|c s IH]; simpl; [exact I|].
  destruct (rstrip s) as [|d t] eqn:E.
  - destruct (is_space c) eqn:Ec; simpl; [exact I | exact Ec].
  - exact IH.
Qed.

Lemma strip_clean s : starts_clean (strip s) /\ ends_clean (strip s).
Proof.
  split; [apply rstrip_starts_clean, lstrip_starts_clean | apply rstrip_ends_clean].
Qed.

Lemma rstrip_clean s : ends_clean s -> rstrip s = s.
Proof.
  induction s as [|c s IH]; simpl; [reflexivity|]. intros H.
  destruct s as [|d t]; [simpl; rewrite H; reflexivity|].
  rewrite (IH H). reflexivity.
Qed.

(** [strip] changes nothing exactly on the strings that are clean at both
    ends. *)
Lemma strip_fixed s : strip s = s <-> starts_clean s /\ ends_clean s.
Proof.
  split.
  - intros <-. apply strip_clean.
  - intros [Hs He]. unfold strip. rewrite (lstrip_clean s Hs). apply rstrip_clean, He.
Qed.

Lemma alnum_not_space c : is_alnum c = true -> is_space c = false.
Proof.
  destruct c as [[] [] [] [] [] [] [] []]; vm_compute; congruence.
Qed.

Lemma keep_alnum_idempotent s : keep_alnum (keep_alnum s) = keep_alnum s.
Proof.
  induction s as [|c s IH]; simpl; [reflexivity|].
  destruct (is_alnum c) eqn:E; simpl; [rewrite E, IH; reflexivity | exact IH].
Qed.

Lemma keep_alnum_all s : all_alnum (keep_alnum s).
Proof.
  induction s as [|c s IH]; simpl; [exact I|].
  destruct (is_alnum c) eqn:E; simpl; auto.
Qed.

Lemma all_alnum_keep s : all_alnum s -> keep_alnum s = s.
Proof.
  induction s as [|c s IH]; simpl; [reflexivity|]. intros [-> H].
  rewrite (IH H). reflexivity.
Qed.

Lemma all_alnum_clean s : all_alnum s -> starts_clean s /\ ends_clean s.
Proof.
  induction s as [|c s IH]; simpl; [auto|]. intros [Hc Hs].
  split; [apply alnum_not_space, Hc|].
  destruct s as [|d t]; [apply alnum_not_space, Hc | apply IH, Hs].
Qed.

Lemma all_alnum_strip s : all_alnum s -> strip s = s.
Proof. intros H. apply strip_fixed, all_alnum_clean, H. Qed.

(** ** The schemas return normal forms *)

Lemma and_then_done {A B} (r : answer A) (k : A -> answer B) b :
  and_then r k = Done b -> exists a, r = Done a /\ k a = Done b.
Proof. destruct r; simpl; [eauto | discriminate]. Qed.

Ltac unchain H :=
  repeat match type of H with
         | and_then _ _ = Done _ =>
             let x := fresh "x" in
             let Hx := fresh "Hx" in
             apply and_then_done in H as (x & Hx & H)
         end.

Lemma validate_label_ok v l :
  validate_label v = Ok l -> l = strip v /\ 3 <= len l <= 100.
Proof.
  unfold validate_label. destruct (len (strip v) <? 3) eqn:E1; [discriminate|].
  destruct (100 <? len (strip v)) eqn:E2; [discriminate|].
  intros [= <-]. apply Z.ltb_ge in E1, E2. auto.
Qed.

Lemma validate_label_fixed l :
  strip l = l -> 3 <= len l <= 100 -> validate_label l = Ok l.
Proof.
  intros Hs [H3 H100]. unfold validate_label. rewrite Hs.
  destruct (len l <? 3) eqn:E1; [apply Z.ltb_lt in E1; lia|].
  destruct (100 <? len l) eqn:E2; [apply Z.ltb_lt in E2; lia|]. reflexivity.
Qed.

Lemma validate_package_count_ok v n :
  validate_package_count v = Ok n -> n = v /\ 1 <= n <= 10000.
Proof.
  unfold validate_package_count. destruct (v <? 1) eqn:E1; [discriminate|].
  destruct (10000 <? v) eqn:E2; [discriminate|].
  intros [= <-]. apply Z.ltb_ge in E1, E2. auto.
Qed.

Lemma validate_price_ok v q :
  validate_price v = Ok q ->
  exponent q = -2 /\ 0 <= coefficient q <= 100000000.
Proof.
  unfold validate_price. destruct (dec_le_zero v) eqn:E1; [discriminate|].
  destruct (dec_gt_int v 1000000) eqn:E2; [discriminate|].
  unfold dec_le_zero in E1. apply Z.leb_gt in E1.
  pose proof (quantize_coefficient_bound v E1 E2) as Hb.
  unfold quantize. destruct (10 ^ 28 <=? _); [discriminate|].
  intros [= <-]. simpl. auto.
Qed.

Lemma validate_price_fixed q :
  exponent q = -2 -> 0 < coefficient q <= 100000000 -> validate_price q = Ok q.
Proof.
  intros He [Hpos Hle]. unfold validate_price, dec_le_zero, dec_gt_int.
  destruct (coefficient q <=? 0) eqn:E1; [apply Z.leb_le in E1; lia|].
  rewrite He. simpl (0 <=? -2). cbv iota.
  change (- -2) with 2. change (1000000 * 10 ^ 2) with 100000000.
  destruct (100000000 <? coefficient q) eqn:E2; [apply Z.ltb_lt in E2; lia|].
  apply quantize_fixpoint. split; [exact He|].
  rewrite Z.abs_eq by lia. change (10 ^ 28) with 10000000000000000000000000000. lia.
Qed.

Lemma ProductCreate_validate_bounds raw product_data :
  ProductCreate_validate raw = Ok product_data ->
  pc_label product_data = strip (pc_label raw) /\
  3 <= len (pc_label product_data) <= 100 /\
  pc_count_in_package product_data = pc_count_in_package raw /\
  1 <= pc_count_in_package product_data <= 10000 /\
  pc_count_in_warehouse product_data = pc_count_in_warehouse raw /\
  0 <= pc_count_in_warehouse product_data /\
  rounds_half_even_2dp (pc_price raw) (pc_price product_data) /\
  0 <= coefficient (pc_price product_data) <= 100000000 /\
  (0 < coefficient (pc_price product_data) ->
   ProductCreate_validate product_data = Ok product_data).
Proof.
  intros H. apply ProductCreate_validate_ok in H as (Hl & Hp & Hw & Hprice).
  apply validate_label_ok in Hl as [Hl Hlen].
  apply validate_package_count_ok in Hp as [Hp Hprange].
  apply validate_warehouse_count_ok in Hw as [Hw Hwpos].
  pose proof (validate_price_ok _ _ Hprice) as [He Hc].
  apply validate_price_quantize in Hprice as [Hq _].
  split; [exact Hl|]. split; [exact Hlen|]. split; [exact Hp|].
  split; [exact Hprange|]. split; [exact Hw|]. split; [exact Hwpos|].
  split; [apply quantize_rounds, Hq|]. split; [exact Hc|].
  intros Hpos.
  { unfold ProductCreate_validate.
    rewrite validate_label_fixed; [|rewrite Hl; apply strip_idempotent|lia].
    simpl. unfold validate_package_count.
    destruct (pc_count_in_package product_data <? 1) eqn:E1;
      [apply Z.ltb_lt in E1; lia|].
    destruct (10000 <? pc_count_in_package product_data) eqn:E2;
      [apply Z.ltb_lt in E2; lia|].
    simpl. unfold validate_warehouse_count.
    destruct (pc_count_in_warehouse product_data <? 0) eqn:E3;
      [apply Z.ltb_lt in E3; lia|].
    simpl. rewrite validate_price_fixed by (auto; lia). simpl.
    destruct product_data; reflexivity. }
Qed.

(** X1: A payload that [ProductCreate] accepts comes out with its label
    stripped and of 3 to 100 characters, 1 to 10000 units per package, a stock
    of 0 at least and its price rounded half to even to two fractional digits,
    between 0.00 and 1,000,000.00; when that price is above 0.00, validating
    the result again returns it unchanged. *)
Theorem ProductCreate_normal_form raw product_data :
  ProductCreate_validate raw = Ok product_data ->
  pc_label product_data = strip (pc_label raw) /\
  3 <= len (pc_label product_data) <= 100 /\
  pc_count_in_package product_data = pc_count_in_package raw /\
  1 <= pc_count_in_package product_data <= 10000 /\
  pc_count_in_warehouse product_data = pc_count_in_warehouse raw /\
  0 <= pc_count_in_warehouse product_data /\
  rounds_half_even_2dp (pc_price raw) (pc_price product_data) /\
  0 <= coefficient (pc_price product_data) <= 100000000 /\
  (0 < coefficient (pc_price product_data) ->
   ProductCreate_validate product_data = Ok product_data).
Proof. apply ProductCreate_validate_bounds. Qed.

Lemma ProductCreate_normal_form_witness :
  let raw := mkProductCreate "  Blue widget " 12 0 (mkDecimal 19995 (-3)) in
  let product_data := mkProductCreate "Blue widget" 12 0 (mkDecimal 2000 (-2)) in
  ProductCreate_validate raw = Ok product_data /\
  ProductCreate_validate product_data = Ok product_data.
Proof.
  intros raw product_data.
  assert (ProductCreate_validate raw = Ok product_data) as H
    by (vm_compute; reflexivity).
  split; [exact H|].
  apply (ProductCreate_normal_form raw product_data H). vm_compute. reflexivity.
Defined.

Lemma validate_order_items_accepts l :
  is_ok (validate_order_items l) = true
  <-> Forall (fun it => 1 <= oi_quantity it) l.
Proof.
  induction l as [|it l IH]; simpl.
  - split; [constructor | reflexivity].
  - unfold validate_quantity.
    destruct (oi_quantity it <? 1) eqn:E; simpl.
    + apply Z.ltb_lt in E. split; [discriminate|]. inversion 1; lia.
    + apply Z.ltb_ge in E.
      destruct (validate_order_items l) eqn:El; simpl in *.
      * split; [intros _; constructor; [exact E | apply IH; reflexivity]
               | reflexivity].
      * split; [discriminate|]. inversion 1; subst.
        apply IH. assumption.
Qed.

Lemma OrderCreate_validate_is_ok raw :
  is_ok (OrderCreate_validate raw) = true
  <-> oc_items raw <> []
      /\ Forall (fun it => 1 <= oi_quantity it) (oc_items raw).
Proof.
  unfold OrderCreate_validate.
  pose proof (validate_order_items_accepts (oc_items raw)) as Hacc.
  destruct (validate_order_items (oc_items raw)) as [l|e] eqn:El; simpl in *.
  - apply validate_order_items_ok in El as ->.
    destruct (oc_items raw) as [|it l]; simpl.
    + split; [discriminate | intros [H _]; congruence].
    + split; [intros _; split; [discriminate | apply Hacc; reflexivity]
             | reflexivity].
  - split; [discriminate|]. intros [_ H]. apply Hacc in H. discriminate.
Qed.

(** X2: [OrderCreate] accepts exactly the payloads with one line at least and
    a quantity of 1 at least on every line, and hands them on unchanged. *)
Theorem OrderCreate_validate_accepts raw :
  (forall order_data, OrderCreate_validate raw = Ok order_data -> order_data = raw)
  /\ (is_ok (OrderCreate_validate raw) = true
      <-> oc_items raw <> []
          /\ Forall (fun it => 1 <= oi_quantity it) (oc_items raw)).
Proof.
  split; [intros d; apply OrderCreate_validate_ok|].
  apply OrderCreate_validate_is_ok.
Qed.

(** ** Address schemas *)

Lemma nonempty_len s : nonempty_string s = true <-> 1 <= len s.
Proof.
  unfold len. destruct s; simpl; split; try discriminate; try lia; reflexivity.
Qed.

Lemma validate_text_ok empty too_long limit v r :
  validate_text empty too_long limit v = Done r ->
  r = strip v /\ 1 <= len r <= limit.
Proof.
  unfold validate_text.
  destruct (nonempty_string (strip v)) eqn:E1; simpl; [|discriminate].
  destruct (limit <? len v) eqn:E2; [discriminate|].
  intros [= <-]. apply Z.ltb_ge in E2. apply nonempty_len in E1.
  pose proof (len_strip v). split; [reflexivity | lia].
Qed.

Lemma validate_text_fixed empty too_long limit r :
  strip r = r -> 1 <= len r <= limit ->
  validate_text empty too_long limit r = Done r.
Proof.
  intros Hs [H1 Hl]. unfold validate_text. rewrite Hs.
  apply nonempty_len in H1. rewrite H1. simpl.
  destruct (limit <? len r) eqn:E; [apply Z.ltb_lt in E; lia | reflexivity].
Qed.

Lemma validate_zip_code_ok v r :
  validate_zip_code v = Done r ->
  r = keep_alnum (strip v) /\ all_alnum r /\ 3 <= len r <= 10.
Proof.
  unfold validate_zip_code.
  destruct (nonempty_string (strip v)); simpl; [|discriminate].
  destruct (len (keep_alnum (strip v)) <? 3) eqn:E1; simpl; [discriminate|].
  destruct (10 <? len (keep_alnum (strip v))) eqn:E2; [discriminate|].
  intros [= <-]. apply Z.ltb_ge in E1, E2.
  split; [reflexivity|]. split; [apply keep_alnum_all | lia].
Qed.

Lemma validate_zip_code_fixed r :
  all_alnum r -> 3 <= len r <= 10 -> validate_zip_code r = Done r.
Proof.
  intros Ha [H3 H10]. unfold validate_zip_code.
  rewrite (all_alnum_strip r Ha), (all_alnum_keep r Ha).
  assert (nonempty_string r = true) as -> by (apply nonempty_len; lia). simpl.
  destruct (len r <? 3) eqn:E1; [apply Z.ltb_lt in E1; lia|].
  destruct (10 <? len r) eqn:E2; [apply Z.ltb_lt in E2; lia|]. reflexivity.
Qed.

Lemma validate_state_ok v r :
  validate_state v = Done r ->
  match r with
  | Some s => (exists s0, v = Some s0 /\ s = strip s0) /\ 1 <= len s <= 50
  | None => True
  end.
Proof.
  unfold validate_state. destruct v as [s0|]; [|intros [= <-]; exact I].
  destruct (nonempty_string (strip s0)) eqn:E1; simpl; [|intros [= <-]; exact I].
  destruct (50 <? len s0) eqn:E2; [discriminate|].
  intros [= <-]. apply Z.ltb_ge in E2. apply nonempty_len in E1.
  pose proof (len_strip s0). split; [eauto | lia].
Qed.

Lemma validate_state_fixed r :
  match r with
  | Some s => strip s = s /\ 1 <= len s <= 50
  | None => True
  end ->
  validate_state r = Done r.
Proof.
  destruct r as [s|]; [|reflexivity]. intros (Hs & H1 & H50).
  unfold validate_state. rewrite Hs.
  apply nonempty_len in H1. rewrite H1. simpl.
  destruct (50 <? len s) eqn:E; [apply Z.ltb_lt in E; lia | reflexivity].
Qed.

(** X3: A payload that [AddressCreate] accepts comes out with street, city and
    country stripped, non-empty and within 100, 50 and 50 characters, a ZIP
    code reduced to its letters and digits, 3 to 10 of them, a state that is
    absent or stripped, non-empty and within 50 characters, and the user and
    the primary flag as given; validating the result again returns it
    unchanged. *)
Theorem AddressCreate_normal_form raw address_data :
  AddressCreate_validate raw = Done address_data ->
  ac_user_id address_data = ac_user_id raw /\
  ac_is_primary address_data = ac_is_primary raw /\
  ac_street address_data = strip (ac_street raw) /\
  1 <= len (ac_street address_data) <= 100 /\
  ac_city address_data = strip (ac_city raw) /\
  1 <= len (ac_city address_data) <= 50 /\
  ac_country address_data = strip (ac_country raw) /\
  1 <= len (ac_country address_data) <= 50 /\
  ac_zip_code address_data = keep_alnum (strip (ac_zip_code raw)) /\
  all_alnum (ac_zip_code address_data) /\
  3 <= len (ac_zip_code address_data) <= 10 /\
  match ac_state address_data with
  | Some s => strip s = s /\ 1 <= len s <= 50
  | None => True
  end /\
  AddressCreate_validate address_data = Done address_data.
Proof.
  intros H. unfold AddressCreate_validate in H. unchain H.
  injection H as <-. simpl.
  apply validate_text_ok in Hx as [-> Hs].
  apply validate_text_ok in Hx0 as [-> Hc].
  apply validate_text_ok in Hx3 as [-> Hco].
  apply validate_zip_code_ok in Hx2 as (-> & Hza & Hz).
  apply validate_state_ok in Hx1.
  assert (match x1 with
          | Some s => strip s = s /\ 1 <= len s <= 50
          | None => True
          end) as Hst.
  { destruct x1 as [s|]; [|exact I].
    destruct Hx1 as [(s0 & _ & ->) Hl]. split; [apply strip_idempotent | exact Hl]. }
  repeat (split; [first [reflexivity | assumption | lia]|]).
  unfold AddressCreate_validate, validate_street, validate_city,
    validate_country. simpl.
  rewrite validate_text_fixed by (auto using strip_idempotent). simpl.
  rewrite validate_text_fixed by (auto using strip_idempotent). simpl.
  rewrite validate_state_fixed by exact Hst. simpl.
  rewrite validate_zip_code_fixed by assumption. simpl.
  rewrite validate_text_fixed by (auto using strip_idempotent). reflexivity.
Qed.

Lemma AddressCreate_normal_form_witness :
  let raw := mkAddressCreate 1%N " 12 Elm Street " "Springfield" (Some "  ")
                             " SW1A-1AA " "UK " true in
  let address_data := mkAddressCreate 1%N "12 Elm Street" "Springfield" None
                                      "SW1A1AA" "UK" true in
  AddressCreate_validate raw = Done address_data /\
  AddressCreate_validate address_data = Done address_data.
Proof.
  intros raw address_data.
  assert (AddressCreate_validate raw = Done address_data) as H
    by (vm_compute; reflexivity).
  split; [exact H|].
  apply (AddressCreate_normal_form raw address_data H).
Defined.

(** ** Products: stock changes, deletion, the low-stock report *)

Lemma set_products_lookup db ps : products (set_products db ps) = ps.
Proof. reflexivity. Qed.

Lemma set_products_same db : set_products db (products db) = db.
Proof. destruct db; reflexivity. Qed.

Lemma update_stock_ok db product_id change db1 p1 :
  update_stock db product_id change = (db1, Ok p1) ->
  exists p0,
    products db !! product_id = Some p0 /\
    0 <= count_in_warehouse p0 + change /\
    p1 = set_count_in_warehouse p0 (count_in_warehouse p0 + change) /\
    db1 = set_products db (<[product_id := p1]> (products db)).
Proof.
  rewrite update_stock_cases.
  destruct (products db !! product_id) as [p0|]; [|discriminate].
  destruct (count_in_warehouse p0 + change <? 0) eqn:E; [discriminate|].
  intros [= <- <-]. apply Z.ltb_ge in E. eauto.
Qed.



(** X5: A successful stock change of a product whose stock was not negative is
    undone by the opposite change: the datastore is again what it was, and the
    product is returned as it was. *)
Theorem update_stock_undone db product_id change db1 p0 p1 :
  products db !! product_id = Some p0 ->
  0 <= count_in_warehouse p0 ->
  update_stock db product_id change = (db1, Ok p1) ->
  update_stock db1 product_id (- change) = (db, Ok p0).
Proof.
  intros Hp0 Hpos H.
  apply update_stock_ok in H as (p0' & Hp0' & H0 & -> & ->).
  rewrite Hp0 in Hp0'. injection Hp0' as <-.
  rewrite update_stock_cases. simpl.
  rewrite lookup_insert_eq. simpl.
  replace (count_in_warehouse p0 + change + - change)
    with (count_in_warehouse p0) by lia.
  destruct (count_in_warehouse p0 <? 0) eqn:E; [apply Z.ltb_lt in E; lia|].
  assert (set_count_in_warehouse
            (set_count_in_warehouse p0 (count_in_warehouse p0 + change))
            (count_in_warehouse p0) = p0) as ->
    by (destruct p0; reflexivity).
  rewrite insert_insert_eq, set_products_twice, (insert_id _ _ _ Hp0).
  destruct db; reflexivity.
Qed.

Lemma update_stock_undone_witness :
  update_stock (update_stock example_db 2%N (-5)).1 2%N (- -5)
  = (example_db, Ok (mkProduct "Gadget" 1 5 (mkDecimal 1550 (-2)))).
Proof.
  apply (update_stock_undone example_db 2%N (-5) _ _
           (mkProduct "Gadget" 1 0 (mkDecimal 1550 (-2)))).
  - vm_compute. reflexivity.
  - simpl. lia.
  - vm_compute. reflexivity.
Defined.

Lemma active_orders_all db product_id :
  items_have_orders db ->
  active_orders db product_id
  = List.filter (fun it => bool_decide (item_product_id it = product_id))
                (order_items db).
Proof.
  unfold items_have_orders, active_orders.
  induction (order_items db) as [|it l IH]; [reflexivity|].
  intros H. apply Forall_cons in H as [Hit Hl]. simpl.
  rewrite (bool_decide_eq_true_2 _ Hit), andb_true_r, (IH Hl). reflexivity.
Qed.

(** X6: In a datastore whose order items all belong to an order, deleting a
    product fails with the not-found error when the product does not exist,
    fails with the referenced-in-orders error when an order item names it, and
    otherwise removes the row of the product and nothing else. *)
Theorem ProductService_delete_cases db product_id :
  items_have_orders db ->
  ProductService_delete db product_id =
  match products db !! product_id with
  | None => (db, Err (ValueError (ProductWithIdNotFound product_id)))
  | Some _ =>
      if existsb (fun it => bool_decide (item_product_id it = product_id))
                 (order_items db)
      then (db, Err (ValueError ProductReferencedInOrders))
      else (set_products db (delete product_id (products db)), Ok tt)
  end.
Proof.
  intros Hwf. unfold ProductService_delete, ProductRepository_delete.
  destruct (products db !! product_id) as [p|]; [|reflexivity].
  rewrite (active_orders_all db product_id Hwf).
  destruct (existsb _ (order_items db)) eqn:E.
  - apply existsb_exists in E as (it & Hin & Hit).
    destruct (List.filter _ (order_items db)) as [|it' l] eqn:Ef; [|reflexivity].
    assert (In it (List.filter
                     (fun it => bool_decide (item_product_id it = product_id))
                     (order_items db))) as Hin'
      by (apply List.filter_In; auto).
    rewrite Ef in Hin'. destruct Hin'.
  - assert (Forall (fun it => bool_decide (item_product_id it = product_id) = false)
                   (order_items db)) as Hnone.
    { apply List.Forall_forall. intros it Hin.
      destruct (bool_decide (item_product_id it = product_id)) eqn:Eb;
        [|reflexivity].
      rewrite <- E. symmetry. apply existsb_exists. eauto. }
    rewrite (filter_none _ _ Hnone).
    rewrite filter_all.
    + destruct db; reflexivity.
    + eapply Forall_impl; [exact Hnone|]. simpl. intros it ->. reflexivity.
Qed.

Lemma ProductService_delete_cases_witness :
  ProductService_delete example_db_with_order 1%N
  = (example_db_with_order, Err (ValueError ProductReferencedInOrders))
  /\ ProductService_delete example_db_with_order 2%N
     = (set_products example_db_with_order
          (delete 2%N (products example_db_with_order)), Ok tt).
Proof.
  assert (items_have_orders example_db_with_order) as Hwf.
  { unfold items_have_orders. simpl. repeat constructor.
    vm_compute. eexists. reflexivity. }
  split; rewrite (ProductService_delete_cases _ _ Hwf); vm_compute; reflexivity.
Defined.

(** *** The low-stock report *)

Lemma scan_elem_of {A} (table : gmap UUID A) id a :
  (id, a) ∈ scan table <-> table !! id = Some a.
Proof. unfold scan. apply elem_of_map_to_list. Qed.

Lemma scan_NoDup {A} (table : gmap UUID A) : NoDup (scan table).*1.
Proof. unfold scan. apply NoDup_fst_map_to_list. Qed.

Lemma NoDup_fst_sublist {A B} (l k : list (A * B)) :
  sublist l k -> NoDup k.*1 -> NoDup l.*1.
Proof.
  intros Hs Hk. eapply sublist_NoDup; [exact Hk|].
  apply fmap_sublist. exact Hs.
Qed.

Lemma scan_filter {A} (P : UUID * A -> Prop) `{!forall x, Decision (P x)}
    (table : gmap UUID A) :
  scan (filter P table) ≡ₚ filter P (scan table).
Proof.
  unfold scan. apply NoDup_Permutation.
  - apply NoDup_map_to_list.
  - apply NoDup_filter, NoDup_map_to_list.
  - intros [id a]. rewrite list_elem_of_filter, !elem_of_map_to_list.
    rewrite map_lookup_filter_Some. tauto.
Qed.

Lemma scan_length {A} (table : gmap UUID A) : length (scan table) = size table.
Proof. unfold scan. apply length_map_to_list. Qed.

(** X7: The low-stock report is sorted by increasing stock, lists no product
    twice, lists only products of the datastore whose stock is at most the
    threshold, has as many rows as the limit allows, and leaves a low-stock
    product out only when the report is full of products with at most that
    stock. *)
Theorem get_low_stock_products_report db threshold limit :
  let report := get_low_stock_products db threshold limit in
  StronglySorted by_stock report /\
  NoDup report.*1 /\
  (forall id p, (id, p) ∈ report ->
     products db !! id = Some p /\ count_in_warehouse p <= threshold) /\
  length report
  = Nat.min limit
      (size (filter (fun ip : UUID * Product =>
                       count_in_warehouse ip.2 <= threshold) (products db))) /\
  (forall id p, products db !! id = Some p ->
     count_in_warehouse p <= threshold -> (id, p) ∉ report ->
     length report = limit /\
     forall id' p', (id', p') ∈ report ->
                    count_in_warehouse p' <= count_in_warehouse p).
Proof.
  intros report. unfold report, get_low_stock_products.
  set (low := fun ip : UUID * Product => count_in_warehouse ip.2 <= threshold).
  set (rows := filter low (scan (products db))).
  pose proof (StronglySorted_merge_sort by_stock rows) as Hsorted.
  pose proof (merge_sort_Permutation by_stock rows) as Hperm.
  set (sorted := merge_sort by_stock rows) in *.
  assert (NoDup rows.*1) as Hnd.
  { eapply NoDup_fst_sublist; [apply sublist_filter | apply scan_NoDup]. }
  assert (forall id p, (id, p) ∈ sorted <->
                       products db !! id = Some p /\ count_in_warehouse p <= threshold)
    as Hin.
  { intros id p. rewrite Hperm. unfold rows.
    rewrite list_elem_of_filter, scan_elem_of. unfold low. simpl. tauto. }
  rewrite <- (take_drop limit sorted) in Hsorted.
  split; [eapply StronglySorted_app_1_l; exact Hsorted|].
  split.
  { eapply NoDup_fst_sublist; [apply sublist_take|]. rewrite Hperm. exact Hnd. }
  split.
  { intros id p Hel. apply Hin.
    eapply (sublist_subseteq _ _ (sublist_take sorted limit)). exact Hel. }
  split.
  { rewrite length_take. f_equal.
    rewrite Hperm. unfold rows.
    rewrite <- (scan_filter low (products db)). apply scan_length. }
  intros id p Hp Hlow Hnot.
  assert ((id, p) ∈ sorted) as Hel by (apply Hin; auto).
  rewrite <- (take_drop limit sorted) in Hel.
  apply elem_of_app in Hel as [Hel|Hel]; [contradiction|].
  split.
  - rewrite length_take.
    destruct (decide (limit <= length sorted)%nat) as [Hle|Hgt]; [lia|].
    rewrite drop_ge in Hel by lia. inversion Hel.
  - intros id' p' Hel'.
    apply (StronglySorted_app_1_elem_of by_stock _ _ (id', p') (id, p) Hsorted
             Hel' Hel).
Qed.

(** *** Creating a product through the three layers *)

Lemma len_ltb_3 s : 3 <= len s -> (len s <? 3) = false.
Proof. intros H. apply Z.ltb_ge. exact H. Qed.

Lemma create_product_layers db new_id raw :
  create_product db new_id raw =
  match ProductCreate_validate raw with
  | Err e => (db, Err e)
  | Ok product_data =>
      if coefficient (pc_price product_data) <=? 0
      then (db, Err (ValueError PriceNotPositive))
      else
        match products db !! new_id with
        | Some _ => (db, Err IntegrityError)
        | None =>
            let new_product :=
              mkProduct (pc_label product_data)
                        (pc_count_in_package product_data)
                        (pc_count_in_warehouse product_data)
                        (pc_price product_data) in
            (set_products db (<[new_id := new_product]> (products db)),
             Ok (new_id, new_product))
        end
  end.
Proof.
  unfold create_product.
  destruct (ProductCreate_validate raw) as [d|e] eqn:Hv; [|reflexivity].
  apply ProductCreate_validate_bounds in Hv
    as (_ & Hlen & _ & Hpk & _ & Hw & Hround & Hc & _).
  unfold ProductService_create, ProductRepository_create, dec_le_zero.
  rewrite len_ltb_3 by lia.
  destruct (pc_count_in_package d <? 1) eqn:E1; [apply Z.ltb_lt in E1; lia|].
  destruct (pc_count_in_warehouse d <? 0) eqn:E2; [apply Z.ltb_lt in E2; lia|].
  destruct (coefficient (pc_price d) <=? 0) eqn:E3; [reflexivity|].
  apply Z.leb_gt in E3.
  rewrite quantize_fixpoint; [reflexivity|].
  split; [apply Hround|].
  rewrite Z.abs_eq by lia.
  change (10 ^ 28) with 10000000000000000000000000000. lia.
Qed.


Lemma get_low_stock_products_report_witness :
  get_low_stock_products
    (update_stock (update_stock example_db 1%N (-97)).1 2%N 2).1 10 1
  = [(1%N, mkProduct "Widget" 1 3 (mkDecimal 1000 (-2)))]
  /\ count_in_warehouse (mkProduct "Widget" 1 3 (mkDecimal 1000 (-2))) <= 7.
Proof.
  set (db := (update_stock (update_stock example_db 1%N (-97)).1 2%N 2).1).
  assert (get_low_stock_products db 10 1
          = [(1%N, mkProduct "Widget" 1 3 (mkDecimal 1000 (-2)))]) as Hr
    by (vm_compute; reflexivity).
  split; [exact Hr|].
  destruct (get_low_stock_products_report db 10 1) as (_ & _ & _ & _ & Hmin).
  destruct (Hmin 2%N (mkProduct "Gadget" 1 7 (mkDecimal 1550 (-2)))) as [_ Hle].
  - vm_compute. reflexivity.
  - simpl. lia.
  - rewrite Hr. intros Hel. apply list_elem_of_singleton in Hel. discriminate.
  - apply (Hle 1%N). rewrite Hr. apply list_elem_of_here.
Defined.

(** ** Orders: what a created order leaves in the datastore *)

(** Every product that the session has loaded is one that it has modified,
    as long as the lines succeed. *)
Lemma process_item_loaded_dirty db order_id ses total item ses' total' :
  process_item db order_id ses total item = (ses', Ok total') ->
  (forall pid, is_Some (identity_map ses !! pid) -> pid ∈ dirty ses) ->
  (forall pid, is_Some (identity_map ses' !! pid) -> pid ∈ dirty ses') /\
  (forall pid, pid ∈ dirty ses' ->
               pid ∈ dirty ses \/ pid = oi_product_id item).
Proof.
  intros H Hinv. unfold process_item, session_get in H.
  destruct (identity_map ses !! oi_product_id item) as [p|] eqn:Hid.
  - destruct (count_in_warehouse p <? oi_quantity item); [discriminate|].
    injection H as Hs _. subst ses'. simpl. split.
    + intros pid. rewrite lookup_insert_is_Some.
      intros [<-|[_ Hs]]; [set_solver | apply Hinv in Hs; set_solver].
    + intros pid. rewrite elem_of_union, elem_of_singleton. tauto.
  - destruct (products db !! oi_product_id item) as [p|] eqn:Hp; [|discriminate].
    destruct (count_in_warehouse p <? oi_quantity item); [discriminate|].
    injection H as Hs _. subst ses'. simpl. split.
    + intros pid. rewrite !lookup_insert_is_Some.
      intros [<-|[_ [<-|[_ Hs]]]];
        [set_solver | set_solver | apply Hinv in Hs; set_solver].
    + intros pid. rewrite elem_of_union, elem_of_singleton. tauto.
Qed.

Lemma process_items_loaded_dirty db order_id items :
  forall ses total ses' total',
    process_items db order_id ses total items = (ses', Ok total') ->
    (forall pid, is_Some (identity_map ses !! pid) -> pid ∈ dirty ses) ->
    (forall pid, is_Some (identity_map ses' !! pid) -> pid ∈ dirty ses') /\
    (forall pid, pid ∈ dirty ses' ->
                 pid ∈ dirty ses \/ In pid (map oi_product_id items)).
Proof.
  induction items as [|item rest IH]; intros ses total ses' total' H Hinv.
  - injection H as <- _. auto.
  - simpl in H.
    destruct (process_item db order_id ses total item) as [ses1 [t1|e]] eqn:H1;
      [|discriminate].
    apply process_item_loaded_dirty in H1 as [Hinv1 Hd1]; [|exact Hinv].
    apply IH in H as [Hinv' Hd']; [|exact Hinv1].
    split; [exact Hinv'|].
    intros pid Hpid. apply Hd' in Hpid as [Hpid|Hpid].
    + apply Hd1 in Hpid as [Hpid| ->]; [auto | right; left; reflexivity].
    + right. right. exact Hpid.
Qed.

(** The rows of the products after the commit of a session in which the
    lines [items] have succeeded. *)
Lemma flush_after_lines db order_id ses1 total items ses2 total' product_id :
  identity_map ses1 = ∅ ->
  process_items db order_id ses1 total items = (ses2, Ok total') ->
  flush_products ses2 (products db) !! product_id
  = (fun p => set_count_in_warehouse p
                (count_in_warehouse p - requested product_id items))
      <$> products db !! product_id.
Proof.
  intros Hempty H.
  pose proof (process_items_loaded_dirty _ _ _ _ _ _ _ H) as [Hinv _].
  { intros pid. rewrite Hempty, lookup_empty. intros [? ?]; discriminate. }
  apply process_items_ok in H as (Hview & _).
  specialize (Hview product_id).
  rewrite !current_product_lookup in Hview.
  rewrite Hempty, lookup_empty in Hview.
  rewrite flush_products_lookup.
  destruct (products db !! product_id) as [row|] eqn:Hrow; [|reflexivity].
  simpl in *.
  destruct (identity_map ses2 !! product_id) as [p|] eqn:Hid.
  - rewrite bool_decide_eq_true_2 by (apply Hinv; eauto).
    injection Hview as ->. reflexivity.
  - injection Hview as Hview. congruence.
Qed.

Lemma current_product_unloaded db ses product_id :
  identity_map ses = ∅ ->
  current_product db ses product_id = products db !! product_id.
Proof.
  intros Hempty. rewrite current_product_lookup, Hempty, lookup_empty.
  reflexivity.
Qed.

(** The tables after a successful [createOrder], whatever the order items
    of the datastore are. *)
Lemma createOrder_tables new_id raw db db' res :
  createOrder new_id raw db = (db', Ok res) ->
  exists rows,
    Forall2 (fun line it =>
               exists p, products db !! oi_product_id line = Some p /\
                         it = order_item_of new_id (price p) line)
            (oc_items raw) rows /\
    NoDup (item_key <$> (order_items db ++ rows)) /\
    orders db !! new_id = None /\
    foreign_keys db' = foreign_keys db /\
    users db' = users db /\
    addresses db' = addresses db /\
    orders db'
    = <[new_id := mkOrder (oc_user_id raw) (oc_address_id raw)]> (orders db) /\
    order_items db' = order_items db ++ rows /\
    (forall product_id,
        products db' !! product_id
        = (fun p => set_count_in_warehouse p
                      (count_in_warehouse p
                       - requested product_id (oc_items raw)))
            <$> products db !! product_id).
Proof.
  intros H.
  apply createOrder_ok in H as (ses' & _ & H).
  apply OrderRepository_create_ok in H
    as (ses1 & ses2 & total & Hadd & Hloop & Hcommit & _).
  apply session_add_order_flush_ok in Hadd as [Hfresh ->].
  pose proof (process_items_ok _ _ _ _ _ _ _ Hloop)
    as (_ & _ & Horders & rows & Hitems & Hrows & _).
  simpl in Horders, Hitems.
  assert (forall pid,
             flush_products ses2 (products db) !! pid
             = (fun p => set_count_in_warehouse p
                           (count_in_warehouse p - requested pid (oc_items raw)))
                 <$> products db !! pid) as Hflush.
  { intros pid. eapply flush_after_lines; [|exact Hloop]. reflexivity. }
  apply session_commit_ok in Hcommit as (_ & Hic & _ & -> & _).
  exists rows. simpl.
  split.
  { eapply Forall2_impl; [exact Hrows|]. simpl. intros line it (p & Hp & ->).
    rewrite current_product_unloaded in Hp by reflexivity. eauto. }
  split.
  { unfold items_constraints in Hic. apply andb_true_iff in Hic as [Hic _].
    apply bool_decide_eq_true in Hic. rewrite Hitems in Hic. exact Hic. }
  split; [exact Hfresh|].
  repeat (split; [reflexivity|]).
  split.
  { rewrite Horders. simpl. rewrite <- insert_union_l, (left_id_L ∅ (∪)).
    reflexivity. }
  split; [rewrite Hitems; reflexivity | exact Hflush].
Qed.

Lemma createOrder_state new_id raw db db' res :
  items_have_orders db ->
  createOrder new_id raw db = (db', Ok res) ->
  let new_order := mkOrder (oc_user_id raw) (oc_address_id raw) in
  res_id res = new_id /\ res_order res = new_order /\
  res_items res = items_of db' new_id /\
  Forall2 (fun line it =>
             exists p, products db !! oi_product_id line = Some p /\
                       it = order_item_of new_id (price p) line)
          (oc_items raw) (res_items res) /\
  foreign_keys db' = foreign_keys db /\
  users db' = users db /\
  addresses db' = addresses db /\
  orders db !! new_id = None /\
  orders db' = <[new_id := new_order]> (orders db) /\
  order_items db' = order_items db ++ res_items res /\
  (forall product_id,
      products db' !! product_id
      = (fun p => set_count_in_warehouse p
                    (count_in_warehouse p - requested product_id (oc_items raw)))
          <$> products db !! product_id).
Proof.
  intros Hwf H new_order.
  apply createOrder_ok in H as (ses' & _ & H).
  pose proof (OrderRepository_create_rows _ _ _ _ _ _ Hwf H)
    as (_ & _ & rows & _ & Hitems & _ & Hres & Hrows).
  apply OrderRepository_create_ok in H as (ses1 & ses2 & total & Hadd & Hloop & Hcommit & ->).
  apply session_add_order_flush_ok in Hadd as [Hfresh ->].
  pose proof (process_items_ok _ _ _ _ _ _ _ Hloop) as (_ & _ & Horders & _).
  simpl in Horders.
  assert (forall pid,
             flush_products ses2 (products db) !! pid
             = (fun p => set_count_in_warehouse p
                           (count_in_warehouse p - requested pid (oc_items raw)))
                 <$> products db !! pid) as Hflush.
  { intros pid. eapply flush_after_lines; [|exact Hloop]. reflexivity. }
  apply session_commit_ok in Hcommit as (_ & _ & _ & -> & _).
  simpl in *. rewrite Hres.
  split; [reflexivity|]. split; [reflexivity|].
  split; [reflexivity|].
  repeat (split; [first [reflexivity | assumption]|]).
  split.
  - rewrite Horders. simpl. rewrite <- insert_union_l, (left_id_L ∅ (∪)).
    reflexivity.
  - split; [|exact Hflush].
    rewrite <- Hitems. reflexivity.
Qed.



(** *** When [createOrder] succeeds *)

Lemma process_items_succeeds db order_id items :
  forall ses total,
    (forall pre item post, items = pre ++ item :: post ->
       exists p, current_product db ses (oi_product_id item) = Some p /\
                 oi_quantity item
                 <= count_in_warehouse p - requested (oi_product_id item) pre) ->
    exists ses' total',
      process_items db order_id ses total items = (ses', Ok total').
Proof.
  induction items as [|item rest IH]; intros ses total Hlines.
  - simpl. eauto.
  - simpl.
    destruct (Hlines [] item rest eq_refl) as (p & Hp & Hq). simpl in Hq.
    destruct (process_item db order_id ses total item) as [ses1 [t1|e]] eqn:H1.
    + apply IH. intros pre it post ->.
      destruct (Hlines (item :: pre) it post eq_refl) as (p' & Hp' & Hq').
      apply process_item_ok in H1 as (p0 & Hp0 & _ & _ & _ & _ & Hview).
      rewrite Hview. simpl in Hq'.
      destruct (decide (oi_product_id it = oi_product_id item)) as [Heq|Hne].
      * rewrite Heq in Hp'. rewrite Hp0 in Hp'. injection Hp' as <-.
        rewrite bool_decide_eq_true_2 in Hq' by (symmetry; exact Heq).
        eexists. split; [reflexivity|]. simpl. rewrite Heq. rewrite Heq in Hq'. lia.
      * rewrite bool_decide_eq_false_2 in Hq' by (intros Hc; apply Hne; symmetry; exact Hc).
        exists p'. split; [exact Hp' | lia].
    + apply process_item_err in H1 as [_ H1]. rewrite Hp in H1.
      destruct H1 as [H1 _]. lia.
Qed.

Lemma requested_nonneg product_id items :
  Forall (fun it => 1 <= oi_quantity it) items -> 0 <= requested product_id items.
Proof.
  induction 1 as [|it l Hit _ IH]; simpl; [lia|].
  destruct (bool_decide (oi_product_id it = product_id)); lia.
Qed.

Lemma rows_keys order_id db items rows :
  Forall2 (fun line it =>
             exists p, products db !! oi_product_id line = Some p /\
                       it = order_item_of order_id (price p) line)
          items rows ->
  item_key <$> rows = (fun line => (order_id, oi_product_id line)) <$> items.
Proof.
  induction 1 as [|line it items rows (p & _ & ->) _ IH]; [reflexivity|].
  rewrite !fmap_cons, IH. reflexivity.
Qed.

Lemma keys_NoDup (order_id : UUID) (items : list OrderItemCreate) :
  NoDup ((fun line => (order_id, oi_product_id line)) <$> items)
  <-> NoDup (oi_product_id <$> items).
Proof.
  rewrite (list_fmap_compose oi_product_id (fun pid => (order_id, pid))).
  apply (NoDup_fmap (fun pid : UUID => (order_id, pid))).
Qed.

Lemma Forall2_elem_of_l {A B} (P : A -> B -> Prop) l k x :
  Forall2 P l k -> x ∈ l -> exists y, y ∈ k /\ P x y.
Proof.
  induction 1 as [|x' y' l k Hxy _ IH]; intros Hin.
  - inversion Hin.
  - apply elem_of_cons in Hin as [->|Hin].
    + exists y'. split; [apply list_elem_of_here | exact Hxy].
    + destruct (IH Hin) as (y & Hy & HP).
      exists y. split; [apply list_elem_of_further, Hy | exact HP].
Qed.

Lemma Forall2_elem_of_r {A B} (P : A -> B -> Prop) l k y :
  Forall2 P l k -> y ∈ k -> exists x, x ∈ l /\ P x y.
Proof.
  induction 1 as [|x' y' l k Hxy _ IH]; intros Hin.
  - inversion Hin.
  - apply elem_of_cons in Hin as [->|Hin].
    + exists x'. split; [apply list_elem_of_here | exact Hxy].
    + destruct (IH Hin) as (x & Hx & HP).
      exists x. split; [apply list_elem_of_further, Hx | exact HP].
Qed.

Lemma fmap_map {A B} (f : A -> B) (l : list A) : f <$> l = map f l.
Proof. induction l as [|x l IH]; [reflexivity|]. simpl. rewrite <- IH. reflexivity. Qed.

Lemma order_constraints_true db order_id o :
  order_constraints db order_id o = true <->
  orders db !! order_id = None /\
  (foreign_keys db = true ->
   is_Some (users db !! order_user_id o)
   /\ is_Some (addresses db !! order_address_id o)).
Proof.
  unfold order_constraints.
  rewrite andb_true_iff, orb_true_iff, negb_true_iff, andb_true_iff,
    !bool_decide_eq_true.
  destruct (foreign_keys db); intuition discriminate.
Qed.

(** The commit of the session in which the lines have succeeded. *)
Lemma commit_after_lines db new_id raw ses2 total rows :
  items_have_orders db ->
  NoDup (item_key <$> order_items db) ->
  order_constraints db new_id
    (mkOrder (oc_user_id raw) (oc_address_id raw)) = true ->
  NoDup (oi_product_id <$> oc_items raw) ->
  process_items db new_id
    (mkSession ∅ ∅ [(new_id, mkOrder (oc_user_id raw) (oc_address_id raw))] [])
    (mkDecimal 0 (-2)) (oc_items raw)
  = (ses2, Ok total) ->
  new_items ses2 = rows ->
  Forall2 (fun line it =>
             exists p, products db !! oi_product_id line = Some p /\
                       it = order_item_of new_id (price p) line)
          (oc_items raw) rows ->
  exists db' ses3, session_commit db ses2 = (db', ses3, Ok tt).
Proof.
  intros orders_of_items items_keys Hoc Hnd Hloop Hitems Hrows.
  pose proof (process_items_ok _ _ _ _ _ _ _ Hloop) as (_ & _ & Horders & _).
  simpl in Horders.
  pose proof (proj1 (order_constraints_true _ _ _) Hoc) as [Hfresh _].
  assert (orders_constraints db ses2 = true) as H1.
  { unfold orders_constraints. rewrite Horders.
    apply andb_true_iff. split.
    - apply bool_decide_eq_true. apply NoDup_singleton.
    - simpl. rewrite andb_true_r. exact Hoc. }
  assert (items_constraints db ses2 = true) as H2.
  { unfold items_constraints. rewrite Hitems, Horders.
    apply andb_true_iff. split.
    - apply bool_decide_eq_true. rewrite fmap_app. apply NoDup_app.
      split; [exact items_keys|]. split.
      + intros key Hold Hnew.
        rewrite (rows_keys _ _ _ _ Hrows) in Hnew.
        apply list_elem_of_fmap in Hold as (it & -> & Hit).
        apply list_elem_of_fmap in Hnew as (line & Hkey & _).
        injection Hkey as Hkey _.
        unfold items_have_orders in orders_of_items.
        rewrite List.Forall_forall in orders_of_items.
        apply list_elem_of_In in Hit.
        apply orders_of_items in Hit as [o Ho].
        rewrite Hkey, Hfresh in Ho. discriminate.
      + rewrite (rows_keys _ _ _ _ Hrows). apply keys_NoDup. exact Hnd.
    - apply orb_true_iff. right. apply forallb_forall. intros it Hit.
      apply list_elem_of_In in Hit.
      destruct (Forall2_elem_of_r _ _ _ _ Hrows Hit) as (line & _ & p & Hp & ->).
      apply andb_true_iff. split.
      + apply bool_decide_eq_true. simpl. eauto.
      + apply orb_true_iff. right. apply bool_decide_eq_true. simpl.
        apply list_elem_of_here. }
  assert (dirty_rows_exist db ses2 = true) as H3.
  { unfold dirty_rows_exist. apply bool_decide_eq_true. intros pid Hpid.
    pose proof (process_items_loaded_dirty _ _ _ _ _ _ _ Hloop) as [_ Hd].
    { intros ?. simpl. rewrite lookup_empty. intros [? ?]; discriminate. }
    apply Hd in Hpid as [Hpid|Hpid]; [simpl in Hpid; set_solver|].
    rewrite <- fmap_map in Hpid. apply list_elem_of_In in Hpid.
    apply list_elem_of_fmap in Hpid as (line & -> & Hline).
    destruct (Forall2_elem_of_l _ _ _ _ Hrows Hline) as (it & _ & p & Hp & _).
    eauto. }
  unfold session_commit. rewrite H1, H2, H3. simpl. eauto.
Qed.


Lemma createOrder_succeeds new_id raw db :
  items_have_orders db ->
  NoDup (item_key <$> order_items db) ->
  oc_items raw <> [] ->
  Forall (fun it => 1 <= oi_quantity it) (oc_items raw) ->
  orders db !! new_id = None ->
  (foreign_keys db = true ->
   is_Some (users db !! oc_user_id raw)
   /\ is_Some (addresses db !! oc_address_id raw)) ->
  NoDup (oi_product_id <$> oc_items raw) ->
  Forall (fun it => exists p, products db !! oi_product_id it = Some p /\
                              oi_quantity it <= count_in_warehouse p)
         (oc_items raw) ->
  exists db' res, createOrder new_id raw db = (db', Ok res).
Proof.
  intros Hwf Hkeys Hne Hq Hfresh Hfk Hnd Hstock.
  assert (OrderCreate_validate raw = Ok raw) as Hv.
  { pose proof (proj2 (OrderCreate_validate_is_ok raw) (conj Hne Hq)) as Hok.
    destruct (OrderCreate_validate raw) as [d|] eqn:Hv; [|discriminate].
    apply OrderCreate_validate_ok in Hv as ->. reflexivity. }
  set (new_order := mkOrder (oc_user_id raw) (oc_address_id raw)).
  assert (order_constraints db new_id new_order = true) as Hoc
    by (apply order_constraints_true; auto).
  set (ses1 := mkSession ∅ ∅ [(new_id, new_order)] []).
  assert (session_add_order_flush db new_session new_id new_order
          = (ses1, Ok tt)) as Hadd.
  { unfold session_add_order_flush. rewrite Hoc.
    rewrite bool_decide_eq_true_2 by (simpl; apply not_elem_of_nil).
    reflexivity. }
  destruct (process_items_succeeds db new_id (oc_items raw) ses1
              (mkDecimal 0 (-2))) as (ses2 & total & Hloop).
  { intros pre item post Hsplit.
    rewrite List.Forall_forall in Hstock.
    destruct (Hstock item) as (p & Hp & Hle).
    { rewrite Hsplit. apply in_elt. }
    exists p. rewrite current_product_unloaded by reflexivity.
    split; [exact Hp|].
    rewrite requested_not_mentioned; [lia|].
    rewrite Hsplit, fmap_app, fmap_cons in Hnd.
    apply NoDup_app in Hnd as (_ & Hnd & _).
    rewrite <- fmap_map. intros Hin. apply list_elem_of_In in Hin.
    apply (Hnd _ Hin). apply list_elem_of_here. }
  pose proof (process_items_ok _ _ _ _ _ _ _ Hloop)
    as (_ & _ & _ & rows & Hitems & Hrows & _).
  simpl in Hitems.
  assert (Forall2 (fun line it =>
                     exists p, products db !! oi_product_id line = Some p /\
                               it = order_item_of new_id (price p) line)
                  (oc_items raw) rows) as Hrows'.
  { eapply Forall2_impl; [exact Hrows|]. simpl. intros line it (p & Hp & ->).
    rewrite current_product_unloaded in Hp by reflexivity. eauto. }
  destruct (commit_after_lines db new_id raw ses2 total rows Hwf Hkeys
              Hoc Hnd Hloop Hitems Hrows') as (db' & ses3 & Hcommit).
  assert (OrderRepository_create new_id raw db new_session
          = (db', ses3, Ok (mkOrderResult new_id new_order (items_of db' new_id))))
    as Hcreate.
  { unfold OrderRepository_create. fold new_order. rewrite Hadd.
    fold ses1. rewrite Hloop, Hcommit. reflexivity. }
  exists db', (mkOrderResult new_id new_order (items_of db' new_id)).
  unfold createOrder. rewrite Hv. unfold provide_db_session.
  rewrite Hcreate.
  rewrite (OrderRepository_create_committed _ _ _ _ _ _ _ Hcreate).
  reflexivity.
Qed.

Lemma createOrder_succeeded new_id raw db db' res :
  createOrder new_id raw db = (db', Ok res) ->
  oc_items raw <> [] /\
  Forall (fun it => 1 <= oi_quantity it) (oc_items raw) /\
  orders db !! new_id = None /\
  (foreign_keys db = true ->
   is_Some (users db !! oc_user_id raw)
   /\ is_Some (addresses db !! oc_address_id raw)) /\
  NoDup (oi_product_id <$> oc_items raw) /\
  Forall (fun it => exists p, products db !! oi_product_id it = Some p /\
                              oi_quantity it <= count_in_warehouse p)
         (oc_items raw).
Proof.
  intros H. apply createOrder_ok in H as (ses' & Hv & H).
  assert (oc_items raw <> [] /\
          Forall (fun it => 1 <= oi_quantity it) (oc_items raw)) as [Hne Hq].
  { apply OrderCreate_validate_is_ok. rewrite Hv. reflexivity. }
  apply OrderRepository_create_ok in H
    as (ses1 & ses2 & total & Hadd & Hloop & Hcommit & _).
  assert (order_constraints db new_id
            (mkOrder (oc_user_id raw) (oc_address_id raw)) = true) as Hoc.
  { unfold session_add_order_flush in Hadd.
    destruct (order_constraints db new_id _); [reflexivity|].
    simpl in Hadd. discriminate. }
  apply order_constraints_true in Hoc as [Hfresh Hfk]. simpl in Hfk.
  apply session_add_order_flush_ok in Hadd as [_ ->].
  pose proof (process_items_ok _ _ _ _ _ _ _ Hloop)
    as (_ & Hlines & _ & rows & Hitems & Hrows & _).
  simpl in Hitems.
  apply session_commit_ok in Hcommit as (_ & Hic & _).
  split; [exact Hne|]. split; [exact Hq|]. split; [exact Hfresh|].
  split; [exact Hfk|]. split.
  - unfold items_constraints in Hic. apply andb_true_iff in Hic as [Hic _].
    apply bool_decide_eq_true in Hic. rewrite fmap_app in Hic.
    apply NoDup_app in Hic as (_ & _ & Hic). rewrite Hitems in Hic.
    assert (Forall2 (fun line it =>
                       exists p, products db !! oi_product_id line = Some p /\
                                 it = order_item_of new_id (price p) line)
                    (oc_items raw) rows) as Hrows'.
    { eapply Forall2_impl; [exact Hrows|]. simpl. intros line it (p & Hp & ->).
      rewrite current_product_unloaded in Hp by reflexivity. eauto. }
    rewrite (rows_keys _ _ _ _ Hrows') in Hic. apply keys_NoDup in Hic.
    exact Hic.
  - apply List.Forall_forall. intros item Hin.
    apply in_split in Hin as (pre & post & Hsplit).
    destruct (Hlines pre item post Hsplit) as (p & Hp & Hle).
    rewrite current_product_unloaded in Hp by reflexivity.
    exists p. split; [exact Hp|].
    assert (0 <= requested (oi_product_id item) pre); [|lia].
    apply requested_nonneg. rewrite Hsplit in Hq.
    apply Forall_app in Hq as [Hq _]. exact Hq.
Qed.

(** X10: On a datastore whose order items have distinct keys and all belong to
    an order, [createOrder] succeeds exactly when the payload has one line at
    least, every quantity is 1 at least, the identifier of the order is new,
    the user and the address exist if foreign keys are checked, no two lines
    name the same product, and every line names a product that has the
    quantity in stock. *)
Theorem createOrder_succeeds_iff new_id raw db :
  items_have_orders db ->
  NoDup (item_key <$> order_items db) ->
  is_ok (createOrder new_id raw db).2 = true <->
  oc_items raw <> [] /\
  Forall (fun it => 1 <= oi_quantity it) (oc_items raw) /\
  orders db !! new_id = None /\
  (foreign_keys db = true ->
   is_Some (users db !! oc_user_id raw)
   /\ is_Some (addresses db !! oc_address_id raw)) /\
  NoDup (oi_product_id <$> oc_items raw) /\
  Forall (fun it => exists p, products db !! oi_product_id it = Some p /\
                              oi_quantity it <= count_in_warehouse p)
         (oc_items raw).
Proof.
  intros Hwf Hkeys. split.
  - destruct (createOrder new_id raw db) as [db' [res|e]] eqn:H; [|discriminate].
    intros _. eapply createOrder_succeeded, H.
  - intros (Hne & Hq & Hfresh & Hfk & Hnd & Hstock).
    destruct (createOrder_succeeds new_id raw db Hwf Hkeys Hne Hq Hfresh Hfk
                Hnd Hstock) as (db' & res & ->).
    reflexivity.
Qed.

Lemma createOrder_succeeds_iff_witness :
  is_ok (createOrder 7%N (mkOrderCreate 1%N 1%N [mkOrderItemCreate 1%N 3])
                     example_db).2 = true.
Proof.
  apply (createOrder_succeeds_iff 7%N
           (mkOrderCreate 1%N 1%N [mkOrderItemCreate 1%N 3]) example_db).
  - apply Forall_nil_2.
  - apply NoDup_nil_2.
  - simpl. split; [discriminate|].
    split; [repeat constructor; simpl; lia|].
    split; [reflexivity|].
    split; [intros _; split; eexists; vm_compute; reflexivity|].
    split; [apply NoDup_singleton|].
    repeat constructor. eexists. split; [vm_compute; reflexivity|]. simpl. lia.
Defined.

(** X11: After a successful [createOrder], [OrderRepository.get_by_id] finds
    the order with the header and the items that [createOrder] returned, each
    item with its product, whose price is the unit price of the item, and with
    the address and the user of the payload, which exist when foreign keys are
    checked. *)
Theorem created_order_is_read_back new_id raw db db' res :
  items_have_orders db ->
  createOrder new_id raw db = (db', Ok res) ->
  exists loaded,
    OrderRepository_get_by_id db' new_id = Some loaded /\
    lo_id loaded = res_id res /\
    lo_order loaded = res_order res /\
    (lo_items loaded).*1 = res_items res /\
    Forall (fun ip => exists p, ip.2 = Some p /\ price p = unit_price ip.1)
           (lo_items loaded) /\
    lo_address loaded = addresses db !! oc_address_id raw /\
    lo_user loaded = users db !! oc_user_id raw /\
    (foreign_keys db = true ->
     is_Some (lo_address loaded) /\ is_Some (lo_user loaded)).
Proof.
  intros Hwf H.
  pose proof (createOrder_succeeded _ _ _ _ _ H) as (_ & _ & _ & Hfk & _).
  apply createOrder_state in H
    as (Hid & Hord & Hitems & Hrows & _ & Hu & Ha & _ & Ho & _ & Hp);
    [|exact Hwf].
  unfold OrderRepository_get_by_id. rewrite Ho, lookup_insert_eq.
  eexists. split; [reflexivity|]. simpl. rewrite Hu, Ha, <- Hitems.
  split; [symmetry; exact Hid|]. split; [symmetry; exact Hord|].
  split.
  { rewrite <- list_fmap_compose. apply list_fmap_id. }
  split;
    [|split; [reflexivity|]; split; [reflexivity|];
      intros Hf; destruct (Hfk Hf); auto].
  apply Forall_fmap. apply List.Forall_forall. intros it Hit. simpl.
  apply list_elem_of_In in Hit.
  destruct (Forall2_elem_of_r _ _ _ _ Hrows Hit) as (line & _ & p & Hline & ->).
  simpl. rewrite Hp, Hline. simpl. eexists. split; reflexivity.
Qed.

Lemma created_order_is_read_back_witness :
  exists loaded,
    OrderRepository_get_by_id example_db_with_order 7%N = Some loaded /\
    (lo_items loaded).*1 = [mkOrderItem 7%N 1%N 3 (mkDecimal 1000 (-2))].
Proof.
  destruct (created_order_is_read_back 7%N
              (mkOrderCreate 1%N 1%N [mkOrderItemCreate 1%N 3]) example_db
              example_db_with_order _ (Forall_nil_2 _) scenario_three_widgets)
    as (loaded & Hget & _ & _ & Hitems & _).
  exists loaded. split; [exact Hget | exact Hitems].
Defined.

(** ** What every sequence of requests preserves *)

Lemma handle_all_invariant (P : DB -> Prop) :
  (forall db req, P db -> P (handle db req).1) ->
  forall reqs db, P db -> P (handle_all db reqs).
Proof.
  intros Hstep reqs. induction reqs as [|req rest IH]; intros db HP.
  - exact HP.
  - simpl. apply IH, Hstep, HP.
Qed.

Lemma handle_fst db req :
  (handle db req).1 =
  match req with
  | CreateProductRequest new_id raw => (create_product db new_id raw).1
  | UpdateProductRequest product_id raw => (update_product db product_id raw).1
  | UpdateStockRequest product_id change => (update_stock db product_id change).1
  | DeleteProductRequest product_id => (ProductService_delete db product_id).1
  | CreateOrderRequest new_id raw => (createOrder new_id raw db).1
  | CreateAddressRequest new_id raw => (create_address db new_id raw).1
  | UpdateAddressRequest address_id raw => (update_address db address_id raw).1
  | DeleteAddressRequest address_id => (AddressRepository_delete db address_id).1
  | CreateUserRequest new_id user_data => (UserService_create db new_id user_data).1
  | UpdateUserRequest user_id payload => (update_user db user_id payload).1
  | DeleteUserRequest user_id => (UserService_delete db user_id).1
  end.
Proof.
  destruct req; simpl;
    match goal with |- (let '(_, _) := ?r in _).1 = _ => destruct r end;
    reflexivity.
Qed.

(** *** The shape of each write *)

Lemma create_product_shape db new_id raw :
  (create_product db new_id raw).1 = db \/
  exists p, valid_product p /\ 0 <= count_in_warehouse p /\
            products db !! new_id = None /\
            (create_product db new_id raw).1
            = set_products db (<[new_id := p]> (products db)).
Proof.
  rewrite create_product_layers.
  destruct (ProductCreate_validate raw) as [d|e] eqn:Hv; [|left; reflexivity].
  destruct (coefficient (pc_price d) <=? 0) eqn:E; [left; reflexivity|].
  destruct (products db !! new_id) eqn:Hid; [left; reflexivity|].
  right. eexists. split; [|split; [|split; [reflexivity|reflexivity]]].
  - apply Z.leb_gt in E.
    apply ProductCreate_validate_bounds in Hv
      as (Hl & Hlen & _ & Hpk & _ & _ & Hround & Hc & _).
    unfold valid_product. simpl.
    split; [rewrite Hl; apply strip_idempotent|].
    split; [exact Hlen|]. split; [exact Hpk|].
    split; [apply Hround | lia].
  - simpl. apply ProductCreate_validate_bounds in Hv. tauto.
Qed.

Lemma validate_optional_label l o :
  validate_optional validate_label l = Ok o ->
  match o with
  | Some s => strip s = s /\ 3 <= len s <= 100
  | None => l = None
  end.
Proof.
  destruct l as [s|]; [|intros [= <-]; reflexivity].
  intros H. apply validate_optional_some in H as (y & Hy & ->).
  apply validate_label_ok in Hy as [-> Hlen].
  split; [apply strip_idempotent | exact Hlen].
Qed.

Lemma validate_optional_package n o :
  validate_optional validate_package_count n = Ok o ->
  match o with
  | Some v => 1 <= v <= 10000
  | None => n = None
  end.
Proof.
  destruct n as [v|]; [|intros [= <-]; reflexivity].
  intros H. apply validate_optional_some in H as (y & Hy & ->).
  apply validate_package_count_ok in Hy as [_ Hy]. exact Hy.
Qed.

Lemma validate_optional_warehouse n o :
  validate_optional validate_warehouse_count n = Ok o ->
  match o with
  | Some v => 0 <= v
  | None => n = None
  end.
Proof.
  destruct n as [v|]; [|intros [= <-]; reflexivity].
  intros H. apply validate_optional_some in H as (y & Hy & ->).
  apply validate_warehouse_count_ok in Hy as [_ Hy]. exact Hy.
Qed.

Lemma ProductRepository_update_positive db product_id d db' p :
  ProductRepository_update db product_id d = (db', Ok p) ->
  match pu_price d with
  | Some v => 0 < coefficient v
  | None => True
  end.
Proof.
  unfold ProductRepository_update.
  destruct (products db !! product_id); [|discriminate].
  destruct (pu_price d) as [v|]; [|trivial].
  unfold dec_le_zero. destruct (coefficient v <=? 0) eqn:E; [discriminate|].
  intros _. apply Z.leb_gt in E. exact E.
Qed.

Lemma update_product_shape db product_id raw :
  (update_product db product_id raw).1 = db \/
  exists old p,
    products db !! product_id = Some old /\
    (valid_product old -> valid_product p) /\
    (0 <= count_in_warehouse old -> 0 <= count_in_warehouse p) /\
    (update_product db product_id raw).1
    = set_products db (<[product_id := p]> (products db)).
Proof.
  destruct (update_product db product_id raw) as [db' [p|e]] eqn:H;
    [|left; apply update_product_err in H; exact H].
  right. unfold update_product in H.
  destruct (ProductUpdate_validate raw) as [d|] eqn:Hv; [|discriminate].
  apply ProductUpdate_validate_ok in Hv as (Hl & Hpk & Hw & Hprice).
  apply validate_optional_label in Hl.
  apply validate_optional_package in Hpk.
  apply validate_optional_warehouse in Hw.
  apply ProductService_update_ok in H.
  pose proof (ProductRepository_update_positive _ _ _ _ _ H) as Hpos.
  apply ProductRepository_update_ok in H as (old & q & Hold & Hq & -> & ->).
  exists old. eexists. split; [exact Hold|].
  split; [|split; [|reflexivity]].
  - intros (Hs & Hlen & Hp & He & Hc). unfold valid_product. simpl.
    assert (strip (default (label old) (pu_label d)) = default (label old) (pu_label d)
            /\ 3 <= len (default (label old) (pu_label d)) <= 100) as [H1 H2].
    { destruct (pu_label d); simpl; tauto. }
    split; [exact H1|]. split; [exact H2|].
    split; [destruct (pu_count_in_package d); simpl; tauto|].
    destruct (pu_price d) as [v|] eqn:Hpu.
    + destruct Hq as [Hq ->]. simpl.
      destruct (pu_price raw) as [v0|] eqn:Hraw; [|simpl in Hprice; discriminate].
      apply validate_optional_some in Hprice as (y & Hy & [= <-]).
      pose proof (validate_price_ok _ _ Hy) as [Hey Hcy].
      pose proof (quantize_fixpoint v) as Hfix.
      rewrite Hfix in Hq.
      * injection Hq as <-. split; [exact Hey | lia].
      * split; [exact Hey|]. rewrite Z.abs_eq by lia.
        change (10 ^ 28) with 10000000000000000000000000000. lia.
    + subst q. simpl. tauto.
  - intros Hstock. simpl. destruct (pu_count_in_warehouse d); simpl; tauto.
Qed.

Lemma update_stock_shape db product_id change :
  (update_stock db product_id change).1 = db \/
  exists old n,
    products db !! product_id = Some old /\ 0 <= n /\
    (update_stock db product_id change).1
    = set_products db
        (<[product_id := set_count_in_warehouse old n]> (products db)).
Proof.
  rewrite update_stock_cases.
  destruct (products db !! product_id) as [old|]; [|left; reflexivity].
  destruct (count_in_warehouse old + change <? 0) eqn:E; [left; reflexivity|].
  apply Z.ltb_ge in E. right. eauto.
Qed.

Lemma ProductService_delete_shape db product_id :
  (ProductService_delete db product_id).1 = db \/
  is_Some (products db !! product_id) /\
  active_orders db product_id = [] /\
  (ProductService_delete db product_id).1
  = mkDB (foreign_keys db) (users db) (addresses db)
         (delete product_id (products db)) (orders db)
         (List.filter
            (fun it => negb (bool_decide (item_product_id it = product_id)))
            (order_items db)).
Proof.
  unfold ProductService_delete, ProductRepository_delete.
  destruct (products db !! product_id) as [p|]; [|left; reflexivity].
  destruct (active_orders db product_id) eqn:Ha; [|left; reflexivity].
  right. eauto.
Qed.

Lemma createOrder_shape new_id raw db :
  (createOrder new_id raw db).1 = db \/
  exists res, createOrder new_id raw db = ((createOrder new_id raw db).1, Ok res).
Proof.
  destruct (createOrder new_id raw db) as [db' [res|e]] eqn:H.
  - right. eauto.
  - left. apply createOrder_err in H. exact H.
Qed.

Lemma create_address_shape db new_id raw :
  (create_address db new_id raw).1 = db \/
  exists address_data r,
    AddressCreate_validate raw = Done address_data /\
    AddressRepository_create db new_id address_data
    = ((create_address db new_id raw).1, Ok r).
Proof.
  unfold create_address.
  destruct (AddressCreate_validate raw) as [d|]; [|left; reflexivity].
  destruct (AddressRepository_create db new_id d) as [db' [r|e]] eqn:H.
  - right. eauto.
  - left. simpl. unfold AddressRepository_create in H.
    destruct (_ && _) in H; [discriminate|]. congruence.
Qed.

Lemma update_address_shape db address_id raw :
  (update_address db address_id raw).1 = db \/
  exists address_data r,
    AddressRepository_update db address_id address_data
    = ((update_address db address_id raw).1, Ok r).
Proof.
  unfold update_address.
  destruct (AddressUpdate_validate raw) as [d|]; [|left; reflexivity].
  destruct (AddressRepository_update db address_id d) as [db' [r|e]] eqn:H.
  - right. eauto.
  - left. simpl. unfold AddressRepository_update in H.
    destruct (addresses db !! address_id); [discriminate|]. congruence.
Qed.

Lemma AddressRepository_delete_shape db address_id :
  (AddressRepository_delete db address_id).1 = db \/
  order_count db address_id <= 0 /\
  (AddressRepository_delete db address_id).1
  = set_addresses db (delete address_id (addresses db)).
Proof.
  unfold AddressRepository_delete.
  destruct (addresses db !! address_id); [|left; reflexivity].
  destruct (0 <? order_count db address_id) eqn:E; [left; reflexivity|].
  apply Z.ltb_ge in E. right. auto.
Qed.

Lemma UserService_create_shape db new_id user_data :
  (UserService_create db new_id user_data).1 = db \/
  users db !! new_id = None /\
  map_Forall (fun _ u => username u <> uc_username user_data
                         /\ email u <> uc_email user_data) (users db) /\
  (UserService_create db new_id user_data).1
  = set_users db
      (<[new_id := mkUser (uc_username user_data) (uc_email user_data)
                          (uc_description user_data)]> (users db)).
Proof.
  unfold UserService_create.
  destruct (len (uc_username user_data) <? 3); [left; reflexivity|].
  destruct (negb (contains_at (uc_email user_data))); [left; reflexivity|].
  unfold UserRepository_create.
  destruct (bool_decide (users db !! new_id = None)) eqn:E1;
    [|left; reflexivity].
  destruct (bool_decide (map_Forall _ (users db))) eqn:E2;
    [|left; reflexivity].
  apply bool_decide_eq_true in E1, E2. right. simpl. auto.
Qed.

Lemma update_user_shape db user_id payload :
  (update_user db user_id payload).1 = db \/
  exists user name,
    users db !! user_id = Some user /\
    (forall id u, users db !! id = Some u -> id <> user_id ->
                  username u <> name) /\
    (update_user db user_id payload).1
    = set_users db
        (<[user_id := mkUser name (email user)
                             (match payload_description payload with
                              | Some d => Some d
                              | None => description user
                              end)]> (users db)).
Proof.
  unfold update_user.
  destruct (UserUpdate_validate payload) as [d|] eqn:Hv; [|left; reflexivity].
  unfold UserUpdate_validate in Hv. unbind Hv. injection Hv as <-.
  unfold UserService_update. simpl.
  destruct (match x with Some s => _ | None => false end); [left; reflexivity|].
  unfold UserRepository_update. simpl.
  destruct (users db !! user_id) as [user|] eqn:Hu; [|left; reflexivity].
  destruct (bool_decide (map_Forall _ (users db))) eqn:E; [|left; reflexivity].
  apply bool_decide_eq_true in E. right.
  exists user, (default (username user) x). split; [reflexivity|].
  split; [|reflexivity].
  intros id u Hid Hne. apply E in Hid. simpl in Hid. tauto.
Qed.

Lemma UserService_delete_shape db user_id :
  (UserService_delete db user_id).1 = db \/
  map_Forall (fun _ a => address_user_id a <> user_id) (addresses db) /\
  map_Forall (fun _ o => order_user_id o <> user_id) (orders db) /\
  (UserService_delete db user_id).1
  = set_users db (delete user_id (users db)).
Proof.
  unfold UserService_delete.
  destruct (users db !! user_id) as [user|] eqn:Hu; [|left; reflexivity].
  destruct (user_orders db user_id); [|left; reflexivity].
  unfold UserRepository_delete. rewrite Hu.
  destruct (bool_decide _) eqn:E; [|left; reflexivity].
  apply bool_decide_eq_true in E as [E1 E2]. right. auto.
Qed.

(** *** The tables that a request leaves alone *)

Lemma AddressRepository_create_tables db new_id address_data db' r :
  AddressRepository_create db new_id address_data = (db', Ok r) ->
  exists rows, db' = set_addresses db rows.
Proof.
  unfold AddressRepository_create. destruct (_ && _); [|discriminate].
  intros [= <- _]. eauto.
Qed.

Lemma AddressRepository_update_tables db address_id address_data db' r :
  AddressRepository_update db address_id address_data = (db', Ok r) ->
  exists rows, db' = set_addresses db rows.
Proof.
  unfold AddressRepository_update.
  destruct (addresses db !! address_id); [|discriminate].
  intros [= <- _]. eauto.
Qed.

Lemma product_request_tables db req :
  match req with
  | CreateProductRequest _ _ | UpdateProductRequest _ _
  | UpdateStockRequest _ _ => True
  | _ => False
  end ->
  exists rows, (handle db req).1 = set_products db rows.
Proof.
  rewrite handle_fst.
  destruct req as [new_id raw|product_id raw|product_id quantity_change|product_id|new_id raw|new_id raw|address_id raw|address_id|new_id user_data|user_id payload|user_id];
    try contradiction; intros _.
  - destruct (create_product_shape db new_id raw) as [->|(p & _ & _ & _ & ->)];
      [exists (products db); symmetry; apply set_products_same | eauto].
  - destruct (update_product_shape db product_id raw)
      as [->|(old & p & _ & _ & _ & ->)];
      [exists (products db); symmetry; apply set_products_same | eauto].
  - destruct (update_stock_shape db product_id quantity_change)
      as [->|(old & n & _ & _ & ->)];
      [exists (products db); symmetry; apply set_products_same | eauto].
Qed.

Lemma address_request_tables db req :
  match req with
  | CreateAddressRequest _ _ | UpdateAddressRequest _ _
  | DeleteAddressRequest _ => True
  | _ => False
  end ->
  exists rows, (handle db req).1 = set_addresses db rows.
Proof.
  assert (db = set_addresses db (addresses db)) as Hsame
    by (destruct db; reflexivity).
  rewrite handle_fst.
  destruct req as [new_id raw|product_id raw|product_id quantity_change|product_id|new_id raw|new_id raw|address_id raw|address_id|new_id user_data|user_id payload|user_id];
    try contradiction; intros _.
  - destruct (create_address_shape db new_id raw) as [->|(d & r & _ & H)];
      [eauto|]. eapply AddressRepository_create_tables, H.
  - destruct (update_address_shape db address_id raw) as [->|(d & r & H)];
      [eauto|]. eapply AddressRepository_update_tables, H.
  - destruct (AddressRepository_delete_shape db address_id) as [->|[_ ->]];
      eauto.
Qed.

Lemma user_request_tables db req :
  match req with
  | CreateUserRequest _ _ | UpdateUserRequest _ _
  | DeleteUserRequest _ => True
  | _ => False
  end ->
  exists rows, (handle db req).1 = set_users db rows.
Proof.
  assert (db = set_users db (users db)) as Hsame by (destruct db; reflexivity).
  rewrite handle_fst.
  destruct req as [new_id raw|product_id raw|product_id quantity_change|product_id|new_id raw|new_id raw|address_id raw|address_id|new_id user_data|user_id payload|user_id];
    try contradiction; intros _.
  - destruct (UserService_create_shape db new_id user_data) as [->|(_ & _ & ->)];
      eauto.
  - destruct (update_user_shape db user_id payload)
      as [->|(u & name & _ & _ & ->)]; eauto.
  - destruct (UserService_delete_shape db user_id) as [->|(_ & _ & ->)]; eauto.
Qed.

Lemma handle_tables db req :
  let db' := (handle db req).1 in
  foreign_keys db' = foreign_keys db /\
  match req with
  | CreateProductRequest _ _ | UpdateProductRequest _ _
  | UpdateStockRequest _ _ =>
      users db' = users db /\ addresses db' = addresses db /\
      orders db' = orders db /\ order_items db' = order_items db
  | DeleteProductRequest _ =>
      users db' = users db /\ addresses db' = addresses db /\
      orders db' = orders db
  | CreateOrderRequest _ _ =>
      users db' = users db /\ addresses db' = addresses db
  | CreateAddressRequest _ _ | UpdateAddressRequest _ _
  | DeleteAddressRequest _ =>
      users db' = users db /\ products db' = products db /\
      orders db' = orders db /\ order_items db' = order_items db
  | CreateUserRequest _ _ | UpdateUserRequest _ _ | DeleteUserRequest _ =>
      addresses db' = addresses db /\ products db' = products db /\
      orders db' = orders db /\ order_items db' = order_items db
  end.
Proof.
  intros db'. subst db'.
  destruct req as [new_id raw|product_id raw|product_id quantity_change|product_id|new_id raw|new_id raw|address_id raw|address_id|new_id user_data|user_id payload|user_id];
    try (match goal with
         | |- context [handle db ?r] =>
             first [ destruct (product_request_tables db r I) as [rows ->]
                   | destruct (address_request_tables db r I) as [rows ->]
                   | destruct (user_request_tables db r I) as [rows ->] ]
         end; simpl; tauto).
  - rewrite handle_fst.
    destruct (ProductService_delete_shape db product_id) as [->|(_ & _ & ->)];
      simpl; tauto.
  - rewrite handle_fst.
    destruct (createOrder_shape new_id raw db) as [->|[res H]]; [tauto|].
    apply createOrder_tables in H as (rows & _ & _ & _ & Hfk & Hu & Ha & _).
    tauto.
Qed.

(** X12: What a request never touches: a product write leaves users,
    addresses, orders and order items as they are; the deletion of a product
    leaves users, addresses and orders; an order leaves users and addresses;
    an address request leaves users, products, orders and order items; a user
    request leaves addresses, products, orders and order items; none changes
    whether foreign keys are checked. *)
Theorem handle_frame db req :
  let db' := (handle db req).1 in
  foreign_keys db' = foreign_keys db /\
  match req with
  | CreateProductRequest _ _ | UpdateProductRequest _ _
  | UpdateStockRequest _ _ =>
      users db' = users db /\ addresses db' = addresses db /\
      orders db' = orders db /\ order_items db' = order_items db
  | DeleteProductRequest _ =>
      users db' = users db /\ addresses db' = addresses db /\
      orders db' = orders db
  | CreateOrderRequest _ _ =>
      users db' = users db /\ addresses db' = addresses db
  | CreateAddressRequest _ _ | UpdateAddressRequest _ _
  | DeleteAddressRequest _ =>
      users db' = users db /\ products db' = products db /\
      orders db' = orders db /\ order_items db' = order_items db
  | CreateUserRequest _ _ | UpdateUserRequest _ _ | DeleteUserRequest _ =>
      addresses db' = addresses db /\ products db' = products db /\
      orders db' = orders db /\ order_items db' = order_items db
  end.
Proof. apply handle_tables. Qed.

(** *** Stored products stay within the bounds of the schema *)

Lemma set_count_valid p n : valid_product p -> valid_product (set_count_in_warehouse p n).
Proof. unfold valid_product. simpl. tauto. Qed.

Lemma handle_valid_products db req :
  valid_products db -> valid_products (handle db req).1.
Proof.
  intros Hv. unfold valid_products in *.
  destruct req as [new_id raw|product_id raw|product_id quantity_change|product_id|new_id raw|new_id raw|address_id raw|address_id|new_id user_data|user_id payload|user_id];
    try (match goal with
         | |- context [handle db ?r] =>
             destruct (handle_tables db r) as (_ & _ & -> & _)
         end; exact Hv);
    rewrite handle_fst.
  - destruct (create_product_shape db new_id raw) as [->|(p & Hp & _ & _ & ->)];
      [exact Hv|].
    apply map_Forall_insert_2; assumption.
  - destruct (update_product_shape db product_id raw)
      as [->|(old & p & Hold & Hp & _ & ->)]; [exact Hv|].
    apply map_Forall_insert_2; [|exact Hv]. apply Hp. apply (Hv _ _ Hold).
  - destruct (update_stock_shape db product_id quantity_change)
      as [->|(old & n & Hold & _ & ->)]; [exact Hv|].
    apply map_Forall_insert_2; [|exact Hv].
    apply set_count_valid. apply (Hv _ _ Hold).
  - destruct (ProductService_delete_shape db product_id) as [->|(_ & _ & ->)];
      [exact Hv|].
    simpl. apply map_Forall_delete. exact Hv.
  - destruct (createOrder_shape new_id raw db) as [->|[res H]]; [exact Hv|].
    apply createOrder_tables in H as (rows & _ & _ & _ & _ & _ & _ & _ & _ & Hp).
    intros pid p Hpid. rewrite Hp in Hpid.
    destruct (products db !! pid) as [p0|] eqn:Hp0; [|discriminate].
    injection Hpid as <-. apply set_count_valid. apply (Hv _ _ Hp0).
Qed.

(** X13: Whatever the requests, every stored product stays within the bounds
    of the product schema: a stripped label of 3 to 100 characters, 1 to 10000
    units per package, a price of two fractional digits above 0 and at most
    1,000,000. *)
Theorem products_stay_valid db reqs :
  valid_products db -> valid_products (handle_all db reqs).
Proof.
  revert db. apply handle_all_invariant. apply handle_valid_products.
Qed.

Lemma example_db_valid_products : valid_products example_db.
Proof.
  unfold valid_products, example_db. simpl.
  repeat apply map_Forall_insert_2; try apply map_Forall_empty;
    unfold valid_product; simpl; unfold len; simpl; repeat split;
    try reflexivity; lia.
Qed.

Lemma products_stay_valid_witness :
  valid_products
    (handle_all example_db
       [UpdateProductRequest 1%N
          (mkProductUpdate (Some " Widget XL ") None None
                           (Some (mkDecimal 12345 (-3))));
        CreateOrderRequest 7%N (mkOrderCreate 1%N 1%N [mkOrderItemCreate 1%N 3]);
        DeleteProductRequest 2%N]).
Proof.
  apply (products_stay_valid example_db). exact example_db_valid_products.
Defined.

(** *** Usernames and emails stay unique *)

Lemma handle_users_unique db req :
  users_unique db -> users_unique (handle db req).1.
Proof.
  intros Hu.
  destruct req as [new_id raw|product_id raw|product_id quantity_change|product_id|new_id raw|new_id raw|address_id raw|address_id|new_id user_data|user_id payload|user_id];
    try (unfold users_unique;
         match goal with
         | |- context [handle db ?r] =>
             destruct (handle_tables db r) as (_ & -> & _)
         end; exact Hu);
    rewrite handle_fst.
  - destruct (UserService_create_shape db new_id user_data)
      as [->|(Hfresh & Hfree & ->)]; [exact Hu|].
    intros id1 u1 id2 u2. simpl.
    rewrite !lookup_insert_Some.
    intros [[<- <-]|[Hn1 H1]] [[<- <-]|[Hn2 H2]] Heq; simpl in *.
    + reflexivity.
    + apply Hfree in H2. simpl in H2. destruct Heq as [Heq|Heq];
        [destruct H2 as [H2 _] | destruct H2 as [_ H2]]; congruence.
    + apply Hfree in H1. simpl in H1. destruct Heq as [Heq|Heq];
        [destruct H1 as [H1 _] | destruct H1 as [_ H1]]; congruence.
    + eapply Hu; eauto.
  - destruct (update_user_shape db user_id payload)
      as [->|(user & name & Huser & Hfree & ->)]; [exact Hu|].
    intros id1 u1 id2 u2. simpl.
    rewrite !lookup_insert_Some.
    intros [[<- <-]|[Hn1 H1]] [[<- <-]|[Hn2 H2]] Heq; simpl in *.
    + reflexivity.
    + destruct Heq as [Heq|Heq].
      * exfalso. apply (Hfree _ _ H2); [congruence | congruence].
      * apply (Hu _ _ _ _ Huser H2). right. exact Heq.
    + destruct Heq as [Heq|Heq].
      * exfalso. apply (Hfree _ _ H1); [congruence | congruence].
      * apply (Hu _ _ _ _ H1 Huser). right. exact Heq.
    + eapply Hu; eauto.
  - destruct (UserService_delete_shape db user_id) as [->|(_ & _ & ->)];
      [exact Hu|].
    intros id1 u1 id2 u2. simpl. rewrite !lookup_delete_Some.
    intros [_ H1] [_ H2]. apply (Hu _ _ _ _ H1 H2).
Qed.

(** X14: Whatever the requests, no two users come to share a username or an
    email. *)
Theorem users_stay_unique db reqs :
  users_unique db -> users_unique (handle_all db reqs).
Proof.
  revert db. apply handle_all_invariant. apply handle_users_unique.
Qed.

Lemma users_stay_unique_witness :
  users_unique
    (handle_all example_db
       [CreateUserRequest 2%N (mkUserCreate "bob" "bob@example.com" None);
        CreateUserRequest 3%N (mkUserCreate "bob" "robert@example.com" None);
        UpdateUserRequest 2%N (mkUserUpdatePayload (Some "alice") None None)]).
Proof.
  apply (users_stay_unique example_db).
  intros id1 u1 id2 u2. unfold example_db. simpl.
  rewrite !lookup_singleton_Some. intros [<- _] [<- _] _. reflexivity.
Defined.

(** *** One primary address per user at most *)

Lemma handle_one_primary db req :
  (forall user_id, at_most_one_primary (addresses db) user_id) ->
  forall user_id, at_most_one_primary (addresses (handle db req).1) user_id.
Proof.
  intros Hp.
  destruct req as [new_id raw|product_id raw|product_id quantity_change|product_id|new_id raw|new_id raw|address_id raw|address_id|new_id user_data|user_id payload|user_id];
    try (match goal with
         | |- context [handle db ?r] =>
             first [ destruct (handle_tables db r) as (_ & _ & -> & _); exact Hp
                   | destruct (handle_tables db r) as (_ & _ & ->); exact Hp
                   | destruct (handle_tables db r) as (_ & -> & _); exact Hp ]
         end);
    rewrite handle_fst.
  - destruct (create_address_shape db new_id raw) as [->|(d & r & _ & H)];
      [exact Hp|].
    destruct (address_writes_keep_one_primary db Hp) as [Hcreate _].
    eapply Hcreate, H.
  - destruct (update_address_shape db address_id raw) as [->|(d & r & H)];
      [exact Hp|].
    destruct (address_writes_keep_one_primary db Hp) as [_ Hupdate].
    eapply Hupdate, H.
  - destruct (AddressRepository_delete_shape db address_id) as [->|[_ ->]];
      [exact Hp|].
    intros user_id id1 a1 id2 a2. simpl. rewrite !lookup_delete_Some.
    intros [_ H1] [_ H2]. apply (Hp user_id _ _ _ _ H1 H2).
Qed.

(** X15: Whatever the requests, no user comes to have two primary addresses.
    *)
Theorem primary_addresses_stay_exclusive db reqs :
  (forall user_id, at_most_one_primary (addresses db) user_id) ->
  forall user_id, at_most_one_primary (addresses (handle_all db reqs)) user_id.
Proof.
  revert db.
  apply (handle_all_invariant
           (fun db => forall user_id, at_most_one_primary (addresses db) user_id)).
  apply handle_one_primary.
Qed.

Lemma primary_addresses_stay_exclusive_witness :
  at_most_one_primary
    (addresses
       (handle_all example_db
          [CreateAddressRequest 2%N
             (mkAddressCreate 1%N "5 Side Road" "Test City" (Some "CA")
                              "54321" "USA" true);
           UpdateAddressRequest 1%N
             (mkAddressUpdate None None None None None (Some true))]))
    1%N.
Proof.
  apply (primary_addresses_stay_exclusive example_db).
  intros user_id id1 a1 id2 a2. unfold example_db. simpl.
  rewrite !lookup_singleton_Some. intros [<- _] [<- _] _ _ _ _. reflexivity.
Defined.

(** *** Order items keep their order, their product and their key *)

Lemma items_intact_products db rows :
  items_intact db ->
  (forall id, is_Some (products db !! id) -> is_Some (rows !! id)) ->
  items_intact (set_products db rows).
Proof.
  intros [Hnd Hrefs] Hkeep. split; [exact Hnd|]. simpl.
  eapply Forall_impl; [exact Hrefs|]. simpl. intros it [Ho Hp]. auto.
Qed.

Lemma handle_items_intact db req :
  items_intact db -> items_intact (handle db req).1.
Proof.
  intros Hi.
  destruct req as [new_id raw|product_id raw|product_id quantity_change|product_id|new_id raw|new_id raw|address_id raw|address_id|new_id user_data|user_id payload|user_id];
    try (unfold items_intact;
         match goal with
         | |- context [handle db ?r] =>
             first [ destruct (handle_tables db r) as (_ & _ & -> & -> & ->);
                     exact Hi ]
         end);
    rewrite handle_fst.
  - destruct (create_product_shape db new_id raw) as [->|(p & _ & _ & _ & ->)];
      [exact Hi|].
    apply items_intact_products; [exact Hi|].
    intros id Hid. rewrite lookup_insert_is_Some'. auto.
  - destruct (update_product_shape db product_id raw)
      as [->|(old & p & _ & _ & _ & ->)]; [exact Hi|].
    apply items_intact_products; [exact Hi|].
    intros id Hid. rewrite lookup_insert_is_Some'. auto.
  - destruct (update_stock_shape db product_id quantity_change)
      as [->|(old & n & _ & _ & ->)]; [exact Hi|].
    apply items_intact_products; [exact Hi|].
    intros id Hid. rewrite lookup_insert_is_Some'. auto.
  - destruct (ProductService_delete_shape db product_id) as [->|(_ & _ & ->)];
      [exact Hi|].
    destruct Hi as [Hnd Hrefs]. split; simpl.
    + eapply sublist_NoDup; [exact Hnd|].
      apply fmap_sublist. clear.
      induction (order_items db) as [|it l IH]; simpl; [constructor|].
      destruct (negb _); [apply sublist_skip | apply sublist_cons]; exact IH.
    + apply List.Forall_forall. intros it Hin.
      apply List.filter_In in Hin as [Hin Hne].
      rewrite List.Forall_forall in Hrefs. destruct (Hrefs it Hin) as [Ho Hp].
      split; [exact Ho|].
      apply negb_true_iff, bool_decide_eq_false in Hne.
      rewrite lookup_delete_ne by congruence. exact Hp.
  - destruct (createOrder_shape new_id raw db) as [->|[res H]]; [exact Hi|].
    apply createOrder_tables in H
      as (rows & Hrows & Hnd & _ & _ & _ & _ & Ho & Hitems & Hp).
    destruct Hi as [_ Hrefs]. split; rewrite Hitems; [exact Hnd|].
    apply Forall_app. split.
    + eapply Forall_impl; [exact Hrefs|]. simpl. intros it [Hio Hip].
      rewrite Ho, Hp. split.
      * rewrite lookup_insert_is_Some'. auto.
      * destruct Hip as [p ->]. simpl. eauto.
    + apply List.Forall_forall. intros it Hin.
      apply list_elem_of_In in Hin.
      destruct (Forall2_elem_of_r _ _ _ _ Hrows Hin) as (line & _ & p & Hline & ->).
      simpl. rewrite Ho, Hp, Hline, lookup_insert_eq. simpl. eauto.
Qed.

(** X16: Whatever the requests, the order items keep distinct keys, and each
    of them keeps an order and a product that exist. *)
Theorem order_items_stay_intact db reqs :
  items_intact db -> items_intact (handle_all db reqs).
Proof.
  revert db. apply handle_all_invariant. apply handle_items_intact.
Qed.

Lemma order_items_stay_intact_witness :
  items_intact
    (handle_all example_db
       [CreateOrderRequest 7%N (mkOrderCreate 1%N 1%N [mkOrderItemCreate 1%N 3]);
        DeleteProductRequest 1%N;
        CreateOrderRequest 8%N (mkOrderCreate 1%N 1%N [mkOrderItemCreate 2%N 5]);
        UpdateStockRequest 2%N 4]).
Proof.
  apply (order_items_stay_intact example_db).
  split; [apply NoDup_nil_2 | apply Forall_nil_2].
Defined.

(** *** With foreign keys checked, no reference is left dangling *)

Lemma clear_primary_user user_id except rows id a :
  clear_primary user_id except rows !! id = Some a ->
  exists a0, rows !! id = Some a0 /\ address_user_id a = address_user_id a0.
Proof.
  rewrite clear_primary_lookup.
  destruct (rows !! id) as [a0|]; [|discriminate]. simpl.
  intros [= <-]. exists a0. split; [reflexivity|].
  destruct (_ && _); reflexivity.
Qed.

Lemma clear_primary_is_Some user_id except rows id :
  is_Some (clear_primary user_id except rows !! id) <-> is_Some (rows !! id).
Proof.
  rewrite clear_primary_lookup. apply fmap_is_Some.
Qed.

Lemma references_intact_addresses db rows :
  references_intact db ->
  (forall id a, rows !! id = Some a -> is_Some (users db !! address_user_id a)) ->
  (forall id o, orders db !! id = Some o -> is_Some (rows !! order_address_id o)) ->
  references_intact (set_addresses db rows).
Proof.
  intros [Ha Ho] Hrows Hkeep. split; simpl.
  - intros id a. apply Hrows.
  - intros id o Hid. split; [apply (Ho _ _ Hid) | apply (Hkeep _ _ Hid)].
Qed.

Lemma references_intact_users db rows :
  references_intact db ->
  (forall id a, addresses db !! id = Some a ->
                is_Some (rows !! address_user_id a)) ->
  (forall id o, orders db !! id = Some o -> is_Some (rows !! order_user_id o)) ->
  references_intact (set_users db rows).
Proof.
  intros [Ha Ho] Hrows Hkeep. split; simpl.
  - intros id a. apply Hrows.
  - intros id o Hid. split; [apply (Hkeep _ _ Hid) | apply (Ho _ _ Hid)].
Qed.

Lemma handle_references_intact db req :
  foreign_keys db = true -> references_intact db ->
  references_intact (handle db req).1.
Proof.
  intros Hfk Hr.
  destruct req as [new_id raw|product_id raw|product_id quantity_change|product_id|new_id raw|new_id raw|address_id raw|address_id|new_id user_data|user_id payload|user_id];
    try (unfold references_intact;
         match goal with
         | |- context [handle db ?r] =>
             first [ destruct (handle_tables db r) as (_ & -> & -> & -> & _);
                     exact Hr
                   | destruct (handle_tables db r) as (_ & -> & -> & ->);
                     exact Hr ]
         end);
    rewrite handle_fst.
  - (* createOrder *)
    destruct (createOrder_shape new_id raw db) as [->|[res H]]; [exact Hr|].
    pose proof (createOrder_succeeded _ _ _ _ _ H) as (_ & _ & _ & Hrefs & _).
    destruct (Hrefs Hfk) as [Huser Haddr].
    apply createOrder_tables in H
      as (rows & _ & _ & _ & _ & Hu & Ha & Ho & _).
    destruct Hr as [Hra Hro]. unfold references_intact.
    rewrite Hu, Ha, Ho. split; [exact Hra|].
    apply map_Forall_insert_2; [|exact Hro]. simpl. auto.
  - (* create address *)
    destruct (create_address_shape db new_id raw) as [->|(d & r & _ & H)];
      [exact Hr|].
    unfold AddressRepository_create in H. rewrite Hfk in H. simpl in H.
    destruct (bool_decide (addresses db !! new_id = None)); [|discriminate].
    destruct (bool_decide (is_Some (ac_state d))); [|discriminate].
    destruct (bool_decide (is_Some (users db !! ac_user_id d))) eqn:E;
      [|discriminate].
    apply bool_decide_eq_true in E. simpl in H. injection H as H _.
    rewrite <- H. destruct Hr as [Hra Hro].
    apply references_intact_addresses; [split; assumption| |].
    + intros id a. rewrite lookup_insert_Some.
      intros [[_ <-]|[_ Hid]]; [exact E|].
      destruct (ac_is_primary d).
      * apply clear_primary_user in Hid as (a0 & Ha0 & ->). apply (Hra _ _ Ha0).
      * apply (Hra _ _ Hid).
    + intros id o Hid. rewrite lookup_insert_is_Some'. right.
      destruct (ac_is_primary d);
        [apply clear_primary_is_Some|]; apply (Hro _ _ Hid).
  - (* update address *)
    destruct (update_address_shape db address_id raw) as [->|(d & r & H)];
      [exact Hr|].
    unfold AddressRepository_update in H.
    destruct (addresses db !! address_id) as [address|] eqn:Haddr;
      [|discriminate].
    injection H as H _. rewrite <- H. destruct Hr as [Hra Hro].
    apply references_intact_addresses; [split; assumption| |].
    + intros id a. rewrite lookup_insert_Some.
      intros [[_ <-]|[_ Hid]]; [simpl; apply (Hra _ _ Haddr)|].
      destruct (au_is_primary d) as [[|]|];
        [apply clear_primary_user in Hid as (a0 & Ha0 & ->); apply (Hra _ _ Ha0)
        | apply (Hra _ _ Hid) | apply (Hra _ _ Hid)].
    + intros id o Hid. rewrite lookup_insert_is_Some'. right.
      destruct (au_is_primary d) as [[|]|];
        [apply clear_primary_is_Some| |]; apply (Hro _ _ Hid).
  - (* delete address *)
    destruct (AddressRepository_delete_shape db address_id) as [->|[Hcount ->]];
      [exact Hr|].
    destruct Hr as [Hra Hro].
    apply references_intact_addresses; [split; assumption| |].
    + intros id a. rewrite lookup_delete_Some. intros [_ Hid].
      apply (Hra _ _ Hid).
    + intros id o Hid.
      rewrite lookup_delete_ne; [apply (Hro _ _ Hid)|].
      intros Heq. pose proof (order_count_pos db address_id id o Hid) as Hpos.
      symmetry in Heq. specialize (Hpos Heq). lia.
  - (* create user *)
    destruct (UserService_create_shape db new_id user_data)
      as [->|(_ & _ & ->)]; [exact Hr|].
    destruct Hr as [Hra Hro].
    apply references_intact_users; [split; assumption| |].
    + intros id a Hid. rewrite lookup_insert_is_Some'. right.
      apply (Hra _ _ Hid).
    + intros id o Hid. rewrite lookup_insert_is_Some'. right.
      apply (Hro _ _ Hid).
  - (* update user *)
    destruct (update_user_shape db user_id payload)
      as [->|(u & name & _ & _ & ->)]; [exact Hr|].
    destruct Hr as [Hra Hro].
    apply references_intact_users; [split; assumption| |].
    + intros id a Hid. rewrite lookup_insert_is_Some'. right.
      apply (Hra _ _ Hid).
    + intros id o Hid. rewrite lookup_insert_is_Some'. right.
      apply (Hro _ _ Hid).
  - (* delete user *)
    destruct (UserService_delete_shape db user_id) as [->|(Hna & Hno & ->)];
      [exact Hr|].
    destruct Hr as [Hra Hro].
    apply references_intact_users; [split; assumption| |].
    + intros id a Hid. rewrite lookup_delete_ne; [apply (Hra _ _ Hid)|].
      apply Hna in Hid. simpl in Hid. congruence.
    + intros id o Hid. rewrite lookup_delete_ne; [apply (Hro _ _ Hid)|].
      apply Hno in Hid. simpl in Hid. congruence.
Qed.

(** X17: In a datastore that checks foreign keys, whatever the requests, the
    datastore goes on checking them and no address is left without its user
    and no order without its user or its address. *)
Theorem references_stay_intact db reqs :
  foreign_keys db = true -> references_intact db ->
  foreign_keys (handle_all db reqs) = true /\
  references_intact (handle_all db reqs).
Proof.
  intros Hfk Hr.
  apply (handle_all_invariant
           (fun db => foreign_keys db = true /\ references_intact db));
    [|split; assumption].
  clear. intros db req [Hfk Hr]. split.
  - destruct (handle_tables db req) as [-> _]. exact Hfk.
  - apply handle_references_intact; assumption.
Qed.

Lemma references_stay_intact_witness :
  references_intact
    (handle_all example_db
       [CreateOrderRequest 7%N (mkOrderCreate 1%N 1%N [mkOrderItemCreate 1%N 3]);
        DeleteAddressRequest 1%N;
        DeleteUserRequest 1%N;
        CreateAddressRequest 2%N
          (mkAddressCreate 9%N "5 Side Road" "Test City" (Some "CA") "54321"
                           "USA" false)]).
Proof.
  apply (references_stay_intact example_db).
  - reflexivity.
  - split; unfold example_db; simpl.
    + apply map_Forall_singleton. simpl. eexists. vm_compute. reflexivity.
    + apply map_Forall_empty.
Defined.

(** ** Users: listing and creation *)

Lemma given_some v s :
  given v = Some s <-> v = Some s /\ s <> EmptyString.
Proof.
  unfold given. destruct v as [s0|]; [|split; [discriminate | intros [? _]; discriminate]].
  destruct s0; simpl.
  - split; [discriminate | intros [[= <-] H]; congruence].
  - split; [intros [= <-]; split; [reflexivity | discriminate]
           | intros [[= <-] _]; reflexivity].
Qed.

Lemma user_matches_true f iu :
  user_matches f iu = true <->
  (forall s, by_username f = Some s -> username iu.2 = s) /\
  (forall s, by_email f = Some s -> email iu.2 = s).
Proof.
  unfold user_matches. rewrite andb_true_iff.
  destruct (by_username f) as [s1|], (by_email f) as [s2|];
    rewrite ?bool_decide_eq_true; split;
    try (intros [H1 H2]; split; intros s; intros [= <-]; assumption);
    try (intros [H1 H2]; split; intros s Hs; try discriminate;
         injection Hs as <-; assumption);
    try (intros [H1 H2]; split; auto).
Qed.

Lemma offset_limit_sublist {A} offset count (l : list A) :
  sublist (offset_limit offset count l) l.
Proof.
  unfold offset_limit.
  etransitivity; [apply sublist_take | apply sublist_drop].
Qed.

Lemma offset_limit_length {A} offset count (l : list A) :
  (length (offset_limit offset count l) <= Z.to_nat count)%nat.
Proof. unfold offset_limit. rewrite length_take. lia. Qed.

Lemma list_filter_sublist {A} (f : A -> bool) l : sublist (List.filter f l) l.
Proof.
  induction l as [|x l IH]; simpl; [constructor|].
  destruct (f x); [apply sublist_skip | apply sublist_cons]; exact IH.
Qed.

Lemma get_by_filter_rows db count page f :
  let rows := UserRepository_get_by_filter db count page f in
  (length rows <= Z.to_nat count)%nat /\
  NoDup rows.*1 /\
  forall id u, (id, u) ∈ rows ->
               users db !! id = Some u /\ user_matches f (id, u) = true.
Proof.
  intros rows. unfold rows, UserRepository_get_by_filter.
  split; [apply offset_limit_length|].
  assert (sublist (offset_limit (page_offset count page) count
                     (List.filter (user_matches f) (scan (users db))))
                  (scan (users db))) as Hsub.
  { etransitivity; [apply offset_limit_sublist | apply list_filter_sublist]. }
  split.
  - eapply NoDup_fst_sublist; [exact Hsub | apply scan_NoDup].
  - intros id u Hin. split.
    + apply scan_elem_of. eapply sublist_subseteq; [exact Hsub | exact Hin].
    + apply (sublist_subseteq _ _ (offset_limit_sublist _ _ _)) in Hin.
      apply list_elem_of_In, List.filter_In in Hin as [_ Hm]. exact Hm.
Qed.

(** X18: With a count from 1 to 100 and a page of 1 at least, [get_all_users]
    answers with at most count users of the datastore, no user twice, each
    with the username asked for and the email asked for, a filter that is
    absent or empty asking for nothing. *)
Theorem get_all_users_page db count page username_filter email_filter :
  1 <= count <= 100 -> 1 <= page ->
  exists rows,
    get_all_users db count page username_filter email_filter = Done rows /\
    (length rows <= Z.to_nat count)%nat /\
    NoDup rows.*1 /\
    forall id u, (id, u) ∈ rows ->
      users db !! id = Some u /\
      (forall s, username_filter = Some s -> s <> EmptyString ->
                 username u = s) /\
      (forall s, email_filter = Some s -> s <> EmptyString -> email u = s).
Proof.
  intros [Hc1 Hc2] Hp. unfold get_all_users, UserService_get_by_filter.
  destruct (count <? 1) eqn:E1; [apply Z.ltb_lt in E1; lia|].
  destruct (100 <? count) eqn:E2; [apply Z.ltb_lt in E2; lia|].
  destruct (page <? 1) eqn:E3; [apply Z.ltb_lt in E3; lia|].
  simpl. eexists. split; [reflexivity|].
  destruct (get_by_filter_rows db count page
              (mkUserFilters (given username_filter) (given email_filter)))
    as (Hlen & Hnd & Hrows).
  split; [exact Hlen|]. split; [exact Hnd|].
  intros id u Hin. apply Hrows in Hin as [Hu Hm]. split; [exact Hu|].
  apply user_matches_true in Hm as [Hm1 Hm2]. simpl in *.
  split; intros s Hs Hne; [apply Hm1 | apply Hm2]; apply given_some; auto.
Qed.

Lemma get_all_users_page_witness :
  exists rows,
    get_all_users example_db 10 1 (Some "alice") None = Done rows /\
    (length rows <= 10)%nat.
Proof.
  destruct (get_all_users_page example_db 10 1 (Some "alice") None)
    as (rows & Hrows & Hlen & _); [lia | lia |].
  exists rows. split; [exact Hrows | exact Hlen].
Defined.

Lemma singleton_list {A} (l : list A) x :
  NoDup l -> x ∈ l -> (forall y, y ∈ l -> y = x) -> l = [x].
Proof.
  intros Hnd Hin Hall. destruct l as [|a l]; [inversion Hin|].
  assert (a = x) as -> by (apply Hall, list_elem_of_here).
  f_equal. destruct l as [|b l]; [reflexivity|].
  assert (b = x) as -> by (apply Hall, list_elem_of_further, list_elem_of_here).
  apply NoDup_cons in Hnd as [Hnot _]. exfalso. apply Hnot, list_elem_of_here.
Qed.

Lemma unique_match db f id u :
  users db !! id = Some u ->
  user_matches f (id, u) = true ->
  (forall id' u', users db !! id' = Some u' ->
                  user_matches f (id', u') = true -> id' = id) ->
  List.filter (user_matches f) (scan (users db)) = [(id, u)].
Proof.
  intros Hu Hm Huniq. apply singleton_list.
  - eapply sublist_NoDup; [apply NoDup_map_to_list | apply list_filter_sublist].
  - apply list_elem_of_In, List.filter_In. split; [|exact Hm].
    apply list_elem_of_In, scan_elem_of, Hu.
  - intros [id' u'] Hin.
    apply list_elem_of_In, List.filter_In in Hin as [Hin Hm'].
    apply list_elem_of_In, scan_elem_of in Hin.
    assert (id' = id) as -> by (eapply Huniq; eauto).
    congruence.
Qed.

(** X19: When usernames and emails are unique, the first page of the users
    with the username of a user, if it is not empty, is that user alone, and
    so is the first page of the users with its email. *)
Theorem user_is_found db count id u :
  users_unique db ->
  users db !! id = Some u ->
  1 <= count <= 100 ->
  (username u <> EmptyString ->
   get_all_users db count 1 (Some (username u)) None = Done [(id, u)]) /\
  (email u <> EmptyString ->
   get_all_users db count 1 None (Some (email u)) = Done [(id, u)]).
Proof.
  intros Huniq Hu [Hc1 Hc2].
  assert (forall f,
             user_matches f (id, u) = true ->
             (forall id' u', users db !! id' = Some u' ->
                             user_matches f (id', u') = true -> id' = id) ->
             UserService_get_by_filter db count 1 f = Done [(id, u)]) as Hfound.
  { intros f Hm Hall. unfold UserService_get_by_filter.
    destruct (count <? 1) eqn:E1; [apply Z.ltb_lt in E1; lia|].
    destruct (100 <? count) eqn:E2; [apply Z.ltb_lt in E2; lia|].
    simpl. unfold UserRepository_get_by_filter, page_offset. simpl.
    rewrite (unique_match db f id u Hu Hm Hall).
    unfold offset_limit. simpl. f_equal. apply take_ge. simpl. lia. }
  unfold get_all_users.
  split; intros Hne; rewrite (proj2 (given_some _ _) (conj eq_refl Hne));
    apply Hfound.
  - apply user_matches_true. simpl. split; [congruence | discriminate].
  - intros id' u' Hu' Hm. apply user_matches_true in Hm as [Hm _].
    simpl in Hm. apply (Huniq _ _ _ _ Hu' Hu). left. apply Hm. reflexivity.
  - apply user_matches_true. simpl. split; [discriminate | congruence].
  - intros id' u' Hu' Hm. apply user_matches_true in Hm as [_ Hm].
    simpl in Hm. apply (Huniq _ _ _ _ Hu' Hu). right. apply Hm. reflexivity.
Qed.

Lemma user_is_found_witness :
  get_all_users example_db 10 1 (Some "alice") None
  = Done [(1%N, mkUser "alice" "alice@example.com" None)].
Proof.
  apply (user_is_found example_db 10 1%N
           (mkUser "alice" "alice@example.com" None)).
  - intros id1 u1 id2 u2. unfold example_db. simpl.
    rewrite !lookup_singleton_Some. intros [<- _] [<- _] _. reflexivity.
  - vm_compute. reflexivity.
  - lia.
  - discriminate.
Defined.

Lemma scan_nothing {A} (P : UUID * A -> Prop) `{!forall x, Decision (P x)}
    (table : gmap UUID A) :
  (forall id a, table !! id = Some a -> ~ P (id, a)) ->
  map_to_list (filter P table) = [].
Proof.
  intros Hnone. apply map_to_list_empty_iff. apply map_empty. intros id.
  apply map_lookup_filter_None. right. intros a Ha. apply Hnone, Ha.
Qed.

(** X20: When every address and every order has its user, a user that
    [UserService.create] has created has the fields of the payload, a username
    of 3 characters at least and an email with an at sign, had a new
    identifier, and is read back by [UserRepository.get_by_id] with no address
    and no order. *)
Theorem created_user_is_read_back db new_id user_data db' id u :
  references_intact db ->
  UserService_create db new_id user_data = (db', Done (id, u)) ->
  id = new_id /\
  u = mkUser (uc_username user_data) (uc_email user_data)
             (uc_description user_data) /\
  3 <= len (username u) /\ contains_at (email u) = true /\
  users db !! new_id = None /\
  UserRepository_get_by_id db' new_id = Some (mkLoadedUser new_id u [] []).
Proof.
  intros [Hra Hro]. unfold UserService_create.
  destruct (len (uc_username user_data) <? 3) eqn:E1; [discriminate|].
  destruct (contains_at (uc_email user_data)) eqn:E2; [|discriminate].
  simpl. unfold UserRepository_create.
  destruct (bool_decide (users db !! new_id = None)) eqn:E3; [|discriminate].
  destruct (bool_decide (map_Forall _ (users db))); [|discriminate].
  simpl. intros [= <- <- <-].
  apply bool_decide_eq_true in E3. apply Z.ltb_ge in E1.
  repeat (split; [first [reflexivity | assumption]|]).
  unfold UserRepository_get_by_id, user_orders, scan. simpl.
  rewrite lookup_insert_eq.
  rewrite !scan_nothing; [reflexivity| |].
  - intros oid o Ho Huser. simpl in Huser.
    destruct (Hro _ _ Ho) as [[x Hx] _]. simpl in Hx. congruence.
  - intros aid a Ha Huser. simpl in Huser.
    destruct (Hra _ _ Ha) as [x Hx]. simpl in Hx. congruence.
Qed.

Lemma created_user_is_read_back_witness :
  let bob := mkUser "bob" "bob@example.com" (Some "the second user") in
  UserRepository_get_by_id
    (UserService_create example_db 2%N
       (mkUserCreate "bob" "bob@example.com" (Some "the second user"))).1 2%N
  = Some (mkLoadedUser 2%N bob [] []).
Proof.
  intros bob.
  assert (references_intact example_db) as Hr.
  { split; unfold example_db; simpl.
    - apply map_Forall_singleton. simpl. eexists. vm_compute. reflexivity.
    - apply map_Forall_empty. }
  destruct (created_user_is_read_back example_db 2%N
              (mkUserCreate "bob" "bob@example.com" (Some "the second user"))
              (UserService_create example_db 2%N
                 (mkUserCreate "bob" "bob@example.com"
                               (Some "the second user"))).1
              2%N bob Hr)
    as (_ & _ & _ & _ & _ & Hget).
  - vm_compute. reflexivity.
  - exact Hget.
Defined.

(** ** Addresses: the list of a user, repeated updates *)

(** X21: [get_user_addresses] lists no address twice; it lists exactly the
    addresses of the user, and only the primary ones unless inactive addresses
    are asked for; primary addresses come first; when the user has one primary
    address at most, a listed primary address is the first of the list, and
    without inactive addresses the list has one address at most. *)
Theorem get_user_addresses_lists db user_id include_inactive :
  let listed :=
    AddressRepository_get_user_addresses db user_id include_inactive in
  NoDup listed.*1 /\
  (forall id a, (id, a) ∈ listed <->
     addresses db !! id = Some a /\ address_user_id a = user_id /\
     (include_inactive = false -> is_primary a = true)) /\
  StronglySorted primary_first listed /\
  (at_most_one_primary (addresses db) user_id ->
   (forall id a, (id, a) ∈ listed -> is_primary a = true ->
                 head listed = Some (id, a)) /\
   (include_inactive = false -> (length listed <= 1)%nat)).
Proof.
  intros listed. unfold listed, AddressRepository_get_user_addresses.
  set (keep := fun ia : UUID * Address =>
                 bool_decide (address_user_id ia.2 = user_id)
                 && (include_inactive || is_primary ia.2)).
  set (rows := List.filter keep (scan (addresses db))).
  pose proof (StronglySorted_merge_sort primary_first rows) as Hsorted.
  pose proof (merge_sort_Permutation primary_first rows) as Hperm.
  set (sorted := merge_sort primary_first rows) in *.
  assert (NoDup sorted.*1) as Hnd.
  { rewrite Hperm. eapply NoDup_fst_sublist;
      [apply list_filter_sublist | apply scan_NoDup]. }
  assert (forall id a, (id, a) ∈ sorted <->
            addresses db !! id = Some a /\ address_user_id a = user_id /\
            (include_inactive = false -> is_primary a = true)) as Hin.
  { intros id a. rewrite Hperm. unfold rows.
    rewrite list_elem_of_In, List.filter_In, <- list_elem_of_In, scan_elem_of.
    unfold keep. simpl.
    rewrite andb_true_iff, bool_decide_eq_true, orb_true_iff.
    destruct include_inactive, (is_primary a); intuition congruence. }
  split; [exact Hnd|]. split; [exact Hin|]. split; [exact Hsorted|].
  intros Hone.
  assert (forall x y, x ∈ sorted -> y ∈ sorted ->
                      is_primary x.2 = true -> is_primary y.2 = true -> x = y)
    as Hsame.
  { intros [id1 a1] [id2 a2] H1 H2 Hp1 Hp2. simpl in *.
    apply Hin in H1 as (H1 & Hu1 & _). apply Hin in H2 as (H2 & Hu2 & _).
    assert (id1 = id2) as -> by (eapply Hone; eauto).
    congruence. }
  split.
  - intros id a Hel Hp.
    destruct sorted as [|x rest]; [inversion Hel|]. simpl. f_equal.
    apply elem_of_cons in Hel as [->|Hel]; [reflexivity|].
    apply StronglySorted_inv in Hsorted as [_ Hhd].
    rewrite Forall_forall in Hhd.
    apply Hsame; [apply list_elem_of_here | apply list_elem_of_further, Hel | | exact Hp].
    apply (Hhd _ Hel). exact Hp.
  - intros ->.
    destruct sorted as [|x [|y rest]]; simpl; [lia | lia |].
    exfalso.
    assert (x = y) as Hxy.
    { apply Hsame.
      - apply list_elem_of_here.
      - apply list_elem_of_further, list_elem_of_here.
      - destruct x as [id a]. apply (Hin id a); [apply list_elem_of_here | reflexivity].
      - destruct y as [id a].
        apply (Hin id a);
          [apply list_elem_of_further, list_elem_of_here | reflexivity]. }
    subst y. simpl in Hnd. apply NoDup_cons in Hnd as [Hnot _].
    apply Hnot, list_elem_of_here.
Qed.

Lemma get_user_addresses_lists_witness :
  head (AddressRepository_get_user_addresses example_db 1%N false)
  = Some (1%N, mkAddress 1%N "123 Test St" "Test City" (Some "CA") "12345"
                         "USA" true).
Proof.
  destruct (get_user_addresses_lists example_db 1%N false)
    as (_ & Hin & _ & Hone).
  destruct Hone as [Hhead _].
  - intros id1 a1 id2 a2. unfold example_db. simpl.
    rewrite !lookup_singleton_Some. intros [<- _] [<- _] _ _ _ _. reflexivity.
  - apply Hhead; [|reflexivity].
    apply Hin. split; [vm_compute; reflexivity|]. split; reflexivity.
Defined.

Lemma apply_address_update_twice a d :
  apply_address_update (apply_address_update a d) d = apply_address_update a d.
Proof.
  unfold apply_address_update. simpl.
  destruct (au_street d), (au_city d), (au_state d), (au_zip_code d),
    (au_country d), (au_is_primary d); reflexivity.
Qed.

Lemma clear_primary_again user_id written rows new :
  <[written := new]>
    (clear_primary user_id (Some written)
       (<[written := new]> (clear_primary user_id (Some written) rows)))
  = <[written := new]> (clear_primary user_id (Some written) rows).
Proof.
  apply map_eq. intros id.
  destruct (decide (id = written)) as [->|Hne].
  - rewrite !lookup_insert_eq. reflexivity.
  - rewrite !lookup_insert_ne by congruence.
    rewrite clear_primary_lookup, lookup_insert_ne by congruence.
    rewrite clear_primary_lookup.
    destruct (rows !! id) as [a|]; [|reflexivity]. simpl. f_equal.
    destruct (bool_decide (address_user_id a = user_id) && is_primary a
              && negb (bool_decide (Some written = Some id))) eqn:E.
    + simpl. rewrite andb_false_r. reflexivity.
    + rewrite E. reflexivity.
Qed.

(** X22: An address update that has succeeded, sent again, leaves the
    datastore as the first one left it and returns the same address; an update
    that carries no field leaves the datastore as it is and returns the
    address as it is. *)
Theorem AddressRepository_update_idempotent db address_id :
  (forall address_data db1 updated,
      AddressRepository_update db address_id address_data = (db1, Ok updated) ->
      AddressRepository_update db1 address_id address_data = (db1, Ok updated))
  /\
  (forall address,
      addresses db !! address_id = Some address ->
      AddressRepository_update db address_id
        (mkAddressUpdate None None None None None None)
      = (db, Ok address)).
Proof.
  split.
  - intros d db1 updated H. unfold AddressRepository_update in *.
    destruct (addresses db !! address_id) as [address|] eqn:Ha; [|discriminate].
    injection H as <- <-. simpl. rewrite lookup_insert_eq.
    rewrite apply_address_update_twice.
    unfold set_addresses. simpl. f_equal. f_equal.
    destruct (au_is_primary d) as [[|]|].
    + apply clear_primary_again.
    + apply insert_insert_eq.
    + apply insert_insert_eq.
  - intros address Ha. unfold AddressRepository_update. rewrite Ha. simpl.
    assert (apply_address_update address
              (mkAddressUpdate None None None None None None) = address) as ->
      by (destruct address; reflexivity).
    rewrite insert_id by exact Ha. destruct db; reflexivity.
Qed.

Lemma AddressRepository_update_idempotent_witness :
  let address_data :=
    mkAddressUpdate (Some "7 New Street") None None None None (Some true) in
  let db1 := (AddressRepository_update example_db 1%N address_data).1 in
  AddressRepository_update db1 1%N address_data
  = (db1, Ok (mkAddress 1%N "7 New Street" "Test City" (Some "CA") "12345"
                        "USA" true)).
Proof.
  intros address_data db1.
  destruct (AddressRepository_update_idempotent example_db 1%N) as [Htwice _].
  apply Htwice. vm_compute. reflexivity.
Defined.

(** *** Stored addresses stay in the form of the schema *)

Lemma validate_given_ok {A} (f : A -> answer A) v r :
  validate_given f v = Done r ->
  match r with
  | Some y => exists x, v = Some x /\ f x = Done y
  | None => v = None
  end.
Proof.
  destruct v as [x|]; simpl; [|intros [= <-]; reflexivity].
  destruct (f x) as [y|e] eqn:Hf; simpl; [|discriminate].
  intros [= <-]. eauto.
Qed.

Lemma clear_primary_valid user_id except rows :
  map_Forall (fun _ a => valid_address a) rows ->
  map_Forall (fun _ a => valid_address a) (clear_primary user_id except rows).
Proof.
  intros Hv id a. rewrite clear_primary_lookup.
  destruct (rows !! id) as [a0|] eqn:Ha0; [|discriminate]. simpl.
  intros [= <-]. specialize (Hv _ _ Ha0). simpl in Hv.
  destruct (_ && _); [|exact Hv]. exact Hv.
Qed.

Lemma handle_valid_addresses db req :
  valid_addresses db -> valid_addresses (handle db req).1.
Proof.
  intros Hv. unfold valid_addresses in *.
  destruct req as [new_id raw|product_id raw|product_id quantity_change|product_id|new_id raw|new_id raw|address_id raw|address_id|new_id user_data|user_id payload|user_id];
    try (match goal with
         | |- context [handle db ?r] =>
             first [ destruct (handle_tables db r) as (_ & _ & -> & _); exact Hv
                   | destruct (handle_tables db r) as (_ & _ & ->); exact Hv
                   | destruct (handle_tables db r) as (_ & -> & _); exact Hv ]
         end);
    rewrite handle_fst.
  - destruct (create_address_shape db new_id raw) as [->|(d & r & Hd & H)];
      [exact Hv|].
    unfold AddressRepository_create in H.
    destruct (_ && _) in H; [|discriminate]. injection H as H _. rewrite <- H.
    simpl. apply map_Forall_insert_2.
    + unfold AddressCreate_validate in Hd. unchain Hd. injection Hd as <-.
      apply validate_text_ok in Hx as [-> Hs].
      apply validate_text_ok in Hx0 as [-> Hc].
      apply validate_text_ok in Hx3 as [-> Hco].
      apply validate_zip_code_ok in Hx2 as (-> & Hza & Hz).
      unfold valid_address. simpl.
      repeat split; try apply strip_idempotent; try assumption; lia.
    + destruct (ac_is_primary d); [apply clear_primary_valid|]; exact Hv.
  - destruct (update_address_shape db address_id raw) as [->|(d & r & H)];
      [exact Hv|].
    unfold update_address in *.
    destruct (AddressUpdate_validate raw) as [d'|] eqn:Hd.
    + destruct (AddressRepository_update db address_id d') as [db' r'] eqn:H'.
      simpl in *. clear H d r.
      unfold AddressRepository_update in H'.
      destruct (addresses db !! address_id) as [address|] eqn:Ha;
        [|injection H' as <- _; exact Hv].
      injection H' as <- _. simpl. apply map_Forall_insert_2.
      * pose proof (Hv _ _ Ha) as (Hs & Hc & Hz & Hco). simpl in *.
        unfold AddressUpdate_validate in Hd. unchain Hd. injection Hd as <-.
        apply validate_given_ok in Hx, Hx0, Hx1, Hx2.
        unfold valid_address, apply_address_update. simpl.
        split; [|split; [|split]].
        -- destruct x as [y|]; simpl; [|exact Hs].
           destruct Hx as (v & _ & Hx).
           apply validate_text_ok in Hx as [-> Hl].
           split; [apply strip_idempotent | lia].
        -- destruct x0 as [y|]; simpl; [|exact Hc].
           destruct Hx0 as (v & _ & Hx0).
           apply validate_text_ok in Hx0 as [-> Hl].
           split; [apply strip_idempotent | lia].
        -- destruct x1 as [y|]; simpl; [|exact Hz].
           destruct Hx1 as (v & _ & Hx1).
           apply validate_zip_code_ok in Hx1 as (-> & Hal & Hl).
           split; [exact Hal | lia].
        -- destruct x2 as [y|]; simpl; [|exact Hco].
           destruct Hx2 as (v & _ & Hx2).
           apply validate_text_ok in Hx2 as [-> Hl].
           split; [apply strip_idempotent | lia].
      * destruct (au_is_primary d') as [[|]|];
          [apply clear_primary_valid| |]; exact Hv.
    + simpl. exact Hv.
  - destruct (AddressRepository_delete_shape db address_id) as [->|[_ ->]];
      [exact Hv|].
    simpl. apply map_Forall_delete. exact Hv.
Qed.

(** X23: Whatever the requests, every stored address keeps a stripped,
    non-empty street, city and country within 100, 50 and 50 characters and a
    ZIP code of 3 to 10 letters and digits. *)
Theorem addresses_stay_valid db reqs :
  valid_addresses db -> valid_addresses (handle_all db reqs).
Proof.
  revert db. apply handle_all_invariant. apply handle_valid_addresses.
Qed.

Lemma addresses_stay_valid_witness :
  valid_addresses
    (handle_all example_db
       [CreateAddressRequest 2%N
          (mkAddressCreate 1%N " 5 Side Road " "Test City" (Some " CA ")
                           "54-321" "USA" true);
        UpdateAddressRequest 1%N
          (mkAddressUpdate None (Some " Springfield") (Some "  far  ")
                           (Some "AB 12") None None)]).
Proof.
  apply (addresses_stay_valid example_db).
  unfold valid_addresses, example_db. simpl.
  apply map_Forall_singleton.
  unfold valid_address, len. simpl.
  repeat split; try reflexivity; lia.
Defined.

(** *** An address needs a state *)

(** X27: An address payload whose state is absent or blank passes the
    [AddressCreate] schema with a state of [None], and its creation is then
    refused by the datastore: the column [state] is NOT NULL, the call raises
    an integrity error and the datastore is as it was. *)
Theorem create_address_needs_state db new_id raw address_data :
  AddressCreate_validate raw = Done address_data ->
  match ac_state raw with
  | Some s => strip s = EmptyString
  | None => True
  end ->
  ac_state address_data = None /\
  create_address db new_id raw = (db, Raise (Raised IntegrityError)).
Proof.
  intros Hv Hstate.
  assert (ac_state address_data = None) as Hnone.
  { unfold AddressCreate_validate in Hv. unchain Hv. injection Hv as <-. simpl.
    unfold validate_state in Hx1. destruct (ac_state raw) as [s|].
    - rewrite Hstate in Hx1. simpl in Hx1. congruence.
    - congruence. }
  split; [exact Hnone|].
  unfold create_address. rewrite Hv.
  unfold AddressRepository_create. rewrite Hnone.
  rewrite (bool_decide_eq_false_2 (is_Some None)) by (intros [? ?]; discriminate).
  rewrite andb_false_r. reflexivity.
Qed.

Lemma create_address_needs_state_witness :
  create_address example_db 2%N
    (mkAddressCreate 1%N "5 Side Road" "Test City" (Some "  ") "54321" "USA"
                     false)
  = (example_db, Raise (Raised IntegrityError)).
Proof.
  apply (create_address_needs_state example_db 2%N
           (mkAddressCreate 1%N "5 Side Road" "Test City" (Some "  ") "54321"
                            "USA" false)
           (mkAddressCreate 1%N "5 Side Road" "Test City" None "54321" "USA"
                            false)).
  - vm_compute. reflexivity.
  - vm_compute. reflexivity.
Defined.

(** ** The product service with a cache *)

Lemma get_by_id_coherent db cache product_id :
  coherent db cache ->
  coherent db (ProductService_get_by_id db cache product_id).1 /\
  (ProductService_get_by_id db cache product_id).2 = products db !! product_id.
Proof.
  intros Hc. unfold ProductService_get_by_id, get_product.
  destruct (cache !! product_id) as [cached|] eqn:Hhit; cbn [fst snd].
  - split; [exact Hc|]. symmetry. apply Hc, Hhit.
  - unfold ProductRepository_get_by_id.
    destruct (products db !! product_id) as [p|] eqn:Hp; cbn [fst snd];
      [|split; [exact Hc | reflexivity]].
    split; [|reflexivity].
    intros id c. unfold set_product. rewrite lookup_insert_Some.
    intros [[<- <-]|[_ Hid]]; [exact Hp | apply Hc, Hid].
Qed.

Lemma coherent_insert db cache product_id p :
  coherent db cache ->
  coherent (set_products db (<[product_id := p]> (products db)))
           (set_product cache product_id p).
Proof.
  intros Hc id c. unfold set_product. simpl.
  rewrite !lookup_insert_Some.
  intros [[<- <-]|[Hne Hid]]; [left; auto | right; split; [exact Hne|]].
  apply Hc, Hid.
Qed.

Lemma ProductRepository_delete_cases db product_id :
  ProductRepository_delete db product_id = (db, (ProductRepository_delete db product_id).2)
  /\ (forall u, (ProductRepository_delete db product_id).2 <> Ok u)
  \/ exists db', ProductRepository_delete db product_id = (db', Ok tt) /\
                 products db' = delete product_id (products db).
Proof.
  unfold ProductRepository_delete.
  destruct (products db !! product_id); [|left; split; [reflexivity | discriminate]].
  destruct (active_orders db product_id);
    [|left; split; [reflexivity | discriminate]].
  right. eexists. split; reflexivity.
Qed.

Lemma serve_coherent db cache call :
  coherent db cache -> coherent (serve db cache call).1 (serve db cache call).2.
Proof.
  intros Hc.
  destruct call as [product_id|new_id d|product_id d|product_id change
                    |product_id|product_id]; simpl.
  - apply get_by_id_coherent, Hc.
  - unfold ProductService_create_cached.
    destruct (ProductService_create db new_id d) as [db' [[id p]|e]] eqn:H; simpl.
    + apply ProductService_create_ok, ProductRepository_create_ok in H
        as (-> & _ & _ & _ & ->).
      apply coherent_insert, Hc.
    + assert (db' = db) as ->; [|exact Hc].
      unfold ProductService_create, ProductRepository_create in H.
      repeat match type of H with
             | (if ?c then _ else _) = _ => destruct c
             | match ?c with _ => _ end = _ => destruct c
             end; congruence.
  - unfold ProductService_update_cached.
    destruct (get_by_id_coherent db cache product_id Hc) as [Hc1 _].
    destruct (ProductService_get_by_id db cache product_id) as [cache1 [p|]];
      simpl in *; [|exact Hc1].
    repeat match goal with
           | |- context [if ?c then _ else _] => destruct c; [exact Hc1|]
           end.
    destruct (ProductRepository_update db product_id d) as [db' [u|e]] eqn:H;
      simpl.
    + apply ProductRepository_update_ok in H as (old & q & _ & _ & _ & ->).
      apply coherent_insert, Hc1.
    + apply ProductRepository_update_err in H as ->. exact Hc1.
  - unfold ProductService_update_stock_cached.
    change (ProductRepository_update_stock db product_id change)
      with (update_stock db product_id change).
    destruct (update_stock db product_id change) as [db' [u|e]] eqn:H; simpl.
    + apply update_stock_ok in H as (p0 & _ & _ & _ & ->).
      apply coherent_insert, Hc.
    + apply update_stock_err in H as ->. exact Hc.
  - unfold ProductService_delete_cached.
    destruct (get_by_id_coherent db cache product_id Hc) as [Hc1 _].
    destruct (ProductService_get_by_id db cache product_id) as [cache1 [p|]];
      simpl in *; [|exact Hc1].
    destruct (ProductRepository_delete_cases db product_id)
      as [[-> Herr]|(db' & -> & Hdel)].
    + destruct (ProductRepository_delete db product_id).2 as [u|e] eqn:E; simpl.
      * exfalso. apply (Herr u). reflexivity.
      * exact Hc1.
    + simpl. intros id c. unfold delete_product. rewrite Hdel.
      rewrite !lookup_delete_Some. intros [Hne Hid]. split; [exact Hne|].
      apply Hc1, Hid.
  - intros id c. unfold expire. rewrite lookup_delete_Some.
    intros [_ Hid]. apply Hc, Hid.
Qed.

(** X24: Whatever the calls on the product service with a cache, and whenever
    entries expire, every entry of the cache is the row of its product. *)
Theorem cache_stays_coherent db cache calls :
  coherent db cache ->
  coherent (serve_all db cache calls).1 (serve_all db cache calls).2.
Proof.
  revert db cache. induction calls as [|call rest IH]; intros db cache Hc.
  - exact Hc.
  - simpl. pose proof (serve_coherent db cache call Hc) as Hc'.
    destruct (serve db cache call) as [db' cache']. apply IH, Hc'.
Qed.

Lemma cache_stays_coherent_witness :
  let calls :=
    [GetProduct 1%N; UpdateStockCached 1%N (-40);
     UpdateProductCached 2%N (mkProductUpdate (Some "Gadget XL") None None None);
     EntryExpires 1%N; DeleteProductCached 2%N; GetProduct 1%N] in
  coherent (serve_all example_db ∅ calls).1 (serve_all example_db ∅ calls).2.
Proof.
  intros calls. apply (cache_stays_coherent example_db ∅ calls).
  intros id c. rewrite lookup_empty. discriminate.
Defined.

(** X25: With a cache whose entries are the rows of their products, the
    product service finds what the datastore holds, and its create, update,
    update_stock and delete leave the datastore and return the result as they
    do without a cache. *)
Theorem cache_is_transparent db cache :
  coherent db cache ->
  (forall product_id,
      (ProductService_get_by_id db cache product_id).2
      = products db !! product_id) /\
  (forall new_id product_data,
      let r := ProductService_create_cached db cache new_id product_data in
      (r.1.1, r.2) = ProductService_create db new_id product_data) /\
  (forall product_id product_data,
      let r := ProductService_update_cached db cache product_id product_data in
      (r.1.1, r.2) = ProductService_update db product_id product_data) /\
  (forall product_id change,
      let r := ProductService_update_stock_cached db cache product_id change in
      (r.1.1, r.2) = ProductService_update_stock db product_id change) /\
  (forall product_id,
      let r := ProductService_delete_cached db cache product_id in
      (r.1.1, r.2) = ProductService_delete db product_id).
Proof.
  intros Hc.
  split; [intros id; apply get_by_id_coherent, Hc|].
  split.
  { intros new_id d. unfold ProductService_create_cached. simpl.
    destruct (ProductService_create db new_id d) as [db' [[id p]|e]];
      reflexivity. }
  split.
  { intros product_id d. simpl.
    unfold ProductService_update_cached, ProductService_update.
    destruct (get_by_id_coherent db cache product_id Hc) as [_ Hfound].
    destruct (ProductService_get_by_id db cache product_id) as [cache1 found].
    simpl in Hfound. rewrite <- Hfound.
    destruct found as [p|]; [|reflexivity].
    repeat match goal with
           | |- context [if ?c then _ else _] => destruct c; [reflexivity|]
           end.
    destruct (ProductRepository_update db product_id d) as [db' [u|e]];
      reflexivity. }
  split.
  { intros product_id change. simpl.
    unfold ProductService_update_stock_cached, ProductService_update_stock.
    destruct (ProductRepository_update_stock db product_id change)
      as [db' [u|e]]; reflexivity. }
  intros product_id. simpl.
  unfold ProductService_delete_cached, ProductService_delete.
  destruct (get_by_id_coherent db cache product_id Hc) as [_ Hfound].
  destruct (ProductService_get_by_id db cache product_id) as [cache1 found].
  simpl in Hfound. rewrite <- Hfound.
  destruct found as [p|]; [|reflexivity].
  destruct (ProductRepository_delete db product_id) as [db' [[]|e]]; reflexivity.
Qed.

Lemma cache_is_transparent_witness :
  let cache : Cache := {[ 2%N := mkProduct "Gadget" 1 5 (mkDecimal 1550 (-2)) ]} in
  (ProductService_get_by_id example_db cache 2%N).2 = products example_db !! 2%N.
Proof.
  intros cache.
  destruct (cache_is_transparent example_db cache) as [Hget _].
  - intros id c. unfold cache. rewrite lookup_singleton_Some.
    intros [<- <-]. vm_compute. reflexivity.
  - apply Hget.
Defined.

(** X26: A successful [createOrder] leaves the cache as it is: for a cached
    product the service goes on answering with the entry from before the
    order, while the row of the product has its stock lowered by the quantity
    that the lines ask of it, which is above 0 when a line names the product.
    *)
Theorem order_leaves_cache_stale new_id raw db db' res cache product_id cached :
  coherent db cache ->
  cache !! product_id = Some cached ->
  createOrder new_id raw db = (db', Ok res) ->
  (ProductService_get_by_id db' cache product_id).2 = Some cached /\
  products db' !! product_id
  = Some (set_count_in_warehouse cached
            (count_in_warehouse cached - requested product_id (oc_items raw))) /\
  (In product_id (map oi_product_id (oc_items raw)) ->
   0 < requested product_id (oc_items raw)).
Proof.
  intros Hc Hhit H.
  pose proof (createOrder_succeeded _ _ _ _ _ H) as (_ & Hq & _).
  apply createOrder_tables in H as (rows & _ & _ & _ & _ & _ & _ & _ & _ & Hp).
  split; [unfold ProductService_get_by_id, get_product; rewrite Hhit; reflexivity|].
  split; [rewrite Hp, (Hc _ _ Hhit); reflexivity|].
  clear -Hq. induction Hq as [|it l Hit Hl IH]; simpl; [contradiction|].
  pose proof (requested_nonneg product_id l Hl) as Hnn.
  intros [Heq|Hin].
  - rewrite bool_decide_eq_true_2 by exact Heq. lia.
  - specialize (IH Hin). destruct (bool_decide _); lia.
Qed.

Lemma order_leaves_cache_stale_witness :
  let cache : Cache := {[ 1%N := mkProduct "Widget" 1 100 (mkDecimal 1000 (-2)) ]} in
  (ProductService_get_by_id example_db_with_order cache 1%N).2
  = Some (mkProduct "Widget" 1 100 (mkDecimal 1000 (-2)))
  /\ products example_db_with_order !! 1%N
     = Some (mkProduct "Widget" 1 97 (mkDecimal 1000 (-2))).
Proof.
  intros cache.
  destruct (order_leaves_cache_stale 7%N
              (mkOrderCreate 1%N 1%N [mkOrderItemCreate 1%N 3]) example_db
              example_db_with_order
              (mkOrderResult 7%N (mkOrder 1%N 1%N)
                 [mkOrderItem 7%N 1%N 3 (mkDecimal 1000 (-2))])
              cache 1%N
              (mkProduct "Widget" 1 100 (mkDecimal 1000 (-2))))
    as (Hget & Hrow & _).
  - intros id c. unfold cache. rewrite lookup_singleton_Some.
    intros [<- <-]. vm_compute. reflexivity.
  - vm_compute. reflexivity.
  - exact scenario_three_widgets.
  - split; [exact Hget | exact Hrow].
Defined.
